(** * xbox360iso: a shallow embedding of [src/xbox360iso.py]

    The development follows the Python module function by function:
    [check_iso], [extract_defaultxex], [extract_xex_info], [parse] and
    [load_game_lookup] of class [Xbox360ISO], then [main].  File objects and
    [io.BytesIO] buffers are streams with a current position; every stage
    either returns a value, returns [False] after printing a message, or
    raises an exception. *)

From Stdlib Require Import ZArith QArith List String Ascii Lia Bool.
From Stdlib.Strings Require Import Byte.
From stdpp Require Import base gmap strings list pretty.

Import ListNotations.
Local Open Scope string_scope.
Local Open Scope list_scope.
Local Open Scope Z_scope.

(** ** Bytes and text *)

Abbreviation bytes := (list byte).

Definition len {A} (l : list A) : Z := Z.of_nat (length l).

Definition byte_val (b : byte) : Z := Z.of_N (Byte.to_N b).

(** [b.decode("ascii", "ignore")]: bytes of 0x80 and above are dropped. *)
Definition is_ascii (b : byte) : bool := byte_val b <? 128.

Definition decode_ascii_ignore (b : bytes) : string :=
  string_of_list_byte (List.filter is_ascii b).

(** [str.lower()] and [str.upper()]; the strings they are applied to come
    out of an ASCII decode, where only the 26 letters have a case. *)
Definition lower_char (c : ascii) : ascii :=
  let n := N_of_ascii c in
  if ((65 <=? n) && (n <=? 90))%N then ascii_of_N (n + 32) else c.

Definition upper_char (c : ascii) : ascii :=
  let n := N_of_ascii c in
  if ((97 <=? n) && (n <=? 122))%N then ascii_of_N (n - 32) else c.

Fixpoint lower (s : string) : string :=
  match s with
  | EmptyString => EmptyString
  | String c r => String (lower_char c) (lower r)
  end.

Fixpoint upper (s : string) : string :=
  match s with
  | EmptyString => EmptyString
  | String c r => String (upper_char c) (upper r)
  end.

(** [binascii.hexlify]: two lowercase hexadecimal digits per byte. *)
Definition hex_digit (n : Z) : byte :=
  match Byte.of_N (Z.to_N (if n <? 10 then 48 + n else 87 + n)) with
  | Some b => b
  | None => x00
  end.

Definition hexlify (b : bytes) : bytes :=
  flat_map (fun x => [hex_digit (byte_val x / 16); hex_digit (byte_val x mod 16)]) b.

(** ** Outcomes of a stage

    A stage of the module ends in one of three ways: it returns a value, it
    prints a message and returns the sentinel [False], or an exception leaves
    it.  The [failure] names are the ones of the specification's taxonomy; in
    the source each is a [return False], told apart by the message printed
    just before:
    - [UnsupportedLegacyFormat]: 'Original Xbox ISO format not supported'
    - [UnknownContainerFormat]: 'Unknown ISO format'
    - [EntryNotFound]: 'default.xex not found'
    - [BadMagic]: 'XEX2 was not found at the start of default.xex'
    - [CodeOffsetBeyondSize]: 'Starting address of Xex code is beyond size of
      default.xex' (the taxonomy has no name for this one)
    - [CertOffsetInvalid]: 'Xex certificate offset is beyond the starting
      address of Xex code'
    - [HeaderTableOverflow]: 'Xex general info table has entries that spill
      over into the Xex code'
    - [ExecutionInfoNotFound]: the silent [return False] after the table
      scan. *)
Inductive failure :=
  | UnsupportedLegacyFormat
  | UnknownContainerFormat
  | EntryNotFound
  | BadMagic
  | CodeOffsetBeyondSize
  | CertOffsetInvalid
  | HeaderTableOverflow
  | ExecutionInfoNotFound.

(** The exceptions the module can meet: [struct.error] from [unpack] on a
    buffer that is not 4 bytes long, [ValueError] from a negative seek of a
    [BytesIO] or a read size below -1 on a file, [OSError] from [open] or
    from a negative seek of a file, [TypeError] from [ord] of an empty read or
    from arithmetic on a value that is not a number, [KeyError] from a missing
    dictionary key.  All of them derive from [Exception]. *)
Inductive exn :=
  | struct_error
  | ValueError
  | OSError
  | TypeError
  | KeyError.

Inductive outcome (A : Type) :=
  | Ret (a : A)
  | Fail (f : failure)
  | Raise (e : exn).
Arguments Ret {A} a.
Arguments Fail {A} f.
Arguments Raise {A} e.

(** ** Byte sources and streams

    A disc image is hundreds of megabytes long, so the content of a byte
    source is its size and the byte at each offset rather than a list. *)
Record source := Source { src_size : Z; src_byte : Z -> byte }.

Definition of_bytes (b : bytes) : source :=
  {| src_size := len b; src_byte i := nth (Z.to_nat i) b x00 |}.

(** The bytes [read(n)] returns at position [p]: at most [n] of them, fewer
    (or none) when the source ends first, all that remain when [n] is
    negative. *)
Definition read_at (s : source) (p n : Z) : bytes :=
  let avail := src_size s - p in
  map (src_byte s) (seqZ p (if n <? 0 then avail else Z.min n avail)).

Inductive stream_kind := File | BytesIO.

(** An open stream: its content, the current position, and the reads made
    so far as (position, bytes asked for), oldest first. *)
Record stream := Stream {
  kind : stream_kind;
  content : source;
  pos : Z;
  reads : list (Z * Z)
}.

(** [open(filename, "rb")] *)
Definition open_file (c : source) : stream :=
  {| kind := File; content := c; pos := 0; reads := [] |}.

(** [b = io.BytesIO(); b.write(data); b.seek(0)] *)
Definition new_BytesIO (data : bytes) : stream :=
  {| kind := BytesIO; content := of_bytes data; pos := 0; reads := [] |}.

(** ** A state and outcome monad over a stream *)
Definition M (S A : Type) : Type := S -> outcome A * S.

Definition ret {S A} (a : A) : M S A := fun s => (Ret a, s).
Definition fail {S A} (f : failure) : M S A := fun s => (Fail f, s).

Definition bind {S A B} (c : M S A) (k : A -> M S B) : M S B :=
  fun s =>
    match c s with
    | (Ret a, s') => k a s'
    | (Fail f, s') => (Fail f, s')
    | (Raise e, s') => (Raise e, s')
    end.

Notation "'let!' x ':=' c 'in' k" := (bind c (fun x => k))
  (at level 10, x name, c at level 200, k at level 200).

Definition lift {S A} (o : outcome A) : M S A := fun s => (o, s).

Definition set_pos (s : stream) (n : Z) : stream :=
  {| kind := kind s; content := content s; pos := n; reads := reads s |}.

Definition after_read (s : stream) (n : Z) : stream :=
  {| kind := kind s; content := content s;
     pos := pos s + len (read_at (content s) (pos s) n);
     reads := reads s ++ [(pos s, n)] |}.

(** [seek(n)], from the start of the stream.  A position beyond the end is
    accepted; a negative one raises, [OSError] on a file and [ValueError] on
    a [BytesIO]. *)
Definition seek (n : Z) : M stream unit :=
  fun s =>
    if n <? 0 then
      (Raise (match kind s with File => OSError | BytesIO => ValueError end), s)
    else (Ret tt, set_pos s n).

(** [read(n)].  The sizes the module passes are constants or come out of
    [unpack('I', ...)], so they are not negative; a buffered file refuses a
    size below -1 with [ValueError]. *)
Definition read (n : Z) : M stream bytes :=
  fun s =>
    if (n <? -1) && (match kind s with File => true | BytesIO => false end) then
      (Raise ValueError, s)
    else (Ret (read_at (content s) (pos s) n), after_read s n).

(** ** [struct.unpack] and [ord] *)

(** [unpack('>I', b)[0]] *)
Definition unpack_BE (b : bytes) : outcome Z :=
  match b with
  | [b0; b1; b2; b3] =>
      Ret (byte_val b0 * 16777216 + byte_val b1 * 65536 + byte_val b2 * 256 + byte_val b3)
  | _ => Raise struct_error
  end.

(** [unpack('I', b)[0]]: native byte order, little-endian on the machines
    the tool runs on. *)
Definition unpack_I (b : bytes) : outcome Z :=
  match b with
  | [b0; b1; b2; b3] =>
      Ret (byte_val b0 + byte_val b1 * 256 + byte_val b2 * 65536 + byte_val b3 * 16777216)
  | _ => Raise struct_error
  end.

(** [ord(b)] of a bytes object *)
Definition ord (b : bytes) : outcome Z :=
  match b with
  | [b0] => Ret (byte_val b0)
  | _ => Raise TypeError
  end.

(** [int.from_bytes(b, byteorder='big')]; the empty bytes object gives 0. *)
Definition int_from_bytes_big (b : bytes) : Z :=
  fold_left (fun acc x => acc * 256 + byte_val x) b 0.

(** ** Dictionaries

    [iso_info], [xex_info] and the result of [parse] are Python dictionaries
    from strings to integers, strings and one float. *)
Inductive pyval :=
  | VInt (n : Z)
  | VStr (s : string)
  | VFloat (q : Q).

Abbreviation dict := (gmap string pyval).

(** [d[k]] where the code goes on to do integer arithmetic with the value.
    The dictionaries that reach these lookups are built by [check_iso], which
    stores integers under the keys concerned; a value of another type is
    outside that use and is given [TypeError]. *)
Definition getitem_int (d : dict) (k : string) : outcome Z :=
  match d !! k with
  | Some (VInt n) => Ret n
  | Some _ => Raise TypeError
  | None => Raise KeyError
  end.

(** [os.fstat(f.fileno()).st_size] *)
Definition fstat_size : M stream Z := fun s => (Ret (src_size (content s)), s).

(** ** [Xbox360ISO.check_iso] *)

(** [self.iso_type], set once in [__init__]. *)
Definition iso_type : gmap string Z :=
  {[ "GDF" := 0xfd90000; "XGD3" := 0x2080000; "XSF" := 0 ]}.

(** The two base offsets the specification names. *)
Definition GDF : Z := 0xfd90000.
Definition XGD3 : Z := 0x2080000.

Definition MAGIC : string := "MICROSOFT*XBOX*MEDIA".

(** [iso_info] is local to [check_iso] until it is returned, so a value read
    back from it ([iso_info['sector_size']], [iso_info['root_offset']], ...)
    is the value stored just before; the model names these values and stores
    them under the same keys.  In the legacy branch the source stores
    [root_offset] before it returns [False]; the dictionary is dropped there,
    and the model leaves the store out. *)
Definition check_iso : M stream dict :=
  let sector_size := 0x800 in
  let iso_info : dict := {[ "sector_size" := VInt sector_size ]} in
  let! _ := seek (0x20 * sector_size) in
  let! b := read 20 in
  if String.eqb (decode_ascii_ignore b) MAGIC then
    fail UnsupportedLegacyFormat
  else
    let! _ := seek (0x20 * sector_size + iso_type !!! "GDF") in
    let! b := read 20 in
    let! root_offset :=
      (if String.eqb (decode_ascii_ignore b) MAGIC then ret (iso_type !!! "GDF")
       else
         let! _ := seek (0x20 * sector_size + iso_type !!! "XGD3") in
         let! b := read 20 in
         if String.eqb (decode_ascii_ignore b) MAGIC then ret (iso_type !!! "XGD3")
         else fail UnknownContainerFormat) in
    let iso_info := <[ "root_offset" := VInt root_offset ]> iso_info in
    let! _ := seek (0x20 * sector_size + root_offset) in
    let! ident := read 20 in
    let iso_info := <[ "identifier" := VStr (decode_ascii_ignore ident) ]> iso_info in
    let! b := read 4 in
    let! root_dir_sector := lift (unpack_I b) in
    let iso_info := <[ "root_dir_sector" := VInt root_dir_sector ]> iso_info in
    let! b := read 4 in
    let! root_dir_size := lift (unpack_I b) in
    let iso_info := <[ "root_dir_size" := VInt root_dir_size ]> iso_info in
    let! image_size := fstat_size in
    let iso_info := <[ "image_size" := VInt image_size ]> iso_info in
    let volume_size := image_size - root_offset in
    let iso_info := <[ "volume_size" := VInt volume_size ]> iso_info in
    (* true division by the sector size 0x800: the exact quotient, which is
       also the float Python computes while volume_size is below 2^53 *)
    let iso_info := <[ "volume_sectors" := VFloat (Qmake volume_size 2048) ]> iso_info in
    ret iso_info.

(** ** [Xbox360ISO.extract_defaultxex] *)

(** [range(a, b)] *)
Definition range (a b : Z) : list Z := seqZ a (b - a).

(** A [for] loop whose body may [return]: [Some a] leaves the loop with [a],
    [None] goes on to the next index. *)
Fixpoint for_each {S A} (l : list Z) (body : Z -> M S (option A)) : M S (option A) :=
  match l with
  | [] => ret None
  | i :: r =>
      let! x := body i in
      match x with
      | Some a => ret (Some a)
      | None => for_each r body
      end
  end.

(** The function works on two streams at once: the image file and the
    buffer holding the root directory. *)
Definition on_file {A} (c : M stream A) : M (stream * stream) A :=
  fun s => let (o, f) := c (fst s) in (o, (f, snd s)).

Definition on_buffer {A} (c : M stream A) : M (stream * stream) A :=
  fun s => let (o, b) := c (snd s) in (o, (fst s, b)).

Definition with_buffer {A} (b : stream) (c : M (stream * stream) A) : M stream A :=
  fun f => let (o, s) := c (f, b) in (o, fst s).

(** The body of the loop [for i in range(0, iso_info['root_dir_size'] - 12)],
    with the two values of [iso_info] it uses. *)
Definition scan_at (root_offset sector_size : Z) (i : Z) : M (stream * stream) (option stream) :=
  let! _ := on_buffer (seek i) in
  let! _ := on_buffer (read 1) in
  let! l := on_buffer (read 1) in
  if int_from_bytes_big l =? 11 then
    let! name := on_buffer (read 11) in
    if String.eqb (lower (decode_ascii_ignore name)) "default.xex" then
      let! _ := on_buffer (seek (i - 8)) in
      let! b := on_buffer (read 4) in
      let! file_sector := lift (unpack_I b) in
      let! b := on_buffer (read 4) in
      let! file_size := lift (unpack_I b) in
      let! _ := on_file (seek (root_offset + file_sector * sector_size)) in
      let! xex := on_file (read file_size) in
      ret (Some (new_BytesIO xex))
    else ret None
  else ret None.

Definition extract_defaultxex (iso_info : dict) : M stream stream :=
  let! root_dir_sector := lift (getitem_int iso_info "root_dir_sector") in
  let! sector_size := lift (getitem_int iso_info "sector_size") in
  let! root_offset := lift (getitem_int iso_info "root_offset") in
  let! _ := seek (root_dir_sector * sector_size + root_offset) in
  let! root_dir_size := lift (getitem_int iso_info "root_dir_size") in
  let! data := read root_dir_size in
  with_buffer (new_BytesIO data)
    (let! found :=
       for_each (range 0 (root_dir_size - 12)) (scan_at root_offset sector_size) in
     match found with
     | Some xex_buffer => ret xex_buffer
     | None => fail EntryNotFound
     end).

(** ** [Xbox360ISO.extract_xex_info] *)

Definition execution_info_table_flags : bytes := [x00; x04; x00; x06].

(** The loop over the header table.  [execution_info_address] starts as
    [False] and is tested with [is not False] afterwards: [None] is that
    [False], [Some a] an integer, 0 included. *)
Fixpoint scan_table (n : nat) (execution_info_address : option Z) : M stream (option Z) :=
  match n with
  | O => ret execution_info_address
  | S n' =>
      let! b := read 4 in
      let! header_id := lift (unpack_BE b) in
      let! flags := lift (unpack_BE execution_info_table_flags) in
      if header_id =? flags then
        let! b := read 4 in
        let! a := lift (unpack_BE b) in
        scan_table n' (Some a)
      else
        let! _ := read 4 in
        scan_table n' execution_info_address
  end.

(** The decoding of the execution-info record at the current position: the
    lines of [extract_xex_info] that follow
    [xex_buffer.seek(execution_info_address)]. *)
Definition read_execution_info (xex_info : dict) : M stream dict :=
  let! b := read 4 in
  let xex_info := <[ "media_id" := VStr (upper (decode_ascii_ignore (hexlify b))) ]> xex_info in
  let! b := read 4 in
  let! version := lift (unpack_BE b) in
  let xex_info := <[ "version" := VInt version ]> xex_info in
  let! b := read 4 in
  let! base_version := lift (unpack_BE b) in
  let xex_info := <[ "base_version" := VInt base_version ]> xex_info in
  let! b := read 4 in
  let xex_info := <[ "title_id" := VStr (upper (decode_ascii_ignore (hexlify b))) ]> xex_info in
  let! b := read 1 in
  let! platform := lift (ord b) in
  let xex_info := <[ "platform" := VInt platform ]> xex_info in
  let! b := read 1 in
  let! executable_type := lift (ord b) in
  let xex_info := <[ "executable_type" := VInt executable_type ]> xex_info in
  let! b := read 1 in
  let! disc_number := lift (ord b) in
  let xex_info := <[ "disc_number" := VInt disc_number ]> xex_info in
  let! b := read 1 in
  let! disc_count := lift (ord b) in
  let xex_info := <[ "disc_count" := VInt disc_count ]> xex_info in
  ret xex_info.

Section Interpreter.

(** [sys.getsizeof] of a [BytesIO] object is the memory the interpreter holds
    for it, a number fixed by the interpreter build and the buffer it
    allocated; it is a parameter here, as a function of the buffer's
    content. *)
Variable getsizeof : source -> Z.

Definition sys_getsizeof : M stream Z := fun s => (Ret (getsizeof (content s)), s).

Definition extract_xex_info : M stream dict :=
  let xex_info : dict := ∅ in
  let! _ := seek 0 in
  let! b := read 4 in
  if String.eqb (decode_ascii_ignore b) "XEX2" then
    let! _ := seek 0x08 in
    let! b := read 4 in
    let! code_offset := lift (unpack_BE b) in
    let! size := sys_getsizeof in
    if code_offset >? size then fail CodeOffsetBeyondSize
    else
      let! _ := seek 0x10 in
      let! b := read 4 in
      let! cert_offset := lift (unpack_BE b) in
      if cert_offset >? code_offset then fail CertOffsetInvalid
      else
        let! _ := seek 0x14 in
        let! b := read 4 in
        let! info_table_num_entries := lift (unpack_BE b) in
        if info_table_num_entries * 8 + 24 >? code_offset then fail HeaderTableOverflow
        else
          let! execution_info_address :=
            scan_table (Z.to_nat info_table_num_entries) None in
          match execution_info_address with
          | Some a =>
              let! _ := seek a in
              read_execution_info xex_info
          | None => fail ExecutionInfoNotFound
          end
  else fail BadMagic.

(** ** [Xbox360ISO.parse]

    [game_lookup] is the dictionary [load_game_lookup] built from the CSV
    file; [fs] gives the content of the files that can be opened. *)
Definition parse_try (game_lookup : gmap string string) (fs : gmap string source)
    (filename : string) : outcome (option dict) :=
  match fs !! filename with
  | None => Raise OSError
  | Some c =>
      match check_iso (open_file c) with
      | (Raise e, _) => Raise e
      | (Fail _, _) => Ret None
      | (Ret iso_info, iso_file) =>
          match extract_defaultxex iso_info iso_file with
          | (Raise e, _) => Raise e
          | (Fail _, _) => Ret None
          | (Ret xex_buffer, _) =>
              match extract_xex_info xex_buffer with
              | (Raise e, _) => Raise e
              | (Fail _, _) => Ret None
              | (Ret xex_info, _) =>
                  let title_id := default (VStr "Unknown") (xex_info !! "title_id") in
                  let game_name :=
                    default "Unknown"
                      (match title_id with
                       | VStr t => game_lookup !! t
                       | _ => None
                       end) in
                  let xex_info := <[ "game_name" := VStr game_name ]> xex_info in
                  (* props = iso_info.copy(); props.update(xex_info) *)
                  Ret (Some (xex_info ∪ iso_info))
              end
          end
      end
  end.

(** [try: ... except Exception as e: print(...); return None] *)
Definition parse (game_lookup : gmap string string) (fs : gmap string source)
    (filename : string) : option dict :=
  match parse_try game_lookup fs filename with
  | Ret r => r
  | Fail _ => None
  | Raise _ => None
  end.

End Interpreter.

(** ** [Xbox360ISO.load_game_lookup] *)

Section GameLookup.

(** [str.strip] and [str.upper] are the interpreter's, with its tables of
    white space and of letter case for every script; they are parameters
    here. *)
Variables (str_strip str_upper : string -> string).

(** The body of the loop over the rows the CSV reader yields. *)
Definition add_row (game_lookup : gmap string string) (row : list string) :
    gmap string string :=
  if len row >? 1 then
    match row with
    | r0 :: r1 :: _ =>
        let game_name := str_strip r0 in
        let title_id := str_upper (str_strip r1) in
        <[ title_id := game_name ]> game_lookup
    | _ => game_lookup
    end
  else game_lookup.

(** [csv] is [None] when [os.path.isfile] denies the file; otherwise it holds
    the rows the reader yielded before the file ended or an exception stopped
    the loop, which leaves the dictionary as built so far. *)
Definition load_game_lookup (csv : option (list (list string))) : gmap string string :=
  match csv with
  | None => ∅
  | Some rows => fold_left add_row rows ∅
  end.

End GameLookup.

(** ** [main]

    One run of the function, up to the report it writes: the listing of the
    current directory, the loop over the images, and the choice of the report
    name.  What is printed is left out; the lines of the report are
    [report_lines] below. *)

(** [s.endswith(suffix)] *)
Definition endswith (s suffix : string) : bool :=
  let n := String.length s in
  let m := String.length suffix in
  (m <=? n)%nat && String.eqb (substring (n - m) m s) suffix.

Section Main.

Variables (str_strip str_upper str_lower : string -> string).
Variable getsizeof : source -> Z.

(** [[f for f in os.listdir(current_dir) if f.lower().endswith('.iso')]] *)
Definition iso_files (listing : list string) : list string :=
  List.filter (fun f => endswith (str_lower f) ".iso") listing.

(** The body of the loop over the images.  [if info:] takes a dictionary
    that is not empty; [None] and the empty dictionary go to the other
    branch, which only prints. *)
Definition visit (game_lookup : gmap string string) (fs : gmap string source)
    (all_info : list dict) (iso : string) : list dict :=
  match parse getsizeof game_lookup fs iso with
  | Some info =>
      if bool_decide (info = ∅) then all_info
      else all_info ++ [<[ "iso_name" := VStr iso ]> info]
  | None => all_info
  end.

(** The loop [while os.path.isfile(filename)] that looks for a report name
    not in use, run for at most [fuel] tests; [existing] are the names of the
    files of the current directory. *)
Fixpoint free_filename (fuel : nat) (existing : gset string) (filename : string)
    (counter : Z) : option string :=
  match fuel with
  | O => None
  | S fuel' =>
      if bool_decide (filename ∈ existing) then
        free_filename fuel' existing ("GameInfo_" +:+ pretty counter +:+ ".txt") (counter + 1)
      else Some filename
  end.

(** One run of [main]: the records collected and the name of the report
    written, [None] when no report is written.  The whole is [None] when the
    search for a name runs out of fuel. *)
Definition main (fuel : nat) (csv : option (list (list string))) (listing : list string)
    (fs : gmap string source) (existing : gset string) :
    option (list dict * option string) :=
  let game_lookup := load_game_lookup str_strip str_upper csv in
  let all_info := fold_left (visit game_lookup fs) (iso_files listing) [] in
  match all_info with
  | [] => Some (all_info, None)
  | _ :: _ =>
      match free_filename fuel existing "GameInfo.txt" 1 with
      | Some filename => Some (all_info, Some filename)
      | None => None
      end
  end.

End Main.

(** ** The report

    The lines [main] writes for one record, each without its newline.  A
    value is put into an f-string as [str] renders it: an integer in decimal,
    a string as it is; the rendering of a float is the interpreter's and is a
    parameter. *)
Section Report.

Variable str_float : Q -> string.

Definition str (v : pyval) : string :=
  match v with
  | VInt n => pretty n
  | VStr s => s
  | VFloat q => str_float q
  end.

(** [info.get(key, default)] inside an f-string *)
Definition get (info : dict) (key default : string) : string :=
  match info !! key with
  | Some v => str v
  | None => default
  end.

Definition report_lines (info : dict) : list string :=
  [ "-> " +:+ get info "iso_name" "Unknown";
    "Game Name: " +:+ get info "game_name" "Unknown";
    "Media ID: " +:+ get info "media_id" "N/A";
    "Title ID: " +:+ get info "title_id" "N/A";
    "Disc Number: " +:+ get info "disc_number" "N/A" +:+ " of " +:+ get info "disc_count" "N/A";
    string_of_list_ascii (repeat "-"%char 40) ].

End Report.

(** * Vocabulary of the properties

    What the statements below speak of: values read from a buffer, the tests
    of the code as functions of the bytes, the dictionaries expected, and the
    synthetic inputs the statements are instantiated on. *)

(** The value of four bytes, least significant first and most significant
    first. *)
Definition le_val (b : bytes) : Z := fold_right (fun x acc => byte_val x + 256 * acc) 0 b.
Definition be_val (b : bytes) : Z := fold_left (fun acc x => acc * 256 + byte_val x) b 0.

(** ** Container detection *)

(** The test [check_iso] applies to the 20 bytes at sector 0x20 of a base
    offset. *)
Definition matches_magic (f : source) (base : Z) : bool :=
  String.eqb (decode_ascii_ignore (read_at f (0x20 * 0x800 + base) 20)) MAGIC.

(** The image can be probed at a base offset and read on: the 20 bytes of the
    identifier and the two 4-byte fields after it lie inside the file. *)
Definition header_present (f : source) (base : Z) : Prop :=
  0x20 * 0x800 + base + 28 <= src_size f.

(** The dictionary [check_iso] returns for an image accepted at [base]. *)
Definition iso_info_of (f : source) (base : Z) : dict :=
  let at_header := 0x20 * 0x800 + base in
  <[ "volume_sectors" := VFloat (Qmake (src_size f - base) 2048) ]>
  (<[ "volume_size" := VInt (src_size f - base) ]>
  (<[ "image_size" := VInt (src_size f) ]>
  (<[ "root_dir_size" := VInt (le_val (read_at f (at_header + 24) 4)) ]>
  (<[ "root_dir_sector" := VInt (le_val (read_at f (at_header + 20) 4)) ]>
  (<[ "identifier" := VStr (decode_ascii_ignore (read_at f at_header 20)) ]>
  (<[ "root_offset" := VInt base ]>
  {[ "sector_size" := VInt 0x800 ]})))))).

(** The reads that follow the acceptance of [base]. *)
Definition header_reads (base : Z) : list (Z * Z) :=
  [(0x20 * 0x800 + base, 20); (0x20 * 0x800 + base + 20, 4); (0x20 * 0x800 + base + 24, 4)].

(** ** Synthetic images *)

(** An image of [size] bytes that is zero outside the listed pieces, each a
    start offset with the bytes stored there. *)
Definition sparse_image (size : Z) (pieces : list (Z * bytes)) : source :=
  {| src_size := size;
     src_byte i :=
       match List.find (fun p => (fst p <=? i) && (i <? fst p + len (snd p))) pieces with
       | Some p => nth (Z.to_nat (i - fst p)) (snd p) x00
       | None => x00
       end |}.

Definition byte_of_Z (n : Z) : byte :=
  match Byte.of_N (Z.to_N (n mod 256)) with
  | Some b => b
  | None => x00
  end.

(** The four bytes of a 32-bit value, least significant first ([le32]) and
    most significant first ([be32]). *)
Definition le32 (n : Z) : bytes :=
  [byte_of_Z n; byte_of_Z (n / 256); byte_of_Z (n / 65536); byte_of_Z (n / 16777216)].
Definition be32 (n : Z) : bytes :=
  [byte_of_Z (n / 16777216); byte_of_Z (n / 65536); byte_of_Z (n / 256); byte_of_Z n].

Definition magic_bytes : bytes := list_byte_of_string MAGIC.

(** A GDF image that holds nothing but its header, one where the file ends
    right after the 20 identifier bytes, an XGD3 image, and an image with no
    identifier at all. *)
Definition image_gdf : source :=
  sparse_image (GDF + 0x10000 + 28) [(GDF + 0x10000, magic_bytes ++ le32 0x30 ++ le32 0x800)].
Definition image_gdf_cut : source :=
  sparse_image (GDF + 0x10000 + 20) [(GDF + 0x10000, magic_bytes)].
Definition image_xgd3 : source :=
  sparse_image (XGD3 + 0x10000 + 28) [(XGD3 + 0x10000, magic_bytes ++ le32 0x30 ++ le32 0x800)].
Definition image_blank : source := sparse_image 0x20000 [].

(** An image that carries the identifier at all three positions. *)
Definition image_all_three : source :=
  sparse_image (GDF + 0x10000 + 28)
    [(0x10000, magic_bytes); (XGD3 + 0x10000, magic_bytes); (GDF + 0x10000, magic_bytes)].

(** ** The executable header *)

(** The big-endian 32-bit field of a buffer at an offset. *)
Definition field_BE (buf : bytes) (off : Z) : Z :=
  be_val (take 4 (drop (Z.to_nat off) buf)).

Definition has_magic (buf : bytes) : bool :=
  String.eqb (decode_ascii_ignore (take 4 buf)) "XEX2".
Definition code_offset (buf : bytes) : Z := field_BE buf 0x08.
Definition cert_offset (buf : bytes) : Z := field_BE buf 0x10.
Definition header_entry_count (buf : bytes) : Z := field_BE buf 0x14.

Definition target_id : Z := 0x00040006.

(** The [n] records of a header table that starts at offset [p], and the
    reads a scan of them makes. *)
Fixpoint entries_from (buf : bytes) (p : Z) (n : nat) : list (Z * Z) :=
  match n with
  | O => []
  | S n' => (field_BE buf p, field_BE buf (p + 4)) :: entries_from buf (p + 8) n'
  end.

Fixpoint table_reads (p : Z) (n : nat) : list (Z * Z) :=
  match n with
  | O => []
  | S n' => (p, 4) :: (p + 4, 4) :: table_reads (p + 8) n'
  end.

Definition table_entries (buf : bytes) : list (Z * Z) :=
  entries_from buf 24 (Z.to_nat (header_entry_count buf)).

(** The value the scan ends with: that of the last record carrying the
    target id, or what it started with when there is none. *)
Definition last_target (entries : list (Z * Z)) (start : option Z) : option Z :=
  fold_left (fun acc e => if fst e =? target_id then Some (snd e) else acc) entries start.

(** What is left of [extract_xex_info] once the header has passed the
    checks: the table scan, then the decoding or the silent failure. *)
Definition scan_and_decode (n : Z) : M stream dict :=
  let! execution_info_address := scan_table (Z.to_nat n) None in
  match execution_info_address with
  | Some a => let! _ := seek a in read_execution_info ∅
  | None => fail ExecutionInfoNotFound
  end.

Definition header_reads_upto_cert : list (Z * Z) := [(0, 4); (8, 4); (16, 4)].
Definition xex_header_reads : list (Z * Z) := [(0, 4); (8, 4); (16, 4); (20, 4)].

(** Every read logged on a stream asked for bytes that lie inside its
    content. *)
Definition reads_in_bounds (s : stream) : Prop :=
  Forall (fun r => 0 <= fst r /\ 0 <= snd r /\ fst r + snd r <= src_size (content s)) (reads s).

(** A header of 24 bytes whose [code_offset] is close to 4 GB and whose
    [cert_offset] is higher still, and a header of 24 bytes that announces one
    table record and a [code_offset] of 32 although the buffer ends at 24. *)
Definition xex_far_code : bytes :=
  list_byte_of_string "XEX2" ++ [x00; x00; x00; x00] ++ be32 0xFFFFFFF0
    ++ [x00; x00; x00; x00] ++ be32 0xFFFFFFFF ++ be32 0.

Definition xex_cut_table : bytes :=
  list_byte_of_string "XEX2" ++ [x00; x00; x00; x00] ++ be32 32
    ++ [x00; x00; x00; x00] ++ be32 0 ++ be32 1.

(** A size of the form a [BytesIO] object has under CPython: the bytes of the
    content and a fixed overhead for the object and its buffer. *)
Definition getsizeof_plus (overhead : Z) (s : source) : Z := src_size s + overhead.

(** Two buffers the checks reject: 256 bytes with a certificate offset 0x200
    above a code offset 0x100, and a header with a table of two records (40
    bytes with the header) above a code offset 0x20. *)
Definition xex_high_cert : bytes :=
  list_byte_of_string "XEX2" ++ [x00; x00; x00; x00] ++ be32 0x100
    ++ [x00; x00; x00; x00] ++ be32 0x200 ++ repeat x00 236.

Definition xex_long_table : bytes :=
  list_byte_of_string "XEX2" ++ [x00; x00; x00; x00] ++ be32 0x20
    ++ [x00; x00; x00; x00] ++ be32 0x20 ++ be32 2.

(** ** Decoding the execution-info record *)

Definition byte_at (buf : bytes) (a : Z) : Z := byte_val (nth (Z.to_nat a) buf x00).

(** The four bytes at [a] as the code renders them: [hexlify], decoded and
    put in upper case. *)
Definition hex_at (buf : bytes) (a : Z) : string :=
  upper (decode_ascii_ignore (hexlify (take 4 (drop (Z.to_nat a) buf)))).

(** The dictionary decoded from the 20 bytes at [a]. *)
Definition execution_info_of (buf : bytes) (a : Z) : dict :=
  <[ "disc_count" := VInt (byte_at buf (a + 19)) ]>
  (<[ "disc_number" := VInt (byte_at buf (a + 18)) ]>
  (<[ "executable_type" := VInt (byte_at buf (a + 17)) ]>
  (<[ "platform" := VInt (byte_at buf (a + 16)) ]>
  (<[ "title_id" := VStr (hex_at buf (a + 12)) ]>
  (<[ "base_version" := VInt (field_BE buf (a + 8)) ]>
  (<[ "version" := VInt (field_BE buf (a + 4)) ]>
  (<[ "media_id" := VStr (hex_at buf a) ]> ∅))))))).

Definition info_reads (a : Z) : list (Z * Z) :=
  [(a, 4); (a + 4, 4); (a + 8, 4); (a + 12, 4);
   (a + 16, 1); (a + 17, 1); (a + 18, 1); (a + 19, 1)].

(** ** The table scan on a validated header *)

(** The buffer passes every check [extract_xex_info] makes before the
    scan. *)
Definition header_valid (getsizeof : source -> Z) (buf : bytes) : Prop :=
  has_magic buf = true /\ 24 <= len buf /\
  code_offset buf <= getsizeof (of_bytes buf) /\
  cert_offset buf <= code_offset buf /\
  header_entry_count buf * 8 + 24 <= code_offset buf.

(** The records the header announces are all inside the buffer. *)
Definition table_in_buffer (buf : bytes) : Prop :=
  24 + 8 * header_entry_count buf <= len buf.

Definition scan_reads (buf : bytes) : list (Z * Z) :=
  xex_header_reads ++ table_reads 24 (Z.to_nat (header_entry_count buf)).

(** ** The root-directory scan *)

(** The test the loop makes at scan position [i] of the directory bytes: the
    byte after position [i] is 11 and the 11 bytes that follow decode, in
    lower case, to the file name. *)
Definition entry_at (data : bytes) (i : Z) : bool :=
  (int_from_bytes_big (take 1 (drop (Z.to_nat (i + 1)) data)) =? 11) &&
  String.eqb (lower (decode_ascii_ignore (take 11 (drop (Z.to_nat (i + 2)) data))))
             "default.xex".

(** The first scan position below [root_dir_size - 12] that passes the
    test. *)
Definition first_entry (data : bytes) (root_dir_size : Z) : option Z :=
  List.find (entry_at data) (range 0 (root_dir_size - 12)).

(** The two little-endian fields in the 8 bytes before position [i]. *)
Definition data_sector (data : bytes) (i : Z) : Z :=
  le_val (take 4 (drop (Z.to_nat (i - 8)) data)).
Definition data_size (data : bytes) (i : Z) : Z :=
  le_val (take 4 (drop (Z.to_nat (i - 4)) data)).

(** What the loop keeps true of the directory buffer. *)
Definition holds (data : bytes) (b : stream) : Prop :=
  kind b = BytesIO /\ content b = of_bytes data.

(** What follows the body in [for_each] once the body has run at [i]. *)
Definition after_body (root_offset sector_size : Z) (rest : list Z) (x : option stream) :
    M (stream * stream) (option stream) :=
  match x with
  | Some a => ret (Some a)
  | None => for_each rest (scan_at root_offset sector_size)
  end.

(** ** Synthetic executables and directories *)

Record execution_info := ExecutionInfo {
  media_id : bytes;
  version : Z;
  base_version : Z;
  title_id : bytes;
  platform : byte;
  executable_type : byte;
  disc_number : byte;
  disc_count : byte
}.

(** The 20 bytes of the record, in the order the decoder reads them. *)
Definition encode_info (e : execution_info) : bytes :=
  media_id e ++ be32 (version e) ++ be32 (base_version e) ++ title_id e
    ++ [platform e; executable_type e; disc_number e; disc_count e].

(** The header of an executable with its table: magic, four bytes that are
    not read, [code_offset], four more, [cert_offset], the number of
    records, and the records. *)
Definition xex_header (co ce : Z) (table : list (Z * Z)) : bytes :=
  list_byte_of_string "XEX2" ++ [x00; x00; x00; x00] ++ be32 co
    ++ [x00; x00; x00; x00] ++ be32 ce ++ be32 (len table)
    ++ flat_map (fun e => be32 (fst e) ++ be32 (snd e)) table.

(** A directory entry as the disc format lays it out: two 16-bit subtree
    offsets, start sector, size, attribute byte, name length, name.  The scan
    matches it at the position of the attribute byte, 12 bytes in. *)
Definition dir_entry (sector size : Z) (name : string) : bytes :=
  [x00; x00; x00; x00] ++ le32 sector ++ le32 size
    ++ [x80; byte_of_Z (Z.of_nat (String.length name))] ++ list_byte_of_string name.

Definition info_a : execution_info :=
  ExecutionInfo [x12; x34; xab; xcd] 7 3 [x4d; x53; x07; xd1] x02 x01 x01 x02.
Definition info_b : execution_info :=
  ExecutionInfo [xaa; xbb; xcc; xdd] 9 1 [x41; x42; x43; x44] x00 x00 x02 x02.

(** The buffer of the specification's scenario, filled up to its code offset
    0x100: one record (0x00040006, 0x40), the execution info at 0x40. *)
Definition xex_scenario : bytes :=
  xex_header 0x100 0x20 [(target_id, 0x40)] ++ repeat x00 32
    ++ encode_info info_a ++ repeat x00 172.

(** The same header and execution info with nothing after them: 84 bytes. *)
Definition xex_scenario_short : bytes :=
  xex_header 0x100 0x20 [(target_id, 0x40)] ++ repeat x00 32 ++ encode_info info_a.

(** Two records of the target id, pointing at 0x30 and 0x48. *)
Definition xex_two_targets : bytes :=
  xex_header 0x28 0 [(target_id, 0x30); (target_id, 0x48)] ++ repeat x00 8
    ++ encode_info info_a ++ repeat x00 4 ++ encode_info info_b.

(** A record pointing at 0x30, then one with the value 0; and the same two
    records in the other order. *)
Definition xex_zero_last : bytes :=
  xex_header 0x28 0 [(target_id, 0x30); (target_id, 0)] ++ repeat x00 8
    ++ encode_info info_a.
Definition xex_zero_first : bytes :=
  xex_header 0x28 0 [(target_id, 0); (target_id, 0x30)] ++ repeat x00 8
    ++ encode_info info_a.

(** XGD3 images with the root directory in sector 0x30: a game whose
    [default.xex] is [xex_scenario] in sector 0x40; an image whose directory
    bytes begin with a length byte and the name, so that the test passes at
    position 0; an image that ends 16 bytes into the data of its entry. *)
Definition image_game : source :=
  sparse_image (XGD3 + 0x41 * 0x800)
    [(XGD3 + 0x10000, magic_bytes ++ le32 0x30 ++ le32 0x800);
     (XGD3 + 0x30 * 0x800, dir_entry 0x40 0x100 "default.xex");
     (XGD3 + 0x40 * 0x800, xex_scenario)].

Definition image_low_entry : source :=
  sparse_image (XGD3 + 0x41 * 0x800)
    [(XGD3 + 0x10000, magic_bytes ++ le32 0x30 ++ le32 0x800);
     (XGD3 + 0x30 * 0x800, [x00; x0b] ++ list_byte_of_string "default.xex")].

Definition image_short_entry : source :=
  sparse_image (XGD3 + 0x40 * 0x800 + 16)
    [(XGD3 + 0x10000, magic_bytes ++ le32 0x30 ++ le32 0x800);
     (XGD3 + 0x30 * 0x800, dir_entry 0x40 0x100 "default.xex");
     (XGD3 + 0x40 * 0x800, xex_scenario)].

(** The upper-case hexadecimal form of a byte string. *)
Definition HEX : string := "0123456789ABCDEF".

Definition hex_char (n : Z) : ascii :=
  match String.get (Z.to_nat n) HEX with
  | Some c => c
  | None => "0"%char
  end.

Fixpoint hex_upper (b : bytes) : string :=
  match b with
  | [] => EmptyString
  | x :: r => String (hex_char (byte_val x / 16)) (String (hex_char (byte_val x mod 16)) (hex_upper r))
  end.

Definition well_formed_info (e : execution_info) : Prop :=
  length (media_id e) = 4%nat /\ length (title_id e) = 4%nat /\
  0 <= version e < 2 ^ 32 /\ 0 <= base_version e < 2 ^ 32.

(** The dictionary expected for a record: the identifiers in upper-case
    hexadecimal, the versions as numbers, the four single bytes as they
    are. *)
Definition info_dict (e : execution_info) : dict :=
  <[ "disc_count" := VInt (byte_val (disc_count e)) ]>
  (<[ "disc_number" := VInt (byte_val (disc_number e)) ]>
  (<[ "executable_type" := VInt (byte_val (executable_type e)) ]>
  (<[ "platform" := VInt (byte_val (platform e)) ]>
  (<[ "title_id" := VStr (hex_upper (title_id e)) ]>
  (<[ "base_version" := VInt (base_version e) ]>
  (<[ "version" := VInt (version e) ]>
  (<[ "media_id" := VStr (hex_upper (media_id e)) ]> ∅))))))).

(** ** The whole pipeline *)

(** [check_iso] accepts the image at [base]: the legacy region does not
    match, and [base] is the first of GDF and XGD3 whose region does. *)
Definition accepted (f : source) (base : Z) : Prop :=
  matches_magic f 0 = false /\
  ((base = GDF /\ matches_magic f GDF = true) \/
   (base = XGD3 /\ matches_magic f GDF = false /\ matches_magic f XGD3 = true)).

(** The container fields expected for known values. *)
Definition container_dict (base rs rsize image_size : Z) : dict :=
  <[ "volume_sectors" := VFloat (Qmake (image_size - base) 2048) ]>
  (<[ "volume_size" := VInt (image_size - base) ]>
  (<[ "image_size" := VInt image_size ]>
  (<[ "root_dir_size" := VInt rsize ]>
  (<[ "root_dir_sector" := VInt rs ]>
  (<[ "identifier" := VStr MAGIC ]>
  (<[ "root_offset" := VInt base ]>
  {[ "sector_size" := VInt 0x800 ]})))))).

(** An image in which a container was written at [base]: nothing at the
    legacy position (and nothing at GDF when [base] is XGD3), the identifier
    and the two fields after it at sector 0x20 of [base]. *)
Definition container_written (f : source) (base rs rsize : Z) : Prop :=
  matches_magic f 0 = false /\
  (base = GDF \/ (base = XGD3 /\ matches_magic f GDF = false)) /\
  read_at f (0x20 * 0x800 + base) 20 = magic_bytes /\
  read_at f (0x20 * 0x800 + base + 20) 4 = le32 rs /\
  read_at f (0x20 * 0x800 + base + 24) 4 = le32 rsize /\
  0 <= rs < 2 ^ 32 /\ 0 <= rsize < 2 ^ 32.

(** The root directory of the image, in which the scan first passes its test
    at position [i], 8 or more, and the 8 bytes before [i] hold [sector] and
    [size]. *)
Definition entry_written (f : source) (base rs rsize i sector size : Z) : Prop :=
  let data := read_at f (rs * 0x800 + base) rsize in
  first_entry data rsize = Some i /\ 8 <= i /\
  take 4 (drop (Z.to_nat (i - 8)) data) = le32 sector /\
  take 4 (drop (Z.to_nat (i - 4)) data) = le32 size /\
  0 <= sector < 2 ^ 32 /\ 0 <= size < 2 ^ 32.

(** An executable that passes the checks, holds its table, and whose last
    record of the target id points at the 20 bytes that encode [e]. *)
Definition executable_written (getsizeof : source -> Z) (xex : bytes) (a : Z)
    (e : execution_info) : Prop :=
  header_valid getsizeof xex /\ table_in_buffer xex /\
  last_target (table_entries xex) None = Some a /\
  take 20 (drop (Z.to_nat a) xex) = encode_info e /\
  well_formed_info e.

Definition example_lookup : gmap string string := {[ "4D5307D1" := "Example Game" ]}.
Definition example_files : gmap string source := {[ "game.iso" := image_game ]}.

(** ** The result of [parse] *)

Definition container_keys : list string :=
  ["sector_size"; "root_offset"; "identifier"; "root_dir_sector"; "root_dir_size";
   "image_size"; "volume_size"; "volume_sectors"].

Definition info_keys : list string :=
  ["media_id"; "version"; "base_version"; "title_id"; "platform"; "executable_type";
   "disc_number"; "disc_count"].


(** ** Further images, buffers and tests *)

(** An image that carries the identifier at the GDF and at the XGD3
    position, with different fields after each. *)
Definition image_gdf_xgd3 : source :=
  sparse_image (GDF + 0x10000 + 28)
    [(XGD3 + 0x10000, magic_bytes ++ le32 0x10 ++ le32 0x400);
     (GDF + 0x10000, magic_bytes ++ le32 0x30 ++ le32 0x800)].

(** Whether the 28 header bytes at [base] are inside the file. *)
Definition header_present_dec (f : source) (base : Z) :
  {header_present f base} + {~ header_present f base} :=
  Z_le_dec (0x20 * 0x800 + base + 28) (src_size f).

(** A read that stays inside the 28 header bytes of one of the three
    positions [check_iso] looks at. *)
Definition in_header_region (r : Z * Z) : Prop :=
  exists base, (base = 0 \/ base = GDF \/ base = XGD3) /\
    0x20 * 0x800 + base <= fst r /\ 0 <= snd r /\ fst r + snd r <= 0x20 * 0x800 + base + 28.

(** A table of two records, neither of the target id. *)
Definition xex_no_target : bytes :=
  xex_header 0x28 0 [(0x000002FF, 0x30); (0x00010001, 0)].

(** A record announced at 0x20 in a buffer that ends 14 bytes into it. *)
Definition xex_cut_record : bytes :=
  xex_header 0x20 0 [(target_id, 0x20)] ++ take 14 (encode_info info_a).

(** A header of 40 bytes that announces three table records and a
    [code_offset] of 48: the records (0x00040006, 0) and (0x00040006, 0x14)
    are there, and the buffer ends where the third would begin. *)
Definition xex_cut_third : bytes :=
  list_byte_of_string "XEX2" ++ [x00; x00; x00; x00] ++ be32 48
    ++ [x00; x00; x00; x00] ++ be32 0 ++ be32 3
    ++ be32 target_id ++ be32 0 ++ be32 target_id ++ be32 0x14.

(** The string is made of the characters [0-9A-F]. *)
Definition is_upper_hex (s : string) : bool :=
  forallb (fun c => existsb (Ascii.eqb c) (list_ascii_of_string HEX)) (list_ascii_of_string s).

(** ** Rows of the table and names of the report *)

Section Rows.

Variables (str_strip str_upper : string -> string).

(** The entry a row stands for: the normalised id of its second field and
    the stripped name of its first, when it has two fields or more. *)
Definition row_entry (row : list string) : option (string * string) :=
  match row with
  | r0 :: r1 :: _ => Some (str_upper (str_strip r1), str_strip r0)
  | _ => None
  end.

(** The row says nothing about the id [k]. *)
Definition silent_on (k : string) (row : list string) : Prop :=
  forall v, row_entry row <> Some (k, v).

End Rows.

(** The names the search tries, in order. *)
Definition candidate (i : nat) : string :=
  match i with
  | O => "GameInfo.txt"
  | S _ => "GameInfo_" +:+ pretty (Z.of_nat i) +:+ ".txt"
  end.

(** An instance of [str.strip] for text in ASCII: the characters 9 to 13 and
    28 to 32, the white space of ASCII, are removed at both ends. *)
Definition is_ascii_space (c : ascii) : bool :=
  let n := N_of_ascii c in ((9 <=? n) && (n <=? 13) || (28 <=? n) && (n <=? 32))%N.

Fixpoint lstrip_ascii (s : string) : string :=
  match s with
  | String c r => if is_ascii_space c then lstrip_ascii r else s
  | EmptyString => EmptyString
  end.

Definition strip_ascii (s : string) : string :=
  String.rev (lstrip_ascii (String.rev (lstrip_ascii s))).

Definition example_csv : option (list (list string)) :=
  Some [["Old Name"; "4d5307d1"]; []; ["only one field"];
        [" Example Game "; " 4d5307d1"; "extra"]; ["Other"; "41424344"]].

(** The record [parse] returns for [image_game]. *)
Definition example_props (game_name : string) : dict :=
  <[ "game_name" := VStr game_name ]> (info_dict info_a)
    ∪ container_dict XGD3 0x30 0x800 (src_size image_game).

(** The record [main] keeps for an image: what [parse] returned, with the
    file name added. *)
Definition recorded (getsizeof : source -> Z) (game_lookup : gmap string string)
    (fs : gmap string source) (iso : string) : option dict :=
  (fun info => <[ "iso_name" := VStr iso ]> info) <$> parse getsizeof game_lookup fs iso.

Definition example_existing : gset string :=
  {[ "GameInfo.txt"; "GameInfo_1.txt"; "GameInfo_3.txt"; "game.iso" ]}.

(** * Properties *)

(** ** Running the monad *)

Lemma run_ret {S A B} (a : A) (k : A -> M S B) (s : S) : bind (ret a) k s = k a s.
Proof. reflexivity. Qed.

Lemma run_assoc {S A B C} (c : M S A) (k1 : A -> M S B) (k2 : B -> M S C) (s : S) :
  bind (bind c k1) k2 s = bind c (fun a => bind (k1 a) k2) s.
Proof. unfold bind. destruct (c s) as [[a | f | e] s']; reflexivity. Qed.

Lemma run_seek {B} (n : Z) (k : unit -> M stream B) (s : stream) :
  0 <= n -> bind (seek n) k s = k tt (set_pos s n).
Proof.
  intros Hn. unfold bind, seek.
  destruct (Z.ltb_spec n 0) as [Hlt | Hge]; [lia | reflexivity].
Qed.

Lemma run_read {B} (n : Z) (k : bytes -> M stream B) (s : stream) :
  0 <= n -> bind (read n) k s = k (read_at (content s) (pos s) n) (after_read s n).
Proof.
  intros Hn. unfold bind, read.
  destruct (Z.ltb_spec n (-1)); [lia | reflexivity].
Qed.

Lemma run_lift_Ret {S A B} (a : A) (k : A -> M S B) (s : S) : bind (lift (Ret a)) k s = k a s.
Proof. reflexivity. Qed.

Section StreamFields.
Variables (s : stream) (n : Z).

Lemma kind_set_pos : kind (set_pos s n) = kind s.
Proof. reflexivity. Qed.
Lemma content_set_pos : content (set_pos s n) = content s.
Proof. reflexivity. Qed.
Lemma pos_set_pos : pos (set_pos s n) = n.
Proof. reflexivity. Qed.
Lemma reads_set_pos : reads (set_pos s n) = reads s.
Proof. reflexivity. Qed.
Lemma kind_after_read : kind (after_read s n) = kind s.
Proof. reflexivity. Qed.
Lemma content_after_read : content (after_read s n) = content s.
Proof. reflexivity. Qed.
Lemma pos_after_read :
  pos (after_read s n) = pos s + len (read_at (content s) (pos s) n).
Proof. reflexivity. Qed.
Lemma reads_after_read : reads (after_read s n) = reads s ++ [(pos s, n)].
Proof. reflexivity. Qed.
End StreamFields.

Lemma content_open_file (c : source) : content (open_file c) = c.
Proof. reflexivity. Qed.
Lemma pos_open_file (c : source) : pos (open_file c) = 0.
Proof. reflexivity. Qed.
Lemma reads_open_file (c : source) : reads (open_file c) = [].
Proof. reflexivity. Qed.
Lemma content_new_BytesIO (b : bytes) : content (new_BytesIO b) = of_bytes b.
Proof. reflexivity. Qed.
Lemma pos_new_BytesIO (b : bytes) : pos (new_BytesIO b) = 0.
Proof. reflexivity. Qed.
Lemma reads_new_BytesIO (b : bytes) : reads (new_BytesIO b) = [].
Proof. reflexivity. Qed.

Create Rewrite HintDb stream.
#[export] Hint Rewrite kind_set_pos content_set_pos pos_set_pos reads_set_pos
  kind_after_read content_after_read pos_after_read reads_after_read
  content_open_file pos_open_file reads_open_file
  content_new_BytesIO pos_new_BytesIO reads_new_BytesIO : stream.

(** One step of a computation: a seek to a position known not to be
    negative, a read, or the return of a pure value. *)
Ltac step :=
  rewrite ?run_assoc;
  first [ rewrite run_seek by (unfold GDF, XGD3 in *; lia)
        | rewrite run_read by lia
        | rewrite run_lift_Ret
        | rewrite run_ret ];
  autorewrite with stream.

(** ** Reading from a source *)

Lemma length_read_at (s : source) (p n : Z) :
  0 <= n -> p + n <= src_size s -> length (read_at s p n) = Z.to_nat n.
Proof.
  intros Hn Hp. unfold read_at.
  destruct (Z.ltb_spec n 0) as [Hlt | _]; [lia |].
  rewrite length_map, length_seqZ. lia.
Qed.

Lemma len_read_at (s : source) (p n : Z) :
  0 <= n -> p + n <= src_size s -> len (read_at s p n) = n.
Proof. intros Hn Hp. unfold len. rewrite length_read_at by lia. lia. Qed.

Lemma length_read_at_le (s : source) (p n : Z) :
  0 <= n -> (length (read_at s p n) <= Z.to_nat n)%nat.
Proof.
  intros Hn. unfold read_at.
  destruct (Z.ltb_spec n 0) as [Hlt | _]; [lia |].
  rewrite length_map, length_seqZ. lia.
Qed.

Lemma unpack_I_4 (b : bytes) : length b = 4%nat -> unpack_I b = Ret (le_val b).
Proof.
  intros H. do 5 (destruct b as [| ? b]; try discriminate H).
  unfold unpack_I, le_val. simpl. f_equal. lia.
Qed.

Lemma unpack_BE_4 (b : bytes) : length b = 4%nat -> unpack_BE b = Ret (be_val b).
Proof.
  intros H. do 5 (destruct b as [| ? b]; try discriminate H).
  unfold unpack_BE, be_val. simpl. f_equal. lia.
Qed.

Lemma unpack_I_short (b : bytes) : length b <> 4%nat -> unpack_I b = Raise struct_error.
Proof.
  intros H. do 5 (destruct b as [| ? b]; try reflexivity). simpl in H. lia.
Qed.

(** ** Container detection *)

Lemma iso_type_GDF : iso_type !!! "GDF" = GDF.
Proof. reflexivity. Qed.

Lemma iso_type_XGD3 : iso_type !!! "XGD3" = XGD3.
Proof. reflexivity. Qed.

(** C1: when the 20 bytes at the legacy position (sector 0x20, base offset 0)
    decode to the magic string, [check_iso] returns the failure
    UnsupportedLegacyFormat whatever the rest of the image holds, and the only
    read it has made is that of the legacy region: the GDF and XGD3 positions
    are never probed. *)
Theorem check_iso_legacy_rejected (f : source) :
  matches_magic f 0 = true ->
  fst (check_iso (open_file f)) = Fail UnsupportedLegacyFormat /\
  reads (snd (check_iso (open_file f))) = [(0x10000, 20)].
Proof.
  intros Hm. unfold matches_magic in Hm. rewrite Z.add_0_r in Hm.
  unfold check_iso. do 2 step. rewrite Hm. split; reflexivity.
Qed.

Lemma check_iso_accept (f : source) (base : Z) (s : stream) :
  content s = f -> 0 <= base -> header_present f base ->
  exists s',
    (let! _ := seek (0x20 * 0x800 + base) in
     let! ident := read 20 in
     let iso_info : dict :=
       <[ "identifier" := VStr (decode_ascii_ignore ident) ]>
         (<[ "root_offset" := VInt base ]> {[ "sector_size" := VInt 0x800 ]}) in
     let! b := read 4 in
     let! root_dir_sector := lift (unpack_I b) in
     let iso_info := <[ "root_dir_sector" := VInt root_dir_sector ]> iso_info in
     let! b := read 4 in
     let! root_dir_size := lift (unpack_I b) in
     let iso_info := <[ "root_dir_size" := VInt root_dir_size ]> iso_info in
     let! image_size := fstat_size in
     let iso_info := <[ "image_size" := VInt image_size ]> iso_info in
     let volume_size := image_size - base in
     let iso_info := <[ "volume_size" := VInt volume_size ]> iso_info in
     let iso_info := <[ "volume_sectors" := VFloat (Qmake volume_size 2048) ]> iso_info in
     ret iso_info) s = (Ret (iso_info_of f base), s') /\
    kind s' = kind s /\ content s' = f /\
    reads s' = reads s ++ header_reads base.
Proof.
  intros Hc Hb Hp. unfold header_present in Hp.
  do 3 step. rewrite Hc. rewrite len_read_at by lia.
  rewrite unpack_I_4 by (rewrite length_read_at by lia; lia).
  do 2 step. rewrite Hc. rewrite !len_read_at by lia.
  replace (32 * 2048 + base + 20 + 4) with (0x20 * 0x800 + base + 24) by lia.
  rewrite unpack_I_4 by (rewrite length_read_at by lia; lia).
  step.
  unfold bind, fstat_size, ret. autorewrite with stream. rewrite Hc.
  eexists. split; [reflexivity |].
  autorewrite with stream. rewrite <- !app_assoc. repeat split; try done.
  rewrite Hc, !len_read_at by lia. unfold header_reads.
  replace (32 * 2048 + base + 20 + 4) with (32 * 2048 + base + 24) by lia. reflexivity.
Qed.

(** C2 (as amended): for an image whose legacy region does not match, a
    match at the GDF position only gives [root_offset = 0xFD90000], a match
    at the XGD3 position only gives [root_offset = 0x2080000], in both cases
    provided the two 4-byte fields after the identifier are inside the file;
    no match at either gives the failure UnknownContainerFormat.  The reads
    show the probe order: legacy, then GDF, then XGD3. *)
Theorem check_iso_probe_order (f : source) :
  matches_magic f 0 = false ->
  (matches_magic f GDF = true -> matches_magic f XGD3 = false ->
   header_present f GDF ->
   fst (check_iso (open_file f)) = Ret (iso_info_of f GDF) /\
   iso_info_of f GDF !! "root_offset" = Some (VInt 0xFD90000) /\
   reads (snd (check_iso (open_file f))) =
     [(0x10000, 20); (0x10000 + GDF, 20)] ++ header_reads GDF) /\
  (matches_magic f GDF = false -> matches_magic f XGD3 = true ->
   header_present f XGD3 ->
   fst (check_iso (open_file f)) = Ret (iso_info_of f XGD3) /\
   iso_info_of f XGD3 !! "root_offset" = Some (VInt 0x2080000) /\
   reads (snd (check_iso (open_file f))) =
     [(0x10000, 20); (0x10000 + GDF, 20); (0x10000 + XGD3, 20)] ++ header_reads XGD3) /\
  (matches_magic f GDF = false -> matches_magic f XGD3 = false ->
   fst (check_iso (open_file f)) = Fail UnknownContainerFormat /\
   reads (snd (check_iso (open_file f))) =
     [(0x10000, 20); (0x10000 + GDF, 20); (0x10000 + XGD3, 20)]).
Proof.
  intros H0. unfold matches_magic in *. rewrite Z.add_0_r in H0.
  split; [| split].
  all: intros Hg Hx; try intros Hp; unfold check_iso.
  all: do 2 step; rewrite H0; cbv iota; rewrite !iso_type_GDF; do 2 step; rewrite Hg;
       cbv iota.
  - step.
    destruct (check_iso_accept f GDF
                (after_read (set_pos (after_read (set_pos (open_file f) (32 * 2048)) 20)
                               (32 * 2048 + GDF)) 20))
      as (s' & Hrun & _ & _ & Hreads); [reflexivity | unfold GDF; lia | exact Hp |].
    cbv zeta in Hrun. rewrite Hrun. simpl fst. simpl snd. rewrite Hreads.
    split; [reflexivity | split; [reflexivity | reflexivity]].
  - rewrite iso_type_XGD3. do 2 step. rewrite Hx. cbv iota. step.
    destruct (check_iso_accept f XGD3
                (after_read (set_pos (after_read (set_pos (after_read
                   (set_pos (open_file f) (32 * 2048)) 20)
                               (32 * 2048 + GDF)) 20) (32 * 2048 + XGD3)) 20))
      as (s' & Hrun & _ & _ & Hreads); [reflexivity | unfold XGD3; lia | exact Hp |].
    cbv zeta in Hrun. rewrite Hrun. simpl fst. simpl snd. rewrite Hreads.
    split; [reflexivity | split; [reflexivity | reflexivity]].
  - rewrite iso_type_XGD3. do 2 step. rewrite Hx. cbv iota.
    split; reflexivity.
Qed.

Lemma check_iso_probe_order_witness :
  (fst (check_iso (open_file image_gdf)) = Ret (iso_info_of image_gdf GDF) /\
   iso_info_of image_gdf GDF !! "root_offset" = Some (VInt 0xFD90000) /\
   reads (snd (check_iso (open_file image_gdf))) =
     [(0x10000, 20); (0x10000 + GDF, 20)] ++ header_reads GDF) /\
  (fst (check_iso (open_file image_xgd3)) = Ret (iso_info_of image_xgd3 XGD3) /\
   iso_info_of image_xgd3 XGD3 !! "root_offset" = Some (VInt 0x2080000) /\
   reads (snd (check_iso (open_file image_xgd3))) =
     [(0x10000, 20); (0x10000 + GDF, 20); (0x10000 + XGD3, 20)] ++ header_reads XGD3) /\
  (fst (check_iso (open_file image_blank)) = Fail UnknownContainerFormat /\
   reads (snd (check_iso (open_file image_blank))) =
     [(0x10000, 20); (0x10000 + GDF, 20); (0x10000 + XGD3, 20)]).
Proof.
  split; [| split].
  - apply (proj1 (check_iso_probe_order image_gdf eq_refl));
      [vm_compute; reflexivity | vm_compute; reflexivity | vm_compute; discriminate].
  - apply (proj1 (proj2 (check_iso_probe_order image_xgd3 eq_refl)));
      [vm_compute; reflexivity | vm_compute; reflexivity | vm_compute; discriminate].
  - apply (proj2 (proj2 (check_iso_probe_order image_blank eq_refl)));
      vm_compute; reflexivity.
Defined.

(** The image [image_gdf_cut] matches at the GDF position only, and
    [check_iso] does not return a base offset for it: the read of
    [root_dir_sector] comes back empty and [unpack] raises [struct.error]. *)
Lemma check_iso_gdf_cut_raises :
  matches_magic image_gdf_cut 0 = false /\
  matches_magic image_gdf_cut GDF = true /\
  matches_magic image_gdf_cut XGD3 = false /\
  fst (check_iso (open_file image_gdf_cut)) = Raise struct_error.
Proof.
  split; [vm_compute; reflexivity |]. split; [vm_compute; reflexivity |].
  split; vm_compute; reflexivity.
Qed.

Lemma check_iso_legacy_rejected_witness :
  fst (check_iso (open_file image_all_three)) = Fail UnsupportedLegacyFormat /\
  reads (snd (check_iso (open_file image_all_three))) = [(0x10000, 20)].
Proof. apply check_iso_legacy_rejected. vm_compute. reflexivity. Defined.

(** ** Buffers given by their list of bytes *)

Lemma read_at_of_bytes (b : bytes) (p n : Z) :
  0 <= p -> 0 <= n ->
  read_at (of_bytes b) p n = take (Z.to_nat n) (drop (Z.to_nat p) b).
Proof.
  intros Hp Hn. unfold read_at, of_bytes. simpl.
  destruct (Z.ltb_spec n 0) as [Hlt | _]; [lia |].
  apply list_eq. intros k.
  rewrite list_lookup_fmap.
  destruct (decide (Z.of_nat k < Z.min n (len b - p))) as [Hk | Hk].
  - rewrite lookup_seqZ_lt by lia. simpl.
    rewrite lookup_take_lt by lia. rewrite lookup_drop.
    unfold len in Hk.
    destruct (lookup_lt_is_Some_2 b (Z.to_nat p + k)) as [x Hx]; [lia |].
    rewrite Hx. f_equal.
    replace (Z.to_nat (p + Z.of_nat k)) with (Z.to_nat p + k)%nat by lia.
    apply nth_lookup_Some with (d := x00) in Hx. exact Hx.
  - rewrite lookup_seqZ_ge by lia. simpl. symmetry.
    unfold len in Hk.
    destruct (decide (k < Z.to_nat n)%nat) as [Hkn | Hkn].
    + rewrite lookup_take_lt by lia. rewrite lookup_drop.
      apply lookup_ge_None_2. lia.
    + apply lookup_take_ge. lia.
Qed.

(** ** The executable header *)

(** Steps on a stream written out field by field. *)
Lemma run_seek_at {B} (k : stream_kind) (c : source) (p : Z) (r : list (Z * Z))
    (n : Z) (K : unit -> M stream B) :
  0 <= n -> bind (seek n) K (Stream k c p r) = K tt (Stream k c n r).
Proof. intros Hn. rewrite run_seek by lia. reflexivity. Qed.

Lemma run_read_at {B} (k : stream_kind) (c : source) (p : Z) (r : list (Z * Z))
    (n : Z) (K : bytes -> M stream B) :
  0 <= n -> p + n <= src_size c ->
  bind (read n) K (Stream k c p r) = K (read_at c p n) (Stream k c (p + n) (r ++ [(p, n)])).
Proof.
  intros Hn Hp. rewrite run_read by lia. unfold after_read. simpl.
  rewrite len_read_at by lia. reflexivity.
Qed.

Lemma unpack_BE_field (buf : bytes) (off : Z) :
  0 <= off -> off + 4 <= len buf ->
  unpack_BE (read_at (of_bytes buf) off 4) = Ret (field_BE buf off).
Proof.
  intros Ho Hl. rewrite read_at_of_bytes by lia.
  rewrite unpack_BE_4; [reflexivity |].
  rewrite length_take, length_drop. unfold len in Hl. lia.
Qed.

Lemma scan_table_in_bounds (buf : bytes) (n : nat) :
  forall (p : Z) (acc : option Z) (r : list (Z * Z)),
    0 <= p -> p + 8 * Z.of_nat n <= len buf ->
    scan_table n acc (Stream BytesIO (of_bytes buf) p r) =
      (Ret (last_target (entries_from buf p n) acc),
       Stream BytesIO (of_bytes buf) (p + 8 * Z.of_nat n) (r ++ table_reads p n)).
Proof.
  induction n as [| n IH]; intros p acc r Hp Hl.
  - simpl. unfold ret. rewrite Z.add_0_r, app_nil_r. reflexivity.
  - cbn [scan_table entries_from table_reads].
    rewrite run_read_at by (simpl; lia).
    rewrite unpack_BE_field by lia. rewrite run_lift_Ret.
    change (unpack_BE execution_info_table_flags) with (@Ret Z target_id).
    rewrite run_lift_Ret.
    unfold last_target. cbn [fold_left fst snd]. fold (last_target (entries_from buf (p + 8) n)).
    destruct (field_BE buf p =? target_id).
    + rewrite run_read_at by (simpl; lia).
      rewrite unpack_BE_field by lia. rewrite run_lift_Ret.
      replace (p + 4 + 4) with (p + 8) by lia. rewrite IH by lia.
      rewrite <- !app_assoc.
      replace (p + 8 + 8 * Z.of_nat n) with (p + 8 * Z.of_nat (S n)) by lia.
      reflexivity.
    + rewrite run_read_at by (simpl; lia).
      replace (p + 4 + 4) with (p + 8) by lia. rewrite IH by lia.
      rewrite <- !app_assoc.
      replace (p + 8 + 8 * Z.of_nat n) with (p + 8 * Z.of_nat (S n)) by lia.
      reflexivity.
Qed.

Section HeaderValidation.

Variable getsizeof : source -> Z.

(** The checks in the order the code makes them, for a buffer that begins
    with the magic and holds the 20 bytes up to [cert_offset]. *)
Lemma extract_xex_info_to_cert (buf : bytes) :
  has_magic buf = true -> 20 <= len buf ->
  code_offset buf <= getsizeof (of_bytes buf) ->
  cert_offset buf > code_offset buf ->
  extract_xex_info getsizeof (new_BytesIO buf) =
    (Fail CertOffsetInvalid, Stream BytesIO (of_bytes buf) 20 header_reads_upto_cert).
Proof.
  intros Hm Hl Hco Hce. unfold extract_xex_info, new_BytesIO.
  rewrite run_seek_at by lia. rewrite run_read_at by (simpl; lia).
  rewrite read_at_of_bytes by lia. change (drop (Z.to_nat 0) buf) with buf.
  change (Z.to_nat 4) with 4%nat. unfold has_magic in Hm. rewrite Hm.
  rewrite run_seek_at by lia. rewrite run_read_at by (simpl; lia).
  rewrite unpack_BE_field by lia. rewrite run_lift_Ret.
  unfold bind at 1, sys_getsizeof. cbn [content].
  fold (code_offset buf).
  destruct (Z.gtb_spec (code_offset buf) (getsizeof (of_bytes buf))) as [Hgt | _]; [lia |].
  rewrite run_seek_at by lia. rewrite run_read_at by (simpl; lia).
  rewrite unpack_BE_field by lia. rewrite run_lift_Ret.
  fold (cert_offset buf).
  destruct (Z.gtb_spec (cert_offset buf) (code_offset buf)) as [_ | Hle]; [| lia].
  reflexivity.
Qed.

Lemma extract_xex_info_header (buf : bytes) :
  has_magic buf = true -> 24 <= len buf ->
  extract_xex_info getsizeof (new_BytesIO buf) =
    if code_offset buf >? getsizeof (of_bytes buf) then
      (Fail CodeOffsetBeyondSize, Stream BytesIO (of_bytes buf) 12 [(0, 4); (8, 4)])
    else if cert_offset buf >? code_offset buf then
      (Fail CertOffsetInvalid, Stream BytesIO (of_bytes buf) 20 header_reads_upto_cert)
    else if header_entry_count buf * 8 + 24 >? code_offset buf then
      (Fail HeaderTableOverflow, Stream BytesIO (of_bytes buf) 24 xex_header_reads)
    else
      scan_and_decode (header_entry_count buf)
        (Stream BytesIO (of_bytes buf) 24 xex_header_reads).
Proof.
  intros Hm Hl. unfold extract_xex_info, new_BytesIO.
  rewrite run_seek_at by lia. rewrite run_read_at by (simpl; lia).
  rewrite read_at_of_bytes by lia. change (drop (Z.to_nat 0) buf) with buf.
  change (Z.to_nat 4) with 4%nat. unfold has_magic in Hm. rewrite Hm.
  rewrite run_seek_at by lia. rewrite run_read_at by (simpl; lia).
  rewrite unpack_BE_field by lia. rewrite run_lift_Ret.
  unfold bind at 1, sys_getsizeof. cbn [content].
  fold (code_offset buf).
  destruct (code_offset buf >? getsizeof (of_bytes buf)); [reflexivity |].
  rewrite run_seek_at by lia. rewrite run_read_at by (simpl; lia).
  rewrite unpack_BE_field by lia. rewrite run_lift_Ret.
  fold (cert_offset buf).
  destruct (cert_offset buf >? code_offset buf); [reflexivity |].
  rewrite run_seek_at by lia. rewrite run_read_at by (simpl; lia).
  rewrite unpack_BE_field by lia. rewrite run_lift_Ret.
  fold (header_entry_count buf).
  destruct (header_entry_count buf * 8 + 24 >? code_offset buf); reflexivity.
Qed.

End HeaderValidation.

(** C3 (as amended): for a buffer that begins with the magic and whose
    [code_offset] does not exceed the size [sys.getsizeof] reports for the
    buffer object, a [cert_offset] above [code_offset] is rejected with
    CertOffsetInvalid, the last read being that of [cert_offset]; otherwise a
    table of [header_entry_count * 8 + 24] bytes reaching beyond [code_offset]
    is rejected with HeaderTableOverflow.  In both cases the reads made are
    the fixed header fields, all inside the buffer. *)
Theorem header_validation_rejects (getsizeof : source -> Z) (buf : bytes) :
  has_magic buf = true ->
  code_offset buf <= getsizeof (of_bytes buf) ->
  (20 <= len buf -> cert_offset buf > code_offset buf ->
   extract_xex_info getsizeof (new_BytesIO buf) =
     (Fail CertOffsetInvalid, Stream BytesIO (of_bytes buf) 20 [(0, 4); (8, 4); (16, 4)]) /\
   reads_in_bounds (snd (extract_xex_info getsizeof (new_BytesIO buf)))) /\
  (24 <= len buf -> cert_offset buf <= code_offset buf ->
   header_entry_count buf * 8 + 24 > code_offset buf ->
   extract_xex_info getsizeof (new_BytesIO buf) =
     (Fail HeaderTableOverflow,
      Stream BytesIO (of_bytes buf) 24 [(0, 4); (8, 4); (16, 4); (20, 4)]) /\
   reads_in_bounds (snd (extract_xex_info getsizeof (new_BytesIO buf)))).
Proof.
  intros Hm Hco. split.
  - intros Hl Hce. rewrite extract_xex_info_to_cert by assumption.
    split; [reflexivity |]. unfold reads_in_bounds. simpl.
    repeat constructor; simpl; lia.
  - intros Hl Hce Hn. rewrite extract_xex_info_header by assumption.
    destruct (Z.gtb_spec (code_offset buf) (getsizeof (of_bytes buf))); [lia |].
    destruct (Z.gtb_spec (cert_offset buf) (code_offset buf)); [lia |].
    destruct (Z.gtb_spec (header_entry_count buf * 8 + 24) (code_offset buf)); [| lia].
    split; [reflexivity |]. unfold reads_in_bounds. simpl.
    repeat constructor; simpl; lia.
Qed.

(** On [xex_far_code] the certificate offset exceeds the code offset, and the
    failure is not CertOffsetInvalid: whenever the interpreter reports a size
    below [code_offset] for this 24-byte buffer, the earlier size check
    rejects it. *)
Lemma far_code_rejected_by_size_check :
  has_magic xex_far_code = true /\
  len xex_far_code = 24 /\
  cert_offset xex_far_code > code_offset xex_far_code /\
  fst (extract_xex_info (getsizeof_plus 114) (new_BytesIO xex_far_code)) =
    Fail CodeOffsetBeyondSize /\
  (forall getsizeof : source -> Z,
     getsizeof (of_bytes xex_far_code) < 0xFFFFFFF0 ->
     fst (extract_xex_info getsizeof (new_BytesIO xex_far_code)) =
       Fail CodeOffsetBeyondSize).
Proof.
  split; [reflexivity |]. split; [reflexivity |]. split; [reflexivity |].
  split; [vm_compute; reflexivity |].
  intros gs Hgs. rewrite extract_xex_info_header by reflexivity.
  change (code_offset xex_far_code) with 0xFFFFFFF0.
  destruct (Z.gtb_spec 0xFFFFFFF0 (gs (of_bytes xex_far_code))); [reflexivity | lia].
Qed.

Lemma header_validation_rejects_witness :
  (extract_xex_info (getsizeof_plus 114) (new_BytesIO xex_high_cert) =
     (Fail CertOffsetInvalid,
      Stream BytesIO (of_bytes xex_high_cert) 20 [(0, 4); (8, 4); (16, 4)]) /\
   reads_in_bounds (snd (extract_xex_info (getsizeof_plus 114) (new_BytesIO xex_high_cert)))) /\
  (extract_xex_info (getsizeof_plus 114) (new_BytesIO xex_long_table) =
     (Fail HeaderTableOverflow,
      Stream BytesIO (of_bytes xex_long_table) 24 [(0, 4); (8, 4); (16, 4); (20, 4)]) /\
   reads_in_bounds (snd (extract_xex_info (getsizeof_plus 114) (new_BytesIO xex_long_table)))).
Proof.
  split.
  - apply (proj1 (header_validation_rejects (getsizeof_plus 114) xex_high_cert eq_refl
                    ltac:(vm_compute; discriminate)));
      [vm_compute; discriminate | reflexivity].
  - apply (proj2 (header_validation_rejects (getsizeof_plus 114) xex_long_table eq_refl
                    ltac:(vm_compute; discriminate)));
      [vm_compute; discriminate | vm_compute; discriminate | reflexivity].
Defined.

(** C4 (the code at the failing input): [xex_cut_table] passes every check
    as soon as the interpreter reports at least 32 bytes for the buffer
    object, its table of one record lies beyond the 24 bytes of the buffer,
    and the scan does not visit the record: the first read of the loop comes
    back empty and [unpack] raises [struct.error]. *)
Theorem table_scan_past_end (getsizeof : source -> Z) :
  32 <= getsizeof (of_bytes xex_cut_table) ->
  has_magic xex_cut_table = true /\
  len xex_cut_table = 24 /\
  code_offset xex_cut_table = 32 /\
  cert_offset xex_cut_table = 0 /\
  header_entry_count xex_cut_table = 1 /\
  extract_xex_info getsizeof (new_BytesIO xex_cut_table) =
    (Raise struct_error,
     Stream BytesIO (of_bytes xex_cut_table) 24 [(0, 4); (8, 4); (16, 4); (20, 4); (24, 4)]).
Proof.
  intros Hgs. do 5 (split; [reflexivity |]).
  rewrite extract_xex_info_header by reflexivity.
  change (code_offset xex_cut_table) with 32.
  destruct (Z.gtb_spec 32 (getsizeof (of_bytes xex_cut_table))); [lia |].
  reflexivity.
Qed.

Lemma table_scan_past_end_witness :
  has_magic xex_cut_table = true /\
  len xex_cut_table = 24 /\
  code_offset xex_cut_table = 32 /\
  cert_offset xex_cut_table = 0 /\
  header_entry_count xex_cut_table = 1 /\
  extract_xex_info (getsizeof_plus 114) (new_BytesIO xex_cut_table) =
    (Raise struct_error,
     Stream BytesIO (of_bytes xex_cut_table) 24 [(0, 4); (8, 4); (16, 4); (20, 4); (24, 4)]).
Proof. apply (table_scan_past_end (getsizeof_plus 114)). vm_compute. discriminate. Defined.

(** ** Decoding the execution-info record *)

Lemma ord_read_at (buf : bytes) (p : Z) :
  0 <= p -> p + 1 <= len buf ->
  ord (read_at (of_bytes buf) p 1) = Ret (byte_at buf p).
Proof.
  intros Hp Hl. unfold read_at. cbn [src_size of_bytes].
  change (1 <? 0) with false. cbv iota. rewrite Z.min_l by lia.
  rewrite seqZ_cons by lia. rewrite seqZ_nil by lia. reflexivity.
Qed.

Lemma read_execution_info_at (buf : bytes) (a : Z) (r : list (Z * Z)) :
  0 <= a -> a + 20 <= len buf ->
  read_execution_info ∅ (Stream BytesIO (of_bytes buf) a r) =
    (Ret (execution_info_of buf a),
     Stream BytesIO (of_bytes buf) (a + 20) (r ++ info_reads a)).
Proof.
  intros Ha Hl. unfold read_execution_info.
  rewrite run_read_at by (simpl; lia). rewrite read_at_of_bytes by lia.
  rewrite run_read_at by (simpl; lia). rewrite unpack_BE_field by lia. rewrite run_lift_Ret.
  rewrite run_read_at by (simpl; lia). rewrite unpack_BE_field by lia. rewrite run_lift_Ret.
  rewrite run_read_at by (simpl; lia). rewrite read_at_of_bytes by lia.
  rewrite run_read_at by (simpl; lia). rewrite ord_read_at by lia. rewrite run_lift_Ret.
  rewrite run_read_at by (simpl; lia). rewrite ord_read_at by lia. rewrite run_lift_Ret.
  rewrite run_read_at by (simpl; lia). rewrite ord_read_at by lia. rewrite run_lift_Ret.
  rewrite run_read_at by (simpl; lia). rewrite ord_read_at by lia. rewrite run_lift_Ret.
  unfold ret, execution_info_of, hex_at, info_reads.
  change (Z.to_nat 4) with 4%nat.
  replace (a + 4 + 4) with (a + 8) by lia.
  replace (a + 8 + 4) with (a + 12) by lia.
  replace (a + 12 + 4) with (a + 16) by lia.
  replace (a + 16 + 1) with (a + 17) by lia.
  replace (a + 17 + 1) with (a + 18) by lia.
  replace (a + 18 + 1) with (a + 19) by lia.
  replace (a + 19 + 1) with (a + 20) by lia.
  rewrite <- !app_assoc. reflexivity.
Qed.

Lemma byte_val_nonneg (b : byte) : 0 <= byte_val b.
Proof. unfold byte_val. lia. Qed.

Lemma be_val_nonneg (b : bytes) : 0 <= be_val b.
Proof.
  unfold be_val. cut (forall acc, 0 <= acc ->
    0 <= fold_left (fun acc x => acc * 256 + byte_val x) b acc).
  { intros H. apply H. lia. }
  induction b as [| x b IH]; intros acc Hacc; simpl; [lia |].
  apply IH. pose proof (byte_val_nonneg x). lia.
Qed.

Lemma le_val_nonneg (b : bytes) : 0 <= le_val b.
Proof.
  unfold le_val. induction b as [| x b IH]; simpl; [lia |].
  pose proof (byte_val_nonneg x). lia.
Qed.

Lemma field_BE_nonneg (buf : bytes) (off : Z) : 0 <= field_BE buf off.
Proof. apply be_val_nonneg. Qed.

Lemma last_target_nonneg (entries : list (Z * Z)) :
  Forall (fun e => 0 <= snd e) entries ->
  forall acc a, (forall x, acc = Some x -> 0 <= x) ->
    last_target entries acc = Some a -> 0 <= a.
Proof.
  induction 1 as [| e l He Hl IH]; intros acc a Hacc Hlast.
  - simpl in Hlast. auto.
  - unfold last_target in Hlast. simpl in Hlast.
    apply (IH _ a) in Hlast; [exact Hlast |].
    intros x Hx. destruct (fst e =? target_id); [| auto].
    injection Hx as <-. exact He.
Qed.

Lemma last_target_no_target (entries : list (Z * Z)) (acc : option Z) :
  Forall (fun e => fst e <> target_id) entries -> last_target entries acc = acc.
Proof.
  intros H. revert acc. induction H as [| e l He Hl IH]; intros acc; [reflexivity |].
  unfold last_target. simpl.
  destruct (Z.eqb_spec (fst e) target_id); [contradiction |]. apply IH.
Qed.

Lemma last_target_last (pre post : list (Z * Z)) (a : Z) (acc : option Z) :
  Forall (fun e => fst e <> target_id) post ->
  last_target (pre ++ (target_id, a) :: post) acc = Some a.
Proof.
  intros H. unfold last_target. rewrite fold_left_app. simpl.
  apply (last_target_no_target post (Some a) H).
Qed.

(** ** The table scan on a validated header *)

Lemma entries_from_nonneg (buf : bytes) (n : nat) :
  forall p, Forall (fun e => 0 <= snd e) (entries_from buf p n).
Proof.
  induction n as [| n IH]; intros p; simpl; constructor; [apply field_BE_nonneg | apply IH].
Qed.

Lemma extract_xex_info_scanned (getsizeof : source -> Z) (buf : bytes) :
  header_valid getsizeof buf -> table_in_buffer buf ->
  extract_xex_info getsizeof (new_BytesIO buf) =
    match last_target (table_entries buf) None with
    | Some a => read_execution_info ∅ (Stream BytesIO (of_bytes buf) a (scan_reads buf))
    | None =>
        (Fail ExecutionInfoNotFound,
         Stream BytesIO (of_bytes buf) (24 + 8 * header_entry_count buf) (scan_reads buf))
    end.
Proof.
  intros (Hm & Hl & Hco & Hce & Hn) Ht. unfold table_in_buffer in Ht.
  rewrite extract_xex_info_header by assumption.
  destruct (Z.gtb_spec (code_offset buf) (getsizeof (of_bytes buf))); [lia |].
  destruct (Z.gtb_spec (cert_offset buf) (code_offset buf)); [lia |].
  destruct (Z.gtb_spec (header_entry_count buf * 8 + 24) (code_offset buf)); [lia |].
  pose proof (field_BE_nonneg buf 0x14) as Hn0. fold (header_entry_count buf) in Hn0.
  unfold scan_and_decode, bind at 1.
  rewrite scan_table_in_bounds by lia.
  rewrite Z2Nat.id by lia. fold (table_entries buf). fold (scan_reads buf).
  destruct (last_target (table_entries buf) None) as [a |] eqn:Hlast; [| reflexivity].
  rewrite run_seek_at; [reflexivity |].
  apply (last_target_nonneg (table_entries buf) (entries_from_nonneg _ _ _) None a);
    [discriminate | exact Hlast].
Qed.

(** X10: on a table that is inside the buffer the scan visits the
    [header_entry_count] records, two reads each from offset 24 on, and with
    no record of the target id the stage ends in the silent failure. *)
Lemma table_scan_no_target (getsizeof : source -> Z) (buf : bytes) :
  header_valid getsizeof buf -> table_in_buffer buf ->
  Forall (fun e => fst e <> target_id) (table_entries buf) ->
  extract_xex_info getsizeof (new_BytesIO buf) =
    (Fail ExecutionInfoNotFound,
     Stream BytesIO (of_bytes buf) (24 + 8 * header_entry_count buf) (scan_reads buf)).
Proof.
  intros Hv Ht Hno. rewrite extract_xex_info_scanned by assumption.
  rewrite last_target_no_target by assumption. reflexivity.
Qed.

(** X22: on a buffer that passes the checks and holds its table, with a
    record of the target id followed by [post] where the id does not occur,
    and at least one more record of the target id before it, the scan reads
    all [header_entry_count] records and decoding starts at the value [a] of
    that last record. *)
Theorem last_matching_record_wins (getsizeof : source -> Z) (buf : bytes)
    (pre post : list (Z * Z)) (a : Z) :
  header_valid getsizeof buf -> table_in_buffer buf ->
  table_entries buf = pre ++ (target_id, a) :: post ->
  Exists (fun e => fst e = target_id) pre ->
  Forall (fun e => fst e <> target_id) post ->
  extract_xex_info getsizeof (new_BytesIO buf) =
    read_execution_info ∅
      (Stream BytesIO (of_bytes buf) a
         (xex_header_reads ++ table_reads 24 (Z.to_nat (header_entry_count buf)))).
Proof.
  intros Hv Ht He _ Hpost. rewrite extract_xex_info_scanned by assumption.
  rewrite He, last_target_last by assumption. reflexivity.
Qed.

(** C10 (as amended): on a buffer that passes the checks and holds its
    whole table ([24 + 8 * header_entry_count] bytes or more), when the last
    record of the target id carries the value 0, the stage does not fail with
    ExecutionInfoNotFound: it decodes the 20 bytes at offset 0 of the
    buffer. *)
Theorem zero_offset_is_decoded (getsizeof : source -> Z) (buf : bytes)
    (pre post : list (Z * Z)) :
  header_valid getsizeof buf -> table_in_buffer buf ->
  table_entries buf = pre ++ (target_id, 0) :: post ->
  Forall (fun e => fst e <> target_id) post ->
  extract_xex_info getsizeof (new_BytesIO buf) =
    (Ret (execution_info_of buf 0),
     Stream BytesIO (of_bytes buf) 20 (scan_reads buf ++ info_reads 0)).
Proof.
  intros Hv Ht He Hpost. rewrite extract_xex_info_scanned by assumption.
  rewrite He, last_target_last by assumption.
  destruct Hv as (_ & Hl & _).
  rewrite read_execution_info_at by lia. reflexivity.
Qed.

(** ** The root-directory scan *)

Lemma length_string_of_list_byte (b : bytes) :
  String.length (string_of_list_byte b) = length b.
Proof.
  unfold string_of_list_byte. induction b as [| x b IH]; simpl; [reflexivity |].
  rewrite IH. reflexivity.
Qed.

Lemma length_decode_ascii_ignore (b : bytes) :
  (String.length (decode_ascii_ignore b) <= length b)%nat.
Proof.
  unfold decode_ascii_ignore. rewrite length_string_of_list_byte.
  apply List.filter_length_le.
Qed.

Lemma length_lower (s : string) : String.length (lower s) = String.length s.
Proof. induction s as [| c s IH]; simpl; [reflexivity | rewrite IH; reflexivity]. Qed.

Lemma entry_at_length (data : bytes) (i : Z) :
  0 <= i -> entry_at data i = true -> i + 13 <= len data.
Proof.
  intros Hi H. unfold entry_at in H. apply andb_true_iff in H as [_ H].
  apply String.eqb_eq in H.
  assert (Hlen : String.length (lower (decode_ascii_ignore
            (take 11 (drop (Z.to_nat (i + 2)) data)))) = 11%nat) by (rewrite H; reflexivity).
  rewrite length_lower in Hlen.
  pose proof (length_decode_ascii_ignore (take 11 (drop (Z.to_nat (i + 2)) data))) as Hle.
  rewrite length_take, length_drop in Hle. unfold len. lia.
Qed.

(** Steps of a computation on the pair of streams. *)
Lemma run_on_buffer_seek {B} (n : Z) (k : unit -> M (stream * stream) B) (f b : stream) :
  0 <= n -> bind (on_buffer (seek n)) k (f, b) = k tt (f, set_pos b n).
Proof.
  intros Hn. unfold bind, on_buffer, seek. simpl.
  destruct (Z.ltb_spec n 0); [lia | reflexivity].
Qed.

Lemma run_on_buffer_seek_neg {B} (n : Z) (k : unit -> M (stream * stream) B) (f b : stream) :
  n < 0 -> kind b = BytesIO ->
  bind (on_buffer (seek n)) k (f, b) = (Raise ValueError, (f, b)).
Proof.
  intros Hn Hk. unfold bind, on_buffer, seek. simpl.
  destruct (Z.ltb_spec n 0); [| lia]. rewrite Hk. reflexivity.
Qed.

Lemma run_on_buffer_read {B} (n : Z) (k : bytes -> M (stream * stream) B) (f b : stream) :
  0 <= n ->
  bind (on_buffer (read n)) k (f, b) = k (read_at (content b) (pos b) n) (f, after_read b n).
Proof.
  intros Hn. unfold bind, on_buffer, read. simpl.
  destruct (Z.ltb_spec n (-1)); [lia | reflexivity].
Qed.

Lemma run_on_file_seek {B} (n : Z) (k : unit -> M (stream * stream) B) (f b : stream) :
  0 <= n -> bind (on_file (seek n)) k (f, b) = k tt (set_pos f n, b).
Proof.
  intros Hn. unfold bind, on_file, seek. simpl.
  destruct (Z.ltb_spec n 0); [lia | reflexivity].
Qed.

Lemma run_on_file_read {B} (n : Z) (k : bytes -> M (stream * stream) B) (f b : stream) :
  0 <= n ->
  bind (on_file (read n)) k (f, b) = k (read_at (content f) (pos f) n) (after_read f n, b).
Proof.
  intros Hn. unfold bind, on_file, read. simpl.
  destruct (Z.ltb_spec n (-1)); [lia | reflexivity].
Qed.

Lemma read_at_past_end (c : source) (p n : Z) :
  src_size c <= p -> 0 <= n -> read_at c p n = [].
Proof.
  intros Hp Hn. unfold read_at. destruct (Z.ltb_spec n 0); [lia |].
  rewrite seqZ_nil by lia. reflexivity.
Qed.

Lemma drop_past_end (data : bytes) (n : nat) : (length data <= n)%nat -> drop n data = [].
Proof. intros H. apply drop_ge. exact H. Qed.

(** The two tests of the loop body read what [entry_at] looks at. *)
Lemma scan_at_reads (data : bytes) (i : Z) (b : stream) :
  holds data b -> 0 <= i ->
  let b1 := after_read (set_pos b i) 1 in
  let b2 := after_read b1 1 in
  read_at (content b1) (pos b1) 1 = take 1 (drop (Z.to_nat (i + 1)) data) /\
  ((int_from_bytes_big (read_at (content b1) (pos b1) 1) =? 11) = true ->
   read_at (content b2) (pos b2) 11 = take 11 (drop (Z.to_nat (i + 2)) data)).
Proof.
  intros [Hk Hc] Hi b1 b2. subst b1 b2. autorewrite with stream. rewrite Hc.
  destruct (Z.lt_ge_cases i (len data)) as [Hlt | Hge].
  - rewrite (len_read_at (of_bytes data) i 1) by (simpl; lia).
    split; [apply read_at_of_bytes; lia |].
    intros H11.
    assert (Hl : i + 2 <= len data).
    { destruct (Z.lt_ge_cases (i + 1) (len data)) as [Hlt' | Hge']; [lia |].
      rewrite read_at_past_end in H11 by (simpl; lia). discriminate H11. }
    rewrite (len_read_at (of_bytes data) (i + 1) 1) by (simpl; lia).
    replace (i + 1 + 1) with (i + 2) by lia. apply read_at_of_bytes; lia.
  - rewrite (read_at_past_end (of_bytes data) i 1) by (simpl; lia).
    change (len []) with 0. rewrite Z.add_0_r.
    rewrite (read_at_past_end (of_bytes data) i 1) by (simpl; lia).
    split.
    + rewrite drop_past_end; [reflexivity | unfold len in Hge; lia].
    + intros H11. discriminate H11.
Qed.

Lemma holds_set_pos (data : bytes) (b : stream) (n : Z) :
  holds data b -> holds data (set_pos b n).
Proof. intros [Hk Hc]. split; assumption. Qed.

Lemma holds_after_read (data : bytes) (b : stream) (n : Z) :
  holds data b -> holds data (after_read b n).
Proof. intros [Hk Hc]. split; assumption. Qed.

#[local] Hint Resolve holds_set_pos holds_after_read : core.

Section ScanAt.

Variables (root_offset sector_size : Z) (data : bytes).

Lemma scan_at_no_entry (i : Z) (f b : stream) :
  holds data b -> 0 <= i -> entry_at data i = false ->
  exists b', scan_at root_offset sector_size i (f, b) = (Ret None, (f, b')) /\ holds data b'.
Proof.
  intros Hb Hi He. unfold scan_at.
  rewrite run_on_buffer_seek by lia. rewrite !run_on_buffer_read by lia.
  destruct (scan_at_reads data i b Hb Hi) as [H1 H2]. cbv zeta in H1, H2.
  unfold entry_at in He. rewrite <- H1 in He.
  destruct (int_from_bytes_big _ =? 11) eqn:H11.
  - rewrite run_on_buffer_read by lia. rewrite H2 by reflexivity.
    simpl in He. rewrite He. eexists. split; [reflexivity | auto].
  - eexists. split; [reflexivity | auto].
Qed.

Lemma scan_at_entry_low (i : Z) (f b : stream) :
  holds data b -> 0 <= i < 8 -> entry_at data i = true ->
  exists b', scan_at root_offset sector_size i (f, b) = (Raise ValueError, (f, b')).
Proof.
  intros Hb Hi He. unfold scan_at.
  rewrite run_on_buffer_seek by lia. rewrite !run_on_buffer_read by lia.
  destruct (scan_at_reads data i b Hb (proj1 Hi)) as [H1 H2]. cbv zeta in H1, H2.
  unfold entry_at in He. rewrite <- H1 in He.
  apply andb_true_iff in He as [H11 Hname].
  rewrite H11. rewrite run_on_buffer_read by lia. rewrite H2 by exact H11. rewrite Hname.
  rewrite run_on_buffer_seek_neg; [eexists; reflexivity | lia |].
  destruct Hb as [Hk _]. exact Hk.
Qed.

Lemma scan_at_entry (i : Z) (f b : stream) :
  holds data b -> 8 <= i -> entry_at data i = true ->
  0 <= root_offset + data_sector data i * sector_size ->
  let at_entry := root_offset + data_sector data i * sector_size in
  exists b',
    scan_at root_offset sector_size i (f, b) =
      (Ret (Some (new_BytesIO (read_at (content f) at_entry (data_size data i)))),
       (after_read (set_pos f at_entry) (data_size data i), b')).
Proof.
  intros Hb Hi He Hseek at_entry. unfold scan_at.
  pose proof (entry_at_length data i ltac:(lia) He) as Hlen.
  rewrite run_on_buffer_seek by lia. rewrite !run_on_buffer_read by lia.
  destruct (scan_at_reads data i b Hb ltac:(lia)) as [H1 H2]. cbv zeta in H1, H2.
  unfold entry_at in He. rewrite <- H1 in He.
  apply andb_true_iff in He as [H11 Hname].
  rewrite H11. rewrite run_on_buffer_read by lia. rewrite H2 by exact H11. rewrite Hname.
  rewrite run_on_buffer_seek by lia. rewrite run_on_buffer_read by lia.
  autorewrite with stream. destruct Hb as [Hk Hc]. rewrite Hc.
  rewrite (read_at_of_bytes data (i - 8) 4) by lia.
  rewrite unpack_I_4 by (rewrite length_take, length_drop; unfold len in Hlen; lia).
  rewrite run_lift_Ret. rewrite run_on_buffer_read by lia. autorewrite with stream. rewrite Hc.
  rewrite (len_read_at (of_bytes data) (i - 8) 4) by (simpl; lia).
  replace (i - 8 + 4) with (i - 4) by lia.
  rewrite (read_at_of_bytes data (i - 4) 4) by lia.
  rewrite unpack_I_4 by (rewrite length_take, length_drop; unfold len in Hlen; lia).
  rewrite run_lift_Ret.
  change (Z.to_nat 4) with 4%nat. fold (data_sector data i). fold (data_size data i).
  fold at_entry. rewrite run_on_file_seek by exact Hseek.
  rewrite run_on_file_read by (unfold data_size; apply le_val_nonneg).
  autorewrite with stream. eexists. reflexivity.
Qed.

End ScanAt.

Section DirectoryScan.

Variables (root_offset sector_size : Z) (data : bytes).

(** The loop reaches the first position that passes the test, and runs the
    body there on the image as it was before the loop. *)
Lemma for_each_scan (l : list Z) :
  forall (f b : stream),
    holds data b -> Forall (fun i => 0 <= i) l ->
    match List.find (entry_at data) l with
    | None =>
        exists b', for_each l (scan_at root_offset sector_size) (f, b) = (Ret None, (f, b'))
    | Some i =>
        exists b' rest,
          holds data b' /\
          for_each l (scan_at root_offset sector_size) (f, b) =
            bind (scan_at root_offset sector_size i) (after_body root_offset sector_size rest) (f, b')
    end.
Proof.
  induction l as [| j l IH]; intros f b Hb Hl.
  - simpl. eexists. reflexivity.
  - inversion Hl as [| ? ? Hj Hl']; subst. simpl List.find.
    destruct (entry_at data j) eqn:He.
    + exists b, l. split; [exact Hb | reflexivity].
    + destruct (scan_at_no_entry root_offset sector_size data j f b Hb Hj He)
        as (b1 & Hrun & Hb1).
      specialize (IH f b1 Hb1 Hl').
      assert (Hstep : for_each (j :: l) (scan_at root_offset sector_size) (f, b) =
                      for_each l (scan_at root_offset sector_size) (f, b1)).
      { cbn [for_each]. unfold bind at 1. rewrite Hrun. reflexivity. }
      rewrite Hstep. exact IH.
Qed.

End DirectoryScan.

Lemma range_nonneg (a b : Z) : 0 <= a -> Forall (fun i => 0 <= i) (range a b).
Proof.
  intros Ha. unfold range. apply Forall_forall. intros i Hi.
  apply elem_of_seqZ in Hi. lia.
Qed.

Lemma find_range (P : Z -> bool) (a b i : Z) :
  List.find P (range a b) = Some i -> a <= i < b /\ P i = true.
Proof.
  intros H. apply List.find_some in H as [Hin HP]. split; [| exact HP].
  unfold range in Hin. rewrite <- list_elem_of_In in Hin. apply elem_of_seqZ in Hin. lia.
Qed.

(** [extract_defaultxex] on an [iso_info] that holds the four integers it
    looks up.  [data] are the bytes the read of the root directory returns,
    [f1] the image file after that read. *)
Lemma extract_defaultxex_run (iso_info : dict) (rds ss ro rsize : Z) (f : stream) :
  getitem_int iso_info "root_dir_sector" = Ret rds ->
  getitem_int iso_info "sector_size" = Ret ss ->
  getitem_int iso_info "root_offset" = Ret ro ->
  getitem_int iso_info "root_dir_size" = Ret rsize ->
  0 <= rds * ss + ro -> 0 <= rsize ->
  let data := read_at (content f) (rds * ss + ro) rsize in
  let f1 := after_read (set_pos f (rds * ss + ro)) rsize in
  match first_entry data rsize with
  | None => extract_defaultxex iso_info f = (Fail EntryNotFound, f1)
  | Some i =>
      (i < 8 -> extract_defaultxex iso_info f = (Raise ValueError, f1)) /\
      (8 <= i -> 0 <= ro + data_sector data i * ss ->
       extract_defaultxex iso_info f =
         (Ret (new_BytesIO (read_at (content f) (ro + data_sector data i * ss) (data_size data i))),
          after_read (set_pos f1 (ro + data_sector data i * ss)) (data_size data i)))
  end.
Proof.
  intros H1 H2 H3 H4 Hseek Hsize data f1.
  unfold extract_defaultxex. rewrite H1, H2, H3, H4.
  rewrite !run_lift_Ret. rewrite run_seek by lia. rewrite run_lift_Ret.
  rewrite run_read by lia.
  autorewrite with stream. fold data. fold f1.
  assert (Hb : holds data (new_BytesIO data)) by (split; reflexivity).
  pose proof (for_each_scan ro ss data (range 0 (rsize - 12)) f1 (new_BytesIO data)
                Hb (range_nonneg 0 _ ltac:(lia))) as Hscan.
  unfold first_entry.
  destruct (List.find (entry_at data) (range 0 (rsize - 12))) as [i |] eqn:Hfind.
  - destruct Hscan as (b' & rest & Hb' & Hrun).
    apply find_range in Hfind as [Hi He].
    split.
    + intros Hlow.
      destruct (scan_at_entry_low ro ss data i f1 b' Hb' ltac:(lia) He) as (b2 & Hbody).
      unfold with_buffer, bind at 1. rewrite Hrun. unfold bind at 1. rewrite Hbody.
      reflexivity.
    + intros Hhigh Hpos.
      destruct (scan_at_entry ro ss data i f1 b' Hb' Hhigh He Hpos) as (b2 & Hbody).
      unfold with_buffer, bind at 1. rewrite Hrun. unfold bind at 1. rewrite Hbody.
      cbn. autorewrite with stream. reflexivity.
  - destruct Hscan as (b' & Hrun).
    unfold with_buffer, bind at 1. rewrite Hrun. reflexivity.
Qed.

Lemma len_read_at_any (c : source) (p n : Z) :
  0 <= n -> len (read_at c p n) = Z.max 0 (Z.min n (src_size c - p)).
Proof.
  intros Hn. unfold len, read_at. destruct (Z.ltb_spec n 0); [lia |].
  rewrite length_map, length_seqZ. lia.
Qed.

(** When the first position that passes the test lies below 8, the scan
    does not return the two fields: the seek to [i - 8] is negative and raises
    [ValueError], after the single read of the root directory. *)
Lemma scan_raises_below_8 (iso_info : dict) (rds ss ro rsize : Z)
    (f : stream) (i : Z) :
  getitem_int iso_info "root_dir_sector" = Ret rds ->
  getitem_int iso_info "sector_size" = Ret ss ->
  getitem_int iso_info "root_offset" = Ret ro ->
  getitem_int iso_info "root_dir_size" = Ret rsize ->
  0 <= rds * ss + ro -> 0 <= rsize ->
  first_entry (read_at (content f) (rds * ss + ro) rsize) rsize = Some i ->
  i < 8 ->
  fst (extract_defaultxex iso_info f) = Raise ValueError /\
  reads (snd (extract_defaultxex iso_info f)) = reads f ++ [(rds * ss + ro, rsize)].
Proof.
  intros H1 H2 H3 H4 Hseek Hsize Hfirst Hi.
  pose proof (extract_defaultxex_run iso_info rds ss ro rsize f H1 H2 H3 H4 Hseek Hsize) as Hrun.
  cbv zeta in Hrun. rewrite Hfirst in Hrun. destruct Hrun as [Hlow _].
  rewrite (Hlow Hi). split; reflexivity.
Qed.

(** [first_entry] is the first scan position, counted from the start of the
    region, at which the test passes. *)
Lemma first_entry_Some (data : bytes) (rsize i : Z) :
  first_entry data rsize = Some i <->
  0 <= i < rsize - 12 /\ entry_at data i = true /\
  forall j, 0 <= j < i -> entry_at data j = false.
Proof.
  unfold first_entry, range. rewrite Z.sub_0_r.
  assert (Hgen : forall (n : nat) (m : Z),
            List.find (entry_at data) (seqZ m (Z.of_nat n)) = Some i <->
            m <= i < m + Z.of_nat n /\ entry_at data i = true /\
            forall j, m <= j < i -> entry_at data j = false).
  { induction n as [| n IH]; intros m.
    - simpl. split; [discriminate | lia].
    - rewrite seqZ_cons by lia. cbn [List.find].
      replace (Z.pred (Z.of_nat (S n))) with (Z.of_nat n) by lia.
      destruct (entry_at data m) eqn:Hm.
      + split.
        * intros [= <-]. split; [lia |]. split; [exact Hm |]. intros j Hj. lia.
        * intros (Hi & He & Hall). f_equal.
          destruct (Z.eq_dec m i) as [-> | Hne]; [reflexivity |].
          rewrite (Hall m) in Hm by lia. discriminate.
      + rewrite IH. split.
        * intros (Hi & He & Hall). split; [lia |]. split; [exact He |].
          intros j Hj. destruct (Z.eq_dec j m) as [-> | Hne]; [exact Hm |].
          apply Hall. lia.
        * intros (Hi & He & Hall). split.
          { destruct (Z.eq_dec m i) as [-> | Hne]; [congruence | lia]. }
          split; [exact He |]. intros j Hj. apply Hall. lia. }
  destruct (Z.le_gt_cases 0 (rsize - 12)) as [Hpos | Hneg].
  - rewrite <- (Z2Nat.id (rsize - 12)) at 1 by lia. rewrite Hgen.
    rewrite Z2Nat.id by lia. reflexivity.
  - rewrite seqZ_nil by lia. simpl. split; [discriminate | lia].
Qed.

(** C6 (as amended): the scan takes the positions 0, 1, ... below
    [root_dir_size - 12] in order and tests each with [entry_at]: the byte
    after the position is 11 and the 11 bytes after it spell the file name,
    letter case apart.  When no position passes, the function ends with
    EntryNotFound.  When the first position that passes is [i], 8 or more, the
    two little-endian fields in the 8 bytes before [i] are the sector and the
    size of the data the function returns. *)
Theorem directory_scan_first_entry (iso_info : dict) (rds ss ro rsize : Z) (f : stream) :
  getitem_int iso_info "root_dir_sector" = Ret rds ->
  getitem_int iso_info "sector_size" = Ret ss ->
  getitem_int iso_info "root_offset" = Ret ro ->
  getitem_int iso_info "root_dir_size" = Ret rsize ->
  0 <= rds * ss + ro -> 0 <= rsize ->
  let data := read_at (content f) (rds * ss + ro) rsize in
  match first_entry data rsize with
  | None => fst (extract_defaultxex iso_info f) = Fail EntryNotFound
  | Some i =>
      8 <= i -> 0 <= ro + data_sector data i * ss ->
      fst (extract_defaultxex iso_info f) =
        Ret (new_BytesIO
               (read_at (content f) (ro + data_sector data i * ss) (data_size data i)))
  end.
Proof.
  intros H1 H2 H3 H4 Hseek Hsize data.
  pose proof (extract_defaultxex_run iso_info rds ss ro rsize f H1 H2 H3 H4 Hseek Hsize) as Hrun.
  cbv zeta in Hrun. fold data in Hrun.
  destruct (first_entry data rsize) as [i |].
  - intros Hi Hpos. destruct Hrun as [_ Hhigh]. rewrite (Hhigh Hi Hpos). reflexivity.
  - rewrite Hrun. reflexivity.
Qed.

(** C7 (as amended): for the entry the scan finds at a position [i] of 8 or
    more, the function seeks the image to
    [root_offset + data_sector * sector_size], asks for [data_size] bytes and
    returns a buffer with what the read gave: [data_size] bytes when the image
    holds them, and the fewer bytes left in the image when it does not,
    without a failure. *)
Theorem extract_defaultxex_reads_entry (iso_info : dict) (rds ss ro rsize : Z)
    (f : stream) (i : Z) :
  getitem_int iso_info "root_dir_sector" = Ret rds ->
  getitem_int iso_info "sector_size" = Ret ss ->
  getitem_int iso_info "root_offset" = Ret ro ->
  getitem_int iso_info "root_dir_size" = Ret rsize ->
  0 <= rds * ss + ro -> 0 <= rsize ->
  let data := read_at (content f) (rds * ss + ro) rsize in
  first_entry data rsize = Some i ->
  8 <= i ->
  let at_entry := ro + data_sector data i * ss in
  0 <= at_entry ->
  let xex := read_at (content f) at_entry (data_size data i) in
  fst (extract_defaultxex iso_info f) = Ret (new_BytesIO xex) /\
  reads (snd (extract_defaultxex iso_info f)) =
    reads f ++ [(rds * ss + ro, rsize); (at_entry, data_size data i)] /\
  len xex = Z.max 0 (Z.min (data_size data i) (src_size (content f) - at_entry)).
Proof.
  intros H1 H2 H3 H4 Hseek Hsize data Hfirst Hi at_entry Hpos xex.
  pose proof (extract_defaultxex_run iso_info rds ss ro rsize f H1 H2 H3 H4 Hseek Hsize) as Hrun.
  cbv zeta in Hrun. fold data in Hrun. rewrite Hfirst in Hrun. destruct Hrun as [_ Hhigh].
  rewrite (Hhigh Hi Hpos). split; [reflexivity |]. split.
  - cbn [snd]. autorewrite with stream. rewrite <- app_assoc. reflexivity.
  - apply len_read_at_any. apply le_val_nonneg.
Qed.

(** On [image_low_entry] the test passes at position 0, and the function
    raises [ValueError] instead of returning the two fields. *)
Lemma low_entry_raises :
  let f := snd (check_iso (open_file image_low_entry)) in
  let data := read_at image_low_entry (0x30 * 0x800 + XGD3) 0x800 in
  fst (check_iso (open_file image_low_entry)) = Ret (iso_info_of image_low_entry XGD3) /\
  first_entry data 0x800 = Some 0 /\
  fst (extract_defaultxex (iso_info_of image_low_entry XGD3) f) = Raise ValueError.
Proof.
  cbv zeta. split; [vm_compute; reflexivity |]. split; [vm_compute; reflexivity |].
  apply (scan_raises_below_8 (iso_info_of image_low_entry XGD3) 0x30 0x800 XGD3 0x800
           (snd (check_iso (open_file image_low_entry))) 0);
    vm_compute; first [reflexivity | discriminate].
Qed.

Lemma directory_scan_first_entry_witness :
  (let f := snd (check_iso (open_file image_game)) in
   let data := read_at (content f) (0x30 * 0x800 + XGD3) 0x800 in
   fst (extract_defaultxex (iso_info_of image_game XGD3) f) =
     Ret (new_BytesIO (read_at (content f) (XGD3 + data_sector data 12 * 0x800)
                         (data_size data 12)))) /\
  (let f := snd (check_iso (open_file image_xgd3)) in
   fst (extract_defaultxex (iso_info_of image_xgd3 XGD3) f) = Fail EntryNotFound).
Proof.
  cbv zeta. split.
  - pose proof (directory_scan_first_entry (iso_info_of image_game XGD3) 0x30 0x800 XGD3 0x800
                  (snd (check_iso (open_file image_game)))
                  ltac:(vm_compute; reflexivity) ltac:(vm_compute; reflexivity)
                  ltac:(vm_compute; reflexivity) ltac:(vm_compute; reflexivity)
                  ltac:(vm_compute; discriminate) ltac:(vm_compute; discriminate)) as H.
    cbv zeta in H.
    replace (first_entry
               (read_at (content (snd (check_iso (open_file image_game))))
                  (0x30 * 0x800 + XGD3) 0x800) 0x800)
      with (Some 12) in H by (vm_compute; reflexivity).
    apply H; vm_compute; discriminate.
  - pose proof (directory_scan_first_entry (iso_info_of image_xgd3 XGD3) 0x30 0x800 XGD3 0x800
                  (snd (check_iso (open_file image_xgd3)))
                  ltac:(vm_compute; reflexivity) ltac:(vm_compute; reflexivity)
                  ltac:(vm_compute; reflexivity) ltac:(vm_compute; reflexivity)
                  ltac:(vm_compute; discriminate) ltac:(vm_compute; discriminate)) as H.
    cbv zeta in H.
    replace (first_entry
               (read_at (content (snd (check_iso (open_file image_xgd3))))
                  (0x30 * 0x800 + XGD3) 0x800) 0x800)
      with (@None Z) in H by (vm_compute; reflexivity).
    exact H.
Defined.

Lemma extract_defaultxex_reads_entry_witness :
  let f := snd (check_iso (open_file image_game)) in
  let data := read_at (content f) (0x30 * 0x800 + XGD3) 0x800 in
  let at_entry := XGD3 + data_sector data 12 * 0x800 in
  let xex := read_at (content f) at_entry (data_size data 12) in
  fst (extract_defaultxex (iso_info_of image_game XGD3) f) = Ret (new_BytesIO xex) /\
  reads (snd (extract_defaultxex (iso_info_of image_game XGD3) f)) =
    reads f ++ [(0x30 * 0x800 + XGD3, 0x800); (at_entry, data_size data 12)] /\
  len xex = Z.max 0 (Z.min (data_size data 12) (src_size (content f) - at_entry)).
Proof.
  cbv zeta.
  apply (extract_defaultxex_reads_entry (iso_info_of image_game XGD3) 0x30 0x800 XGD3 0x800
           (snd (check_iso (open_file image_game))) 12);
    vm_compute; first [reflexivity | discriminate].
Defined.

(** On [image_short_entry] the entry found at position 12 announces 0x100
    bytes at sector 0x40, the image holds 16 of them, and the function returns
    a buffer of those 16 bytes: no failure is raised for the short read. *)
Lemma short_entry_is_returned :
  let f := snd (check_iso (open_file image_short_entry)) in
  let data := read_at image_short_entry (0x30 * 0x800 + XGD3) 0x800 in
  fst (check_iso (open_file image_short_entry)) = Ret (iso_info_of image_short_entry XGD3) /\
  first_entry data 0x800 = Some 12 /\
  data_sector data 12 = 0x40 /\
  data_size data 12 = 0x100 /\
  fst (extract_defaultxex (iso_info_of image_short_entry XGD3) f) =
    Ret (new_BytesIO (take 16 xex_scenario)).
Proof.
  cbv zeta.
  split; [vm_compute; reflexivity |]. split; [vm_compute; reflexivity |].
  split; [vm_compute; reflexivity |]. split; vm_compute; reflexivity.
Qed.

(** ** Instances of the table scan *)

Lemma last_matching_record_wins_witness :
  extract_xex_info (getsizeof_plus 114) (new_BytesIO xex_two_targets) =
    read_execution_info ∅
      (Stream BytesIO (of_bytes xex_two_targets) 0x48
         (xex_header_reads ++ table_reads 24 (Z.to_nat (header_entry_count xex_two_targets)))).
Proof.
  apply (last_matching_record_wins (getsizeof_plus 114) xex_two_targets
           [(target_id, 0x30)] [] 0x48).
  - repeat split; vm_compute; first [reflexivity | discriminate].
  - vm_compute; discriminate.
  - reflexivity.
  - constructor. reflexivity.
  - constructor.
Defined.

(** C9 (the code at the failing input): [xex_cut_third] passes every check
    as soon as the interpreter reports at least 48 bytes for the buffer
    object, and its table holds two records of the target id, the second
    pointing at offset 0x14, where 20 bytes are there to decode.  The scan
    does not go through the three records announced and nothing is decoded:
    the read of the third record comes back empty and [unpack] raises
    [struct.error]. *)
Theorem two_targets_cut_table_raises (getsizeof : source -> Z) :
  48 <= getsizeof (of_bytes xex_cut_third) ->
  has_magic xex_cut_third = true /\
  len xex_cut_third = 40 /\
  code_offset xex_cut_third = 48 /\
  cert_offset xex_cut_third = 0 /\
  header_entry_count xex_cut_third = 3 /\
  entries_from xex_cut_third 24 2 = [(target_id, 0); (target_id, 0x14)] /\
  0x14 + 20 <= len xex_cut_third /\
  extract_xex_info getsizeof (new_BytesIO xex_cut_third) =
    (Raise struct_error,
     Stream BytesIO (of_bytes xex_cut_third) 40
       [(0, 4); (8, 4); (16, 4); (20, 4); (24, 4); (28, 4); (32, 4); (36, 4); (40, 4)]).
Proof.
  intros Hgs. do 6 (split; [reflexivity |]). split; [vm_compute; discriminate |].
  rewrite extract_xex_info_header by first [reflexivity | vm_compute; discriminate].
  change (code_offset xex_cut_third) with 48.
  destruct (Z.gtb_spec 48 (getsizeof (of_bytes xex_cut_third))); [lia |].
  reflexivity.
Qed.

Lemma two_targets_cut_table_raises_witness :
  has_magic xex_cut_third = true /\
  len xex_cut_third = 40 /\
  code_offset xex_cut_third = 48 /\
  cert_offset xex_cut_third = 0 /\
  header_entry_count xex_cut_third = 3 /\
  entries_from xex_cut_third 24 2 = [(target_id, 0); (target_id, 0x14)] /\
  0x14 + 20 <= len xex_cut_third /\
  extract_xex_info (getsizeof_plus 114) (new_BytesIO xex_cut_third) =
    (Raise struct_error,
     Stream BytesIO (of_bytes xex_cut_third) 40
       [(0, 4); (8, 4); (16, 4); (20, 4); (24, 4); (28, 4); (32, 4); (36, 4); (40, 4)]).
Proof.
  apply (two_targets_cut_table_raises (getsizeof_plus 114)). vm_compute. discriminate.
Defined.

Lemma zero_offset_is_decoded_witness :
  extract_xex_info (getsizeof_plus 114) (new_BytesIO xex_zero_last) =
    (Ret (execution_info_of xex_zero_last 0),
     Stream BytesIO (of_bytes xex_zero_last) 20 (scan_reads xex_zero_last ++ info_reads 0)).
Proof.
  apply (zero_offset_is_decoded (getsizeof_plus 114) xex_zero_last [(target_id, 0x30)] []).
  - repeat split; vm_compute; first [reflexivity | discriminate].
  - vm_compute; discriminate.
  - reflexivity.
  - constructor.
Defined.

(** [xex_zero_first] passes the checks and its table holds the record
    (0x00040006, 0), yet the record decoded is not the one at offset 0: the
    later record (0x00040006, 0x30) replaces the value, and the media id
    returned is that of the bytes at 0x30, not the hexadecimal form of the
    magic at offset 0. *)
Lemma zero_offset_overridden :
  header_valid (getsizeof_plus 114) xex_zero_first /\
  table_in_buffer xex_zero_first /\
  table_entries xex_zero_first = [(target_id, 0); (target_id, 0x30)] /\
  extract_xex_info (getsizeof_plus 114) (new_BytesIO xex_zero_first) =
    (Ret (execution_info_of xex_zero_first 0x30),
     Stream BytesIO (of_bytes xex_zero_first) (0x30 + 20)
       (scan_reads xex_zero_first ++ info_reads 0x30)) /\
  execution_info_of xex_zero_first 0x30 !! "media_id" = Some (VStr "1234ABCD") /\
  execution_info_of xex_zero_first 0 !! "media_id" = Some (VStr "58455832").
Proof.
  split; [repeat split; vm_compute; first [reflexivity | discriminate] |].
  split; [vm_compute; discriminate |].
  repeat split; vm_compute; reflexivity.
Qed.

(** ** Decoding what was encoded *)

Lemma byte_val_byte_of_Z (n : Z) : byte_val (byte_of_Z n) = n mod 256.
Proof.
  unfold byte_val, byte_of_Z.
  pose proof (Z.mod_pos_bound n 256 ltac:(lia)) as Hb.
  destruct (Byte.of_N (Z.to_N (n mod 256))) as [b |] eqn:Hof.
  - apply Byte.to_of_N in Hof. rewrite Hof. lia.
  - apply Byte.of_N_None_iff in Hof. lia.
Qed.

Lemma le_val_le32 (n : Z) : 0 <= n < 2 ^ 32 -> le_val (le32 n) = n.
Proof.
  intros Hn. unfold le_val, le32. cbn [fold_right].
  rewrite !byte_val_byte_of_Z.
  change (2 ^ 32) with 4294967296 in Hn.
  assert (H2 : n / 65536 = n / 256 / 256) by (rewrite Z.div_div by lia; reflexivity).
  assert (H3 : n / 16777216 = n / 256 / 256 / 256) by (rewrite !Z.div_div by lia; reflexivity).
  rewrite H2, H3.
  pose proof (Z.div_mod n 256 ltac:(lia)).
  pose proof (Z.div_mod (n / 256) 256 ltac:(lia)).
  pose proof (Z.div_mod (n / 256 / 256) 256 ltac:(lia)).
  assert ((n / 256 / 256 / 256) mod 256 = n / 256 / 256 / 256).
  { apply Z.mod_small. rewrite <- H3. split; [apply Z.div_pos; lia |].
    apply Z.div_lt_upper_bound; lia. }
  lia.
Qed.

Lemma be_val_be32 (n : Z) : 0 <= n < 2 ^ 32 -> be_val (be32 n) = n.
Proof.
  intros Hn. rewrite <- (le_val_le32 n Hn) at 2.
  unfold be_val, le_val, be32, le32. cbn [fold_left fold_right]. lia.
Qed.

Lemma upper_hexlify (b : bytes) : upper (decode_ascii_ignore (hexlify b)) = hex_upper b.
Proof.
  induction b as [| x b IH]; [reflexivity |].
  cbn [hex_upper]. rewrite <- IH. clear IH.
  unfold decode_ascii_ignore, hexlify, string_of_list_byte.
  cbn [flat_map app].
  generalize (flat_map (fun x0 => [hex_digit (byte_val x0 / 16); hex_digit (byte_val x0 mod 16)]) b).
  intros rest. destruct x; reflexivity.
Qed.

Lemma nth_drop_add {A} (l : list A) (n k : nat) (d : A) :
  nth (n + k) l d = nth k (drop n l) d.
Proof.
  revert l. induction n as [| n IH]; intros l; [reflexivity |].
  destruct l as [| x l]; [destruct k; reflexivity |]. simpl. apply IH.
Qed.

Lemma execution_info_round_trip (buf : bytes) (a : Z) (e : execution_info) :
  0 <= a -> take 20 (drop (Z.to_nat a) buf) = encode_info e -> well_formed_info e ->
  execution_info_of buf a = info_dict e.
Proof.
  intros Ha Henc (Hm & Ht & Hv & Hbv).
  assert (Hw : drop (Z.to_nat a) buf = encode_info e ++ drop 20 (drop (Z.to_nat a) buf)).
  { rewrite <- Henc. symmetry. apply take_drop. }
  set (rest := drop 20 (drop (Z.to_nat a) buf)) in Hw. clearbody rest.
  assert (Hdrop : forall k : Z, 0 <= k ->
            drop (Z.to_nat (a + k)) buf = drop (Z.to_nat k) (encode_info e ++ rest)).
  { intros k Hk. rewrite <- Hw, drop_drop. f_equal. lia. }
  assert (Hnth : forall k : Z, 0 <= k ->
            nth (Z.to_nat (a + k)) buf x00 = nth (Z.to_nat k) (encode_info e ++ rest) x00).
  { intros k Hk. rewrite <- Hw, <- nth_drop_add. f_equal. lia. }
  unfold execution_info_of, info_dict, hex_at, field_BE, byte_at.
  rewrite Hw.
  rewrite (Hdrop 4), (Hdrop 8), (Hdrop 12) by lia.
  rewrite (Hnth 16), (Hnth 17), (Hnth 18), (Hnth 19) by lia.
  change (Z.to_nat 4) with 4%nat. change (Z.to_nat 8) with 8%nat.
  change (Z.to_nat 12) with 12%nat. change (Z.to_nat 16) with 16%nat.
  change (Z.to_nat 17) with 17%nat. change (Z.to_nat 18) with 18%nat.
  change (Z.to_nat 19) with 19%nat.
  destruct e as [m v bv t p x dn dc]. cbn [media_id version base_version title_id
    platform executable_type disc_number disc_count] in *.
  do 5 (destruct m as [| ? m]; try discriminate Hm).
  do 5 (destruct t as [| ? t]; try discriminate Ht).
  unfold encode_info. cbn [media_id version base_version title_id
    platform executable_type disc_number disc_count].
  unfold be32. cbn [app take drop nth].
  fold (be32 v). fold (be32 bv).
  rewrite !upper_hexlify, !be_val_be32 by assumption.
  reflexivity.
Qed.

(** ** The whole pipeline *)

Lemma check_iso_accepted (f : source) (base : Z) :
  accepted f base -> header_present f base ->
  exists s', check_iso (open_file f) = (Ret (iso_info_of f base), s') /\ content s' = f.
Proof.
  intros [H0 Hbase] Hp. unfold matches_magic in *. rewrite Z.add_0_r in H0.
  unfold check_iso. do 2 step. rewrite H0. cbv iota. rewrite !iso_type_GDF, iso_type_XGD3.
  do 2 step.
  destruct Hbase as [[-> Hg] | (-> & Hg & Hx)]; rewrite Hg; cbv iota.
  - step.
    destruct (check_iso_accept f GDF
                (after_read (set_pos (after_read (set_pos (open_file f) (32 * 2048)) 20)
                               (32 * 2048 + GDF)) 20))
      as (s' & Hrun & _ & Hc & _); [reflexivity | unfold GDF; lia | exact Hp |].
    cbv zeta in Hrun. rewrite Hrun. exists s'. split; [reflexivity | exact Hc].
  - do 2 step. rewrite Hx. cbv iota. step.
    destruct (check_iso_accept f XGD3
                (after_read (set_pos (after_read (set_pos (after_read
                   (set_pos (open_file f) (32 * 2048)) 20)
                               (32 * 2048 + GDF)) 20) (32 * 2048 + XGD3)) 20))
      as (s' & Hrun & _ & Hc & _); [reflexivity | unfold XGD3; lia | exact Hp |].
    cbv zeta in Hrun. rewrite Hrun. exists s'. split; [reflexivity | exact Hc].
Qed.

Lemma getitem_iso_info_of (f : source) (base : Z) :
  getitem_int (iso_info_of f base) "root_dir_sector" =
    Ret (le_val (read_at f (0x20 * 0x800 + base + 20) 4)) /\
  getitem_int (iso_info_of f base) "sector_size" = Ret 0x800 /\
  getitem_int (iso_info_of f base) "root_offset" = Ret base /\
  getitem_int (iso_info_of f base) "root_dir_size" =
    Ret (le_val (read_at f (0x20 * 0x800 + base + 24) 4)).
Proof. repeat split. Qed.

Lemma length_read_at_inside (f : source) (p n : Z) (b : bytes) :
  read_at f p n = b -> 0 < n -> length b = Z.to_nat n -> p + n <= src_size f.
Proof.
  intros <- Hn Hl. unfold read_at in Hl. destruct (Z.ltb_spec n 0); [lia |].
  rewrite length_map, length_seqZ in Hl. lia.
Qed.

Lemma container_written_accepted (f : source) (base rs rsize : Z) :
  container_written f base rs rsize ->
  accepted f base /\ header_present f base /\
  iso_info_of f base = container_dict base rs rsize (src_size f).
Proof.
  intros (H0 & Hbase & Hid & Hrs & Hsz & Hrs_range & Hsz_range).
  assert (Hm : matches_magic f base = true).
  { unfold matches_magic. rewrite Hid. reflexivity. }
  split; [| split].
  - split; [exact H0 |]. destruct Hbase as [-> | [-> Hg]]; [left | right]; auto.
  - unfold header_present.
    pose proof (length_read_at_inside f _ 4 _ Hsz ltac:(lia) eq_refl). lia.
  - unfold iso_info_of, container_dict. cbv zeta. rewrite Hid, Hrs, Hsz.
    rewrite !le_val_le32 by assumption. reflexivity.
Qed.

Lemma extract_xex_info_written (getsizeof : source -> Z) (xex : bytes) (a : Z)
    (e : execution_info) :
  executable_written getsizeof xex a e ->
  fst (extract_xex_info getsizeof (new_BytesIO xex)) = Ret (info_dict e).
Proof.
  intros (Hv & Ht & Hlast & Henc & Hwf).
  rewrite extract_xex_info_scanned by assumption. rewrite Hlast.
  assert (Ha : 0 <= a).
  { apply (last_target_nonneg (table_entries xex) (entries_from_nonneg _ _ _) None a);
      [discriminate | exact Hlast]. }
  assert (Hl : a + 20 <= len xex).
  { assert (Hlen : length (take 20 (drop (Z.to_nat a) xex)) = 20%nat).
    { rewrite Henc. destruct Hwf as (Hm & Htid & _). unfold encode_info.
      rewrite !length_app, Hm, Htid. reflexivity. }
    rewrite length_take, length_drop in Hlen. unfold len. lia. }
  rewrite read_execution_info_at by assumption. cbn [fst].
  f_equal. apply execution_info_round_trip; assumption.
Qed.

(** C5 (as amended): for an image in which a container, a directory entry
    for [default.xex] and an executable were written with known values, the
    executable passing the checks of [extract_xex_info], the size check
    against [sys.getsizeof] included, [parse] returns exactly those values:
    the container fields, the versions, the two identifiers in upper-case
    hexadecimal, the four single bytes as written, and the game name looked up
    under the title id.  And for any buffer with the header of the
    specification's scenario, whose [code_offset] 0x100 does not exceed the
    size the interpreter reports for it, [extract_xex_info] returns a
    dictionary with title id 4D5307D1. *)
Theorem parse_round_trip (getsizeof : source -> Z) :
  (forall (game_lookup : gmap string string) (fs : gmap string source) (filename : string)
          (f : source) (base rs rsize i sector size a : Z) (e : execution_info),
     fs !! filename = Some f ->
     container_written f base rs rsize ->
     entry_written f base rs rsize i sector size ->
     executable_written getsizeof (read_at f (base + sector * 0x800) size) a e ->
     parse getsizeof game_lookup fs filename =
       Some (<[ "game_name" :=
                  VStr (default "Unknown" (game_lookup !! hex_upper (title_id e))) ]>
               (info_dict e)
             ∪ container_dict base rs rsize (src_size f))) /\
  (forall buf : bytes,
     has_magic buf = true ->
     code_offset buf = 0x100 -> cert_offset buf = 0x20 ->
     header_entry_count buf = 1 ->
     table_entries buf = [(target_id, 0x40)] ->
     0x40 + 20 <= len buf ->
     take 4 (drop (Z.to_nat (0x40 + 12)) buf) = [x4d; x53; x07; xd1] ->
     0x100 <= getsizeof (of_bytes buf) ->
     exists d,
       fst (extract_xex_info getsizeof (new_BytesIO buf)) = Ret d /\
       d !! "title_id" = Some (VStr "4D5307D1")).
Proof.
  split.
  - intros gl fs name f base rs rsize i sector size a e Hfs Hc He Hx.
    destruct (container_written_accepted f base rs rsize Hc) as (Hacc & Hp & Hinfo).
    destruct (check_iso_accepted f base Hacc Hp) as (s1 & Hcheck & Hs1).
    destruct (getitem_iso_info_of f base) as (G1 & G2 & G3 & G4).
    destruct Hc as (_ & Hbase & _ & Hrs & Hsz & Hrs_range & Hsz_range).
    rewrite Hrs, le_val_le32 in G1 by assumption.
    rewrite Hsz, le_val_le32 in G4 by assumption.
    assert (Hb0 : 0 <= base) by (destruct Hbase as [-> | [-> _]]; unfold GDF, XGD3; lia).
    destruct He as (Hfirst & Hi & Hsec & Hsize & Hsec_range & Hsize_range).
    pose proof (extract_defaultxex_run (iso_info_of f base) rs 0x800 base rsize s1
                  G1 G2 G3 G4 ltac:(lia) ltac:(lia)) as Hrun.
    cbv zeta in Hrun. rewrite Hs1 in Hrun. rewrite Hfirst in Hrun.
    destruct Hrun as [_ Hrun].
    unfold data_sector, data_size in Hrun. rewrite Hsec, Hsize in Hrun.
    rewrite !le_val_le32 in Hrun by assumption.
    specialize (Hrun Hi ltac:(lia)).
    pose proof (extract_xex_info_written getsizeof _ a e Hx) as Hxex.
    unfold parse, parse_try. rewrite Hfs, Hcheck, Hrun.
    destruct (extract_xex_info getsizeof
                (new_BytesIO (read_at f (base + sector * 2048) size))) as [o s3].
    cbn [fst] in Hxex. subst o. rewrite Hinfo. reflexivity.
  - intros buf Hm Hco Hce Hn Htab Hl Htid Hgs.
    assert (Hv : header_valid getsizeof buf).
    { unfold header_valid. rewrite Hco, Hce, Hn. repeat split; try assumption; lia. }
    assert (Ht : table_in_buffer buf).
    { unfold table_in_buffer. rewrite Hn. lia. }
    rewrite extract_xex_info_scanned by assumption. rewrite Htab.
    change (last_target [(target_id, 64)] None) with (Some 64). cbv beta iota.
    rewrite read_execution_info_at by lia.
    eexists. split; [reflexivity |].
    unfold execution_info_of, hex_at. rewrite Htid. reflexivity.
Qed.

(** The instance: [image_game] holds the scenario's buffer as its
    [default.xex], and the interpreter reports 114 bytes more than the
    content. *)
Lemma parse_round_trip_witness :
  parse (getsizeof_plus 114) example_lookup example_files "game.iso" =
    Some (<[ "game_name" :=
               VStr (default "Unknown" (example_lookup !! hex_upper (title_id info_a))) ]>
            (info_dict info_a)
          ∪ container_dict XGD3 0x30 0x800 (src_size image_game)) /\
  hex_upper (title_id info_a) = "4D5307D1" /\
  example_lookup !! hex_upper (title_id info_a) = Some "Example Game" /\
  exists d,
    fst (extract_xex_info (getsizeof_plus 114) (new_BytesIO xex_scenario)) = Ret d /\
    d !! "title_id" = Some (VStr "4D5307D1").
Proof.
  split; [| split; [reflexivity | split; [reflexivity |]]].
  - apply (proj1 (parse_round_trip (getsizeof_plus 114)) example_lookup example_files
             "game.iso" image_game XGD3 0x30 0x800 12 0x40 0x100 0x40 info_a).
    + reflexivity.
    + repeat split; try (vm_compute; first [reflexivity | discriminate]).
      right. split; vm_compute; reflexivity.
    + repeat split; vm_compute; first [reflexivity | discriminate].
    + repeat split; vm_compute; first [reflexivity | discriminate].
  - apply (proj2 (parse_round_trip (getsizeof_plus 114)) xex_scenario);
      vm_compute; first [reflexivity | discriminate].
Defined.

(** [xex_scenario_short] has every field of the scenario, and the parser
    returns no title id for it: its 84 bytes are fewer than the code offset
    0x100, and whenever the interpreter reports a size below 0x100 for the
    buffer object the size check rejects it. *)
Lemma scenario_short_rejected :
  has_magic xex_scenario_short = true /\
  code_offset xex_scenario_short = 0x100 /\
  cert_offset xex_scenario_short = 0x20 /\
  header_entry_count xex_scenario_short = 1 /\
  table_entries xex_scenario_short = [(target_id, 0x40)] /\
  len xex_scenario_short = 0x40 + 20 /\
  take 4 (drop (Z.to_nat (0x40 + 12)) xex_scenario_short) = [x4d; x53; x07; xd1] /\
  fst (extract_xex_info (getsizeof_plus 114) (new_BytesIO xex_scenario_short)) =
    Fail CodeOffsetBeyondSize /\
  (forall getsizeof : source -> Z,
     getsizeof (of_bytes xex_scenario_short) < 0x100 ->
     fst (extract_xex_info getsizeof (new_BytesIO xex_scenario_short)) =
       Fail CodeOffsetBeyondSize).
Proof.
  do 7 (split; [vm_compute; reflexivity |]).
  split; [vm_compute; reflexivity |].
  intros gs Hgs.
  rewrite extract_xex_info_header by first [reflexivity | vm_compute; discriminate].
  change (code_offset xex_scenario_short) with 0x100.
  destruct (Z.gtb_spec 0x100 (gs (of_bytes xex_scenario_short))); [reflexivity | lia].
Qed.

(** ** The result of [parse] *)






(** ** The comparison with the magic string *)

Lemma filter_length_eq {A} (p : A -> bool) (l : list A) :
  length (List.filter p l) = length l -> List.filter p l = l.
Proof.
  induction l as [| x l IH]; [reflexivity |]. simpl.
  pose proof (List.filter_length_le p l) as Hle.
  destruct (p x); simpl; intros H; [f_equal; apply IH; lia | lia].
Qed.

(** The comparison of the decoded region with the magic string holds exactly
    when the 20 bytes read are the 20 bytes of the magic string. *)
Lemma matches_magic_bytes (f : source) (base : Z) :
  matches_magic f base = true <-> read_at f (0x20 * 0x800 + base) 20 = magic_bytes.
Proof.
  unfold matches_magic. rewrite String.eqb_eq. split.
  - intros H. set (b := read_at f (32 * 2048 + base) 20) in *.
    pose proof (length_read_at_le f (32 * 2048 + base) 20 ltac:(lia)) as Hle. fold b in Hle.
    assert (Hlen : length (List.filter is_ascii b) = 20%nat).
    { rewrite <- length_string_of_list_byte. fold (decode_ascii_ignore b). rewrite H.
      reflexivity. }
    pose proof (List.filter_length_le is_ascii b) as Hfl.
    assert (Hfb : List.filter is_ascii b = b) by (apply filter_length_eq; lia).
    unfold decode_ascii_ignore in H. rewrite Hfb in H.
    unfold magic_bytes. rewrite <- H. symmetry. apply list_byte_of_string_of_list_byte.
  - intros ->. reflexivity.
Qed.

Lemma length_read_at_short (f : source) (p n : Z) :
  0 < n -> src_size f < p + n -> length (read_at f p n) <> Z.to_nat n.
Proof.
  intros Hn Hp. unfold read_at. destruct (Z.ltb_spec n 0); [lia |].
  rewrite length_map, length_seqZ. lia.
Qed.

(** When the image is accepted at [base] and ends before the two fields that
    follow the identifier, [check_iso] raises [struct.error]. *)
Lemma check_iso_cut_raises (f : source) (base : Z) :
  accepted f base -> ~ header_present f base ->
  fst (check_iso (open_file f)) = Raise struct_error.
Proof.
  intros [H0 Hbase] Hp. unfold header_present in Hp.
  assert (Hb0 : 0 <= base).
  { destruct Hbase as [[-> _] | (-> & _)]; unfold GDF, XGD3; lia. }
  assert (Hm : matches_magic f base = true).
  { destruct Hbase as [[-> Hg] | (-> & _ & Hx)]; assumption. }
  pose proof (proj1 (matches_magic_bytes f base) Hm) as Hid.
  assert (Hrest : forall s, content s = f ->
    fst ((let! _ := seek (0x20 * 0x800 + base) in
          let! ident := read 20 in
          let! b := read 4 in
          let! root_dir_sector := lift (unpack_I b) in
          let! b := read 4 in
          let! root_dir_size := lift (unpack_I b) in
          let! image_size := fstat_size in
          ret (<[ "volume_sectors" := VFloat (Qmake (image_size - base) 2048) ]>
               (<[ "volume_size" := VInt (image_size - base) ]>
               (<[ "image_size" := VInt image_size ]>
               (<[ "root_dir_size" := VInt root_dir_size ]>
               (<[ "root_dir_sector" := VInt root_dir_sector ]>
               (<[ "identifier" := VStr (decode_ascii_ignore ident) ]>
               (<[ "root_offset" := VInt base ]>
               ({[ "sector_size" := VInt 0x800 ]} : dict))))))))) s) = Raise struct_error).
  { intros s Hc. do 3 step. rewrite Hc, Hid. change (len magic_bytes) with 20.
    destruct (Z.le_gt_cases (32 * 2048 + base + 24) (src_size f)) as [Hle | Hgt].
    - rewrite unpack_I_4 by (rewrite length_read_at by lia; lia).
      do 2 step. rewrite Hc. rewrite !len_read_at by lia.
      rewrite unpack_I_short; [reflexivity |].
      apply length_read_at_short; lia.
    - rewrite unpack_I_short; [reflexivity |].
      apply length_read_at_short; lia. }
  unfold matches_magic in *. rewrite Z.add_0_r in H0.
  unfold check_iso. do 2 step. rewrite H0. cbv iota. rewrite !iso_type_GDF, iso_type_XGD3.
  do 2 step.
  destruct Hbase as [[-> Hg] | (-> & Hg & Hx)]; rewrite Hg; cbv iota.
  - step. apply Hrest. reflexivity.
  - do 2 step. rewrite Hx. cbv iota. step. apply Hrest. reflexivity.
Qed.

(** ** Container detection: every outcome *)

Lemma run_lift_Raise {S A B} (e : exn) (k : A -> M S B) (s : S) :
  bind (lift (Raise e)) k s = (Raise e, s).
Proof. reflexivity. Qed.

Lemma run_lift_Fail {S A B} (x : failure) (k : A -> M S B) (s : S) :
  bind (lift (Fail x)) k s = (Fail x, s).
Proof. reflexivity. Qed.

Lemma check_iso_legacy (f : source) :
  matches_magic f 0 = true ->
  check_iso (open_file f) =
    (Fail UnsupportedLegacyFormat, after_read (set_pos (open_file f) 0x10000) 20).
Proof.
  intros Hm. unfold matches_magic in Hm. rewrite Z.add_0_r in Hm.
  unfold check_iso. do 2 step. rewrite Hm. reflexivity.
Qed.

Lemma check_iso_unknown (f : source) :
  matches_magic f 0 = false -> matches_magic f GDF = false -> matches_magic f XGD3 = false ->
  fst (check_iso (open_file f)) = Fail UnknownContainerFormat.
Proof.
  intros H0 Hg Hx. unfold matches_magic in *. rewrite Z.add_0_r in H0.
  unfold check_iso. do 2 step. rewrite H0. cbv iota. rewrite !iso_type_GDF, iso_type_XGD3.
  do 2 step. rewrite Hg. cbv iota. do 2 step. rewrite Hx. reflexivity.
Qed.

Lemma accepted_cases (f : source) :
  matches_magic f 0 = true \/
  accepted f GDF \/ accepted f XGD3 \/
  (matches_magic f 0 = false /\ matches_magic f GDF = false /\ matches_magic f XGD3 = false).
Proof.
  unfold accepted.
  destruct (matches_magic f 0); [left; reflexivity | right].
  destruct (matches_magic f GDF); [left; auto |].
  destruct (matches_magic f XGD3); [right; left | right; right]; auto 10.
Qed.

Lemma check_iso_returns (f : source) (d : dict) (s' : stream) :
  check_iso (open_file f) = (Ret d, s') ->
  exists base, accepted f base /\ header_present f base /\ d = iso_info_of f base /\
               content s' = f.
Proof.
  intros H.
  destruct (accepted_cases f) as [H0 | [Ha | [Ha | (H0 & Hg & Hx)]]].
  - rewrite check_iso_legacy in H by exact H0. discriminate H.
  - destruct (header_present_dec f GDF) as [Hp | Hp].
    + destruct (check_iso_accepted f GDF Ha Hp) as (s1 & Hrun & Hc).
      rewrite Hrun in H. injection H as <- <-. exists GDF. auto.
    + pose proof (check_iso_cut_raises f GDF Ha Hp) as Hr. rewrite H in Hr. discriminate Hr.
  - destruct (header_present_dec f XGD3) as [Hp | Hp].
    + destruct (check_iso_accepted f XGD3 Ha Hp) as (s1 & Hrun & Hc).
      rewrite Hrun in H. injection H as <- <-. exists XGD3. auto.
    + pose proof (check_iso_cut_raises f XGD3 Ha Hp) as Hr. rewrite H in Hr. discriminate Hr.
  - pose proof (check_iso_unknown f H0 Hg Hx) as Hr. rewrite H in Hr. discriminate Hr.
Qed.

Lemma le_val_4_bound (b : bytes) : length b = 4%nat -> 0 <= le_val b < 2 ^ 32.
Proof.
  intros H. do 5 (destruct b as [| ? b]; try discriminate H).
  unfold le_val. cbn [fold_right].
  assert (Hb : forall x : byte, 0 <= byte_val x < 256).
  { intros x. unfold byte_val. pose proof (Byte.to_N_bounded x). lia. }
  pose proof (Hb b0). pose proof (Hb b1). pose proof (Hb b2). pose proof (Hb b3). lia.
Qed.

(** X1: when the legacy region does not match and the GDF region does,
    [check_iso] takes the GDF base offset whatever the XGD3 region holds, the
    identifier included, and the XGD3 position is not read. *)
Theorem check_iso_gdf_priority (f : source) :
  matches_magic f 0 = false -> matches_magic f GDF = true -> header_present f GDF ->
  fst (check_iso (open_file f)) = Ret (iso_info_of f GDF) /\
  reads (snd (check_iso (open_file f))) =
    [(0x10000, 20); (0x10000 + GDF, 20)] ++ header_reads GDF.
Proof.
  intros H0 Hg Hp. unfold matches_magic in *. rewrite Z.add_0_r in H0.
  unfold check_iso. do 2 step. rewrite H0. cbv iota. rewrite !iso_type_GDF.
  do 2 step. rewrite Hg. cbv iota. step.
  destruct (check_iso_accept f GDF
              (after_read (set_pos (after_read (set_pos (open_file f) (32 * 2048)) 20)
                             (32 * 2048 + GDF)) 20))
    as (s' & Hrun & _ & _ & Hreads); [reflexivity | unfold GDF; lia | exact Hp |].
  cbv zeta in Hrun. rewrite Hrun. cbn [fst snd]. rewrite Hreads. split; reflexivity.
Qed.

Lemma check_iso_gdf_priority_witness :
  matches_magic image_gdf_xgd3 XGD3 = true /\
  fst (check_iso (open_file image_gdf_xgd3)) = Ret (iso_info_of image_gdf_xgd3 GDF) /\
  reads (snd (check_iso (open_file image_gdf_xgd3))) =
    [(0x10000, 20); (0x10000 + GDF, 20)] ++ header_reads GDF.
Proof.
  split; [vm_compute; reflexivity |].
  apply (check_iso_gdf_priority image_gdf_xgd3);
    [vm_compute; reflexivity | vm_compute; reflexivity | vm_compute; discriminate].
Defined.

(** X2: whenever [check_iso] returns a dictionary, [root_offset] is
    0xFD90000 or 0x2080000 (never the legacy 0), [identifier] is the magic
    string, [sector_size] is 0x800, the two directory fields are 32-bit
    values, [image_size] is the size of the file, and [volume_size] is
    [image_size - root_offset], at least the 0x1001C bytes that reach the end
    of the header. *)
Theorem check_iso_returned_record (f : source) (d : dict) :
  fst (check_iso (open_file f)) = Ret d ->
  exists root_offset root_dir_sector root_dir_size,
    (root_offset = 0xFD90000 \/ root_offset = 0x2080000) /\
    d !! "sector_size" = Some (VInt 0x800) /\
    d !! "root_offset" = Some (VInt root_offset) /\
    d !! "identifier" = Some (VStr "MICROSOFT*XBOX*MEDIA") /\
    d !! "root_dir_sector" = Some (VInt root_dir_sector) /\
    d !! "root_dir_size" = Some (VInt root_dir_size) /\
    0 <= root_dir_sector < 2 ^ 32 /\ 0 <= root_dir_size < 2 ^ 32 /\
    d !! "image_size" = Some (VInt (src_size f)) /\
    d !! "volume_size" = Some (VInt (src_size f - root_offset)) /\
    d !! "volume_sectors" = Some (VFloat (Qmake (src_size f - root_offset) 2048)) /\
    0x10000 + 28 <= src_size f - root_offset.
Proof.
  intros H. destruct (check_iso (open_file f)) as [o s'] eqn:Hrun. cbn [fst] in H. subst o.
  apply check_iso_returns in Hrun as (base & Ha & Hp & -> & Hc).
  assert (Hm : matches_magic f base = true).
  { destruct Ha as [_ [[-> Hg] | (-> & _ & Hx)]]; assumption. }
  assert (Hb : base = 0xFD90000 \/ base = 0x2080000).
  { destruct Ha as [_ [[-> _] | (-> & _)]]; [left | right]; reflexivity. }
  unfold header_present in Hp.
  exists base, (le_val (read_at f (0x20 * 0x800 + base + 20) 4)),
    (le_val (read_at f (0x20 * 0x800 + base + 24) 4)).
  split; [exact Hb |]. split; [reflexivity |]. split; [reflexivity |].
  split.
  { unfold matches_magic in Hm. apply String.eqb_eq in Hm.
    unfold iso_info_of. cbv zeta. rewrite Hm. reflexivity. }
  split; [reflexivity |]. split; [reflexivity |].
  split; [apply le_val_4_bound; rewrite length_read_at by lia; reflexivity |].
  split; [apply le_val_4_bound; rewrite length_read_at by lia; reflexivity |].
  split; [reflexivity |]. split; [reflexivity |]. split; [reflexivity | lia].
Qed.

Lemma check_iso_returned_record_witness :
  exists root_offset root_dir_sector root_dir_size,
    (root_offset = 0xFD90000 \/ root_offset = 0x2080000) /\
    iso_info_of image_gdf GDF !! "sector_size" = Some (VInt 0x800) /\
    iso_info_of image_gdf GDF !! "root_offset" = Some (VInt root_offset) /\
    iso_info_of image_gdf GDF !! "identifier" = Some (VStr "MICROSOFT*XBOX*MEDIA") /\
    iso_info_of image_gdf GDF !! "root_dir_sector" = Some (VInt root_dir_sector) /\
    iso_info_of image_gdf GDF !! "root_dir_size" = Some (VInt root_dir_size) /\
    0 <= root_dir_sector < 2 ^ 32 /\ 0 <= root_dir_size < 2 ^ 32 /\
    iso_info_of image_gdf GDF !! "image_size" = Some (VInt (src_size image_gdf)) /\
    iso_info_of image_gdf GDF !! "volume_size" = Some (VInt (src_size image_gdf - root_offset)) /\
    iso_info_of image_gdf GDF !! "volume_sectors" =
      Some (VFloat (Qmake (src_size image_gdf - root_offset) 2048)) /\
    0x10000 + 28 <= src_size image_gdf - root_offset.
Proof.
  apply (check_iso_returned_record image_gdf (iso_info_of image_gdf GDF)).
  vm_compute. reflexivity.
Defined.

(** X3: an exception leaves [check_iso] exactly when the image is accepted
    at a base offset and ends before the 28 header bytes there; the exception
    is [struct.error]. *)
Theorem check_iso_raises_iff_cut (f : source) (e : exn) :
  fst (check_iso (open_file f)) = Raise e <->
  e = struct_error /\ exists base, accepted f base /\ ~ header_present f base.
Proof.
  split.
  - intros H.
    destruct (accepted_cases f) as [H0 | [Ha | [Ha | (H0 & Hg & Hx)]]].
    + rewrite check_iso_legacy in H by exact H0. discriminate H.
    + destruct (header_present_dec f GDF) as [Hp | Hp].
      * destruct (check_iso_accepted f GDF Ha Hp) as (s1 & Hrun & Hc).
        rewrite Hrun in H. discriminate H.
      * rewrite (check_iso_cut_raises f GDF Ha Hp) in H. injection H as <-. eauto.
    + destruct (header_present_dec f XGD3) as [Hp | Hp].
      * destruct (check_iso_accepted f XGD3 Ha Hp) as (s1 & Hrun & Hc).
        rewrite Hrun in H. discriminate H.
      * rewrite (check_iso_cut_raises f XGD3 Ha Hp) in H. injection H as <-. eauto.
    + rewrite (check_iso_unknown f H0 Hg Hx) in H. discriminate H.
  - intros (-> & base & Ha & Hp). apply (check_iso_cut_raises f base Ha Hp).
Qed.

Lemma len_read_at_bounds (c : source) (p n : Z) : 0 <= n -> 0 <= len (read_at c p n) <= n.
Proof. intros Hn. rewrite len_read_at_any by lia. lia. Qed.

(** X4: whatever the image holds, [check_iso] makes at most six reads, and
    each stays inside the 28 header bytes at sector 0x20 of one of the three
    base offsets 0, 0xFD90000 and 0x2080000. *)
Theorem check_iso_reads_header_regions (f : source) :
  Forall in_header_region (reads (snd (check_iso (open_file f)))) /\
  (length (reads (snd (check_iso (open_file f)))) <= 6)%nat.
Proof.
  assert (Hr : forall base p n, (base = 0 \/ base = GDF \/ base = XGD3) ->
            0x20 * 0x800 + base <= p -> 0 <= n -> p + n <= 0x20 * 0x800 + base + 28 ->
            in_header_region (p, n)).
  { intros base p n Hb H1 H2 H3. exists base. auto. }
  pose proof (fun p => len_read_at_bounds f p 20 ltac:(lia)) as L20.
  pose proof (fun p => len_read_at_bounds f p 4 ltac:(lia)) as L4.
  assert (Hrest : forall base s, (base = GDF \/ base = XGD3) -> content s = f ->
    Forall in_header_region (reads s) -> (length (reads s) <= 3)%nat ->
    let r := (let! _ := seek (0x20 * 0x800 + base) in
          let! ident := read 20 in
          let! b := read 4 in
          let! root_dir_sector := lift (unpack_I b) in
          let! b := read 4 in
          let! root_dir_size := lift (unpack_I b) in
          let! image_size := fstat_size in
          ret (<[ "volume_sectors" := VFloat (Qmake (image_size - base) 2048) ]>
               (<[ "volume_size" := VInt (image_size - base) ]>
               (<[ "image_size" := VInt image_size ]>
               (<[ "root_dir_size" := VInt root_dir_size ]>
               (<[ "root_dir_sector" := VInt root_dir_sector ]>
               (<[ "identifier" := VStr (decode_ascii_ignore ident) ]>
               (<[ "root_offset" := VInt base ]>
               ({[ "sector_size" := VInt 0x800 ]} : dict))))))))) s in
    Forall in_header_region (reads (snd r)) /\ (length (reads (snd r)) <= 6)%nat).
  { intros base s Hb Hc Hs Hl. cbv zeta.
    assert (Hb' : base = 0 \/ base = GDF \/ base = XGD3) by tauto.
    assert (0 <= base) by (destruct Hb as [-> | ->]; unfold GDF, XGD3; lia).
    do 3 step. rewrite Hc.
    specialize (L20 (32 * 2048 + base)).
    assert (H1 : in_header_region (32 * 2048 + base, 20)) by (apply (Hr base); auto; lia).
    assert (H2 : in_header_region (32 * 2048 + base + len (read_at f (32 * 2048 + base) 20), 4))
      by (apply (Hr base); auto; lia).
    destruct (unpack_I _) as [rs | x | x].
    2, 3: first [rewrite run_lift_Raise | rewrite run_lift_Fail]; cbn [snd];
          autorewrite with stream; rewrite Hc;
          (split; [rewrite <- app_assoc, Forall_app; split; [exact Hs | repeat constructor; assumption]
                  | rewrite !length_app; simpl; lia]).
    do 2 step. rewrite Hc.
    set (p4 := 32 * 2048 + base + len (read_at f (32 * 2048 + base) 20)) in *.
    specialize (L4 p4).
    assert (H3 : in_header_region (p4 + len (read_at f p4 4), 4))
      by (apply (Hr base); auto; lia).
    destruct (unpack_I _) as [rsz | x | x].
    2, 3: first [rewrite run_lift_Raise | rewrite run_lift_Fail]; cbn [snd];
          autorewrite with stream; rewrite Hc;
          (split; [rewrite <- !app_assoc, Forall_app; split; [exact Hs | repeat constructor; assumption]
                  | rewrite !length_app; simpl; lia]).
    step. unfold bind, fstat_size, ret. cbn [snd]. autorewrite with stream. rewrite Hc.
    split; [rewrite <- !app_assoc, Forall_app; split; [exact Hs | repeat constructor; assumption]
           | rewrite !length_app; simpl; lia]. }
  assert (H0 : in_header_region (32 * 2048, 20)) by (apply (Hr 0); auto; lia).
  assert (Hg : in_header_region (32 * 2048 + GDF, 20)) by (apply (Hr GDF); auto; lia).
  assert (Hx : in_header_region (32 * 2048 + XGD3, 20)) by (apply (Hr XGD3); auto; lia).
  unfold check_iso. do 2 step.
  destruct (String.eqb _ MAGIC).
  { cbn. split; [| lia]. repeat constructor. exact H0. }
  rewrite !iso_type_GDF, iso_type_XGD3. do 2 step.
  destruct (String.eqb _ MAGIC).
  - step.
    apply (Hrest GDF); [auto | reflexivity | repeat constructor; assumption | simpl; lia].
  - do 2 step. destruct (String.eqb _ MAGIC).
    + step.
      apply (Hrest XGD3); [auto | reflexivity | repeat constructor; assumption | simpl; lia].
    + cbn. split; [| lia]. repeat constructor; assumption.
Qed.

(** ** The root-directory scan: every outcome *)

Lemma run_on_file_seek_neg {B} (n : Z) (k : unit -> M (stream * stream) B) (f b : stream) :
  n < 0 -> exists e, bind (on_file (seek n)) k (f, b) = (Raise e, (f, b)).
Proof.
  intros Hn. unfold bind, on_file, seek. simpl.
  destruct (Z.ltb_spec n 0); [| lia]. eexists. reflexivity.
Qed.

Section ScanAtOutcome.

Variables (root_offset sector_size : Z) (data : bytes).

(** At a position that passes the test the body leaves the loop: it returns
    a buffer or an exception leaves it, and the loop does not go on. *)
Lemma scan_at_entry_leaves (i : Z) (f b : stream) :
  holds data b -> 0 <= i -> entry_at data i = true ->
  exists s', (exists e, scan_at root_offset sector_size i (f, b) = (Raise e, s')) \/
             (exists x, scan_at root_offset sector_size i (f, b) = (Ret (Some x), s')).
Proof.
  intros Hb Hi He.
  destruct (Z.lt_ge_cases i 8) as [Hlow | Hhigh].
  { destruct (scan_at_entry_low root_offset sector_size data i f b Hb ltac:(lia) He) as (b' & Hrun).
    eexists. left. eexists. exact Hrun. }
  destruct (Z.lt_ge_cases (root_offset + data_sector data i * sector_size) 0) as [Hneg | Hpos].
  2: { destruct (scan_at_entry root_offset sector_size data i f b Hb Hhigh He Hpos) as (b' & Hrun).
       eexists. right. eexists. exact Hrun. }
  unfold scan_at.
  pose proof (entry_at_length data i ltac:(lia) He) as Hlen.
  rewrite run_on_buffer_seek by lia. rewrite !run_on_buffer_read by lia.
  destruct (scan_at_reads data i b Hb ltac:(lia)) as [H1 H2]. cbv zeta in H1, H2.
  unfold entry_at in He. rewrite <- H1 in He.
  apply andb_true_iff in He as [H11 Hname].
  rewrite H11. rewrite run_on_buffer_read by lia. rewrite H2 by exact H11. rewrite Hname.
  rewrite run_on_buffer_seek by lia. rewrite run_on_buffer_read by lia.
  autorewrite with stream. destruct Hb as [Hk Hc]. rewrite Hc.
  rewrite (read_at_of_bytes data (i - 8) 4) by lia.
  rewrite unpack_I_4 by (rewrite length_take, length_drop; unfold len in Hlen; lia).
  rewrite run_lift_Ret. rewrite run_on_buffer_read by lia. autorewrite with stream. rewrite Hc.
  rewrite (len_read_at (of_bytes data) (i - 8) 4) by (simpl; lia).
  replace (i - 8 + 4) with (i - 4) by lia.
  rewrite (read_at_of_bytes data (i - 4) 4) by lia.
  rewrite unpack_I_4 by (rewrite length_take, length_drop; unfold len in Hlen; lia).
  rewrite run_lift_Ret.
  change (Z.to_nat 4) with 4%nat. fold (data_sector data i).
  edestruct (@run_on_file_seek_neg (option stream)) as [e Hrun]; [exact Hneg |].
  rewrite Hrun. eexists. left. eexists. reflexivity.
Qed.

End ScanAtOutcome.

Lemma first_entry_None (data : bytes) (rsize : Z) :
  len data <= rsize ->
  first_entry data rsize = None <-> forall i, 0 <= i -> entry_at data i = false.
Proof.
  intros Hl. unfold first_entry. split.
  - intros Hnone i Hi.
    destruct (entry_at data i) eqn:He; [| reflexivity].
    pose proof (entry_at_length data i Hi He) as Hlen.
    rewrite <- He. apply (List.find_none _ _ Hnone).
    rewrite <- list_elem_of_In. unfold range. apply elem_of_seqZ. lia.
  - intros Hall.
    destruct (List.find (entry_at data) (range 0 (rsize - 12))) as [i |] eqn:Hfind;
      [| reflexivity].
    apply find_range in Hfind as [Hi He]. rewrite Hall in He by lia. discriminate He.
Qed.

(** X5: on a dictionary that holds the four integers, [extract_defaultxex]
    ends with EntryNotFound exactly when no position of the bytes read for the
    root directory passes the test of the scan: the bound
    [root_dir_size - 12] of the loop leaves out no position where a name of 11
    bytes still fits. *)
Theorem extract_defaultxex_not_found_iff (iso_info : dict) (rds ss ro rsize : Z) (f : stream) :
  getitem_int iso_info "root_dir_sector" = Ret rds ->
  getitem_int iso_info "sector_size" = Ret ss ->
  getitem_int iso_info "root_offset" = Ret ro ->
  getitem_int iso_info "root_dir_size" = Ret rsize ->
  0 <= rds * ss + ro -> 0 <= rsize ->
  let data := read_at (content f) (rds * ss + ro) rsize in
  fst (extract_defaultxex iso_info f) = Fail EntryNotFound <->
  forall i, 0 <= i -> entry_at data i = false.
Proof.
  intros H1 H2 H3 H4 Hseek Hsize data.
  assert (Hlen : len data <= rsize).
  { unfold data. rewrite len_read_at_any by lia. lia. }
  rewrite <- (first_entry_None data rsize Hlen).
  pose proof (extract_defaultxex_run iso_info rds ss ro rsize f H1 H2 H3 H4 Hseek Hsize) as Hrun.
  cbv zeta in Hrun. fold data in Hrun.
  destruct (first_entry data rsize) as [i |] eqn:Hfirst.
  2: { rewrite Hrun. split; reflexivity. }
  clear Hrun. split; [| discriminate]. intros Hfail. exfalso.
  revert Hfail. unfold extract_defaultxex. rewrite H1, H2, H3, H4.
  rewrite !run_lift_Ret. rewrite run_seek by lia. rewrite run_lift_Ret.
  rewrite run_read by lia. autorewrite with stream. fold data.
  set (f1 := after_read (set_pos f (rds * ss + ro)) rsize).
  assert (Hb : holds data (new_BytesIO data)) by (split; reflexivity).
  pose proof (for_each_scan ro ss data (range 0 (rsize - 12)) f1 (new_BytesIO data)
                Hb (range_nonneg 0 _ ltac:(lia))) as Hscan.
  unfold first_entry in Hfirst. rewrite Hfirst in Hscan.
  destruct Hscan as (b' & rest & Hb' & Hrun).
  apply find_range in Hfirst as [Hi He].
  destruct (scan_at_entry_leaves ro ss data i f1 b' Hb' ltac:(lia) He)
    as (s' & [[e Hbody] | [x Hbody]]).
  all: unfold with_buffer, bind at 1; rewrite Hrun; unfold bind at 1; rewrite Hbody;
       cbn; discriminate.
Qed.

Lemma extract_defaultxex_not_found_iff_witness :
  let data := read_at image_xgd3 (0x30 * 0x800 + XGD3) 0x800 in
  fst (extract_defaultxex (iso_info_of image_xgd3 XGD3) (open_file image_xgd3)) =
    Fail EntryNotFound <->
  forall i, 0 <= i -> entry_at data i = false.
Proof.
  apply (extract_defaultxex_not_found_iff (iso_info_of image_xgd3 XGD3) 0x30 0x800 XGD3 0x800
           (open_file image_xgd3));
    vm_compute; first [reflexivity | discriminate].
Defined.

(** [extract_defaultxex] on the dictionary of an image accepted at [base]. *)
Lemma extract_defaultxex_on_accepted (f : source) (base : Z) (s1 : stream) :
  0 <= base -> content s1 = f ->
  let rds := le_val (read_at f (0x20 * 0x800 + base + 20) 4) in
  let rsize := le_val (read_at f (0x20 * 0x800 + base + 24) 4) in
  let data := read_at f (rds * 0x800 + base) rsize in
  fst (extract_defaultxex (iso_info_of f base) s1) =
    match first_entry data rsize with
    | None => Fail EntryNotFound
    | Some i =>
        if i <? 8 then Raise ValueError
        else Ret (new_BytesIO (read_at f (base + data_sector data i * 0x800)
                                 (data_size data i)))
    end.
Proof.
  intros Hb0 Hc rds rsize data.
  destruct (getitem_iso_info_of f base) as (G1 & G2 & G3 & G4).
  fold rds in G1. fold rsize in G4.
  pose proof (le_val_nonneg (read_at f (0x20 * 0x800 + base + 20) 4)) as Hrds. fold rds in Hrds.
  pose proof (le_val_nonneg (read_at f (0x20 * 0x800 + base + 24) 4)) as Hrsize.
  fold rsize in Hrsize.
  pose proof (extract_defaultxex_run (iso_info_of f base) rds 0x800 base rsize s1
                G1 G2 G3 G4 ltac:(lia) Hrsize) as Hx.
  cbv zeta in Hx. rewrite Hc in Hx. fold data in Hx.
  destruct (first_entry data rsize) as [i |].
  - destruct Hx as [Hlow Hhigh]. destruct (Z.ltb_spec i 8) as [Hi | Hi].
    + rewrite (Hlow Hi). reflexivity.
    + rewrite Hhigh; [reflexivity | exact Hi |].
      pose proof (le_val_nonneg (take 4 (drop (Z.to_nat (i - 8)) data))) as Hs.
      fold (data_sector data i) in Hs. lia.
  - rewrite Hx. reflexivity.
Qed.

(** X6: on the dictionary [check_iso] returned and the file it left,
    [extract_defaultxex] finds its four keys and makes no negative seek on the
    file: it ends with EntryNotFound when no position passes the test, with
    [ValueError] when the first position that passes is below 8, and returns
    the buffer of the entry otherwise. *)
Theorem extract_defaultxex_after_check_iso (f : source) (d : dict) :
  fst (check_iso (open_file f)) = Ret d ->
  exists base rds rsize,
    d !! "root_offset" = Some (VInt base) /\
    d !! "root_dir_sector" = Some (VInt rds) /\
    d !! "root_dir_size" = Some (VInt rsize) /\
    let data := read_at f (rds * 0x800 + base) rsize in
    fst (extract_defaultxex d (snd (check_iso (open_file f)))) =
      match first_entry data rsize with
      | None => Fail EntryNotFound
      | Some i =>
          if i <? 8 then Raise ValueError
          else Ret (new_BytesIO (read_at f (base + data_sector data i * 0x800)
                                   (data_size data i)))
      end.
Proof.
  intros H. destruct (check_iso (open_file f)) as [o s1] eqn:Hrun. cbn [fst snd] in *. subst o.
  apply check_iso_returns in Hrun as (base & Ha & Hp & -> & Hc).
  assert (Hb0 : 0 <= base).
  { destruct Ha as [_ [[-> _] | (-> & _)]]; unfold GDF, XGD3; lia. }
  exists base, (le_val (read_at f (0x20 * 0x800 + base + 20) 4)),
    (le_val (read_at f (0x20 * 0x800 + base + 24) 4)).
  split; [reflexivity |]. split; [reflexivity |]. split; [reflexivity |].
  apply (extract_defaultxex_on_accepted f base s1 Hb0 Hc).
Qed.

Lemma extract_defaultxex_after_check_iso_witness :
  exists base rds rsize,
    iso_info_of image_game XGD3 !! "root_offset" = Some (VInt base) /\
    iso_info_of image_game XGD3 !! "root_dir_sector" = Some (VInt rds) /\
    iso_info_of image_game XGD3 !! "root_dir_size" = Some (VInt rsize) /\
    let data := read_at image_game (rds * 0x800 + base) rsize in
    fst (extract_defaultxex (iso_info_of image_game XGD3)
           (snd (check_iso (open_file image_game)))) =
      match first_entry data rsize with
      | None => Fail EntryNotFound
      | Some i =>
          if i <? 8 then Raise ValueError
          else Ret (new_BytesIO (read_at image_game (base + data_sector data i * 0x800)
                                   (data_size data i)))
      end.
Proof.
  apply (extract_defaultxex_after_check_iso image_game (iso_info_of image_game XGD3)).
  vm_compute. reflexivity.
Defined.

(** ** The executable header: short and rejected buffers *)

Lemma run_read_any {B} (k : stream_kind) (c : source) (p : Z) (r : list (Z * Z))
    (n : Z) (K : bytes -> M stream B) :
  0 <= n ->
  bind (read n) K (Stream k c p r) =
    K (read_at c p n) (Stream k c (p + len (read_at c p n)) (r ++ [(p, n)])).
Proof. intros Hn. rewrite run_read by lia. reflexivity. Qed.

Lemma unpack_BE_short (b : bytes) : length b <> 4%nat -> unpack_BE b = Raise struct_error.
Proof.
  intros H. do 5 (destruct b as [| ? b]; try reflexivity). simpl in H. lia.
Qed.

Lemma unpack_BE_cut (buf : bytes) (p : Z) :
  0 <= p -> len buf < p + 4 -> unpack_BE (read_at (of_bytes buf) p 4) = Raise struct_error.
Proof.
  intros Hp Hl. apply unpack_BE_short. apply length_read_at_short; simpl; lia.
Qed.

Lemma has_magic_length (buf : bytes) : has_magic buf = true -> 4 <= len buf.
Proof.
  unfold has_magic. intros H. apply String.eqb_eq in H.
  pose proof (length_decode_ascii_ignore (take 4 buf)) as Hle.
  rewrite H in Hle. rewrite length_take in Hle.
  change (String.length "XEX2") with 4%nat in Hle. unfold len. lia.
Qed.

(** X7: a buffer whose first four bytes do not decode to the magic, and
    so every buffer shorter than four bytes, the empty one included, is
    rejected with BadMagic after the single read of the magic. *)
Theorem bad_magic_rejected (getsizeof : source -> Z) (buf : bytes) :
  has_magic buf = false \/ len buf < 4 ->
  fst (extract_xex_info getsizeof (new_BytesIO buf)) = Fail BadMagic /\
  reads (snd (extract_xex_info getsizeof (new_BytesIO buf))) = [(0, 4)].
Proof.
  intros H.
  assert (Hm : has_magic buf = false).
  { destruct H as [H | H]; [exact H |].
    destruct (has_magic buf) eqn:E; [| reflexivity].
    apply has_magic_length in E. lia. }
  unfold extract_xex_info, new_BytesIO.
  rewrite run_seek_at by lia. rewrite run_read_any by lia.
  rewrite read_at_of_bytes by lia. change (drop (Z.to_nat 0) buf) with buf.
  change (Z.to_nat 4) with 4%nat. unfold has_magic in Hm. rewrite Hm.
  split; reflexivity.
Qed.

Lemma bad_magic_rejected_witness :
  fst (extract_xex_info (getsizeof_plus 114) (new_BytesIO [])) = Fail BadMagic /\
  reads (snd (extract_xex_info (getsizeof_plus 114) (new_BytesIO []))) = [(0, 4)].
Proof. apply (bad_magic_rejected (getsizeof_plus 114) []). right. reflexivity. Defined.

(** X8: a buffer that begins with the magic and whose [code_offset]
    exceeds the size [sys.getsizeof] reports for the buffer object is rejected
    with CodeOffsetBeyondSize after the reads of the magic and of
    [code_offset]; [cert_offset] and the table are not read. *)
Theorem code_offset_beyond_size_rejected (getsizeof : source -> Z) (buf : bytes) :
  has_magic buf = true -> 12 <= len buf ->
  code_offset buf > getsizeof (of_bytes buf) ->
  extract_xex_info getsizeof (new_BytesIO buf) =
    (Fail CodeOffsetBeyondSize, Stream BytesIO (of_bytes buf) 12 [(0, 4); (8, 4)]).
Proof.
  intros Hm Hl Hco. unfold extract_xex_info, new_BytesIO.
  rewrite run_seek_at by lia. rewrite run_read_at by (simpl; lia).
  rewrite read_at_of_bytes by lia. change (drop (Z.to_nat 0) buf) with buf.
  change (Z.to_nat 4) with 4%nat. unfold has_magic in Hm. rewrite Hm.
  rewrite run_seek_at by lia. rewrite run_read_at by (simpl; lia).
  rewrite unpack_BE_field by lia. rewrite run_lift_Ret.
  unfold bind at 1, sys_getsizeof. cbn [content].
  fold (code_offset buf).
  destruct (Z.gtb_spec (code_offset buf) (getsizeof (of_bytes buf))) as [_ | Hle]; [| lia].
  reflexivity.
Qed.

Lemma code_offset_beyond_size_rejected_witness :
  extract_xex_info (getsizeof_plus 114) (new_BytesIO (take 12 xex_scenario)) =
    (Fail CodeOffsetBeyondSize,
     Stream BytesIO (of_bytes (take 12 xex_scenario)) 12 [(0, 4); (8, 4)]).
Proof.
  apply (code_offset_beyond_size_rejected (getsizeof_plus 114) (take 12 xex_scenario));
    [reflexivity | vm_compute; discriminate | reflexivity].
Defined.

(** X9: a buffer that begins with the magic and is shorter than the 24
    bytes of the header is never decoded: the first field that is cut makes
    [unpack] raise [struct.error], unless a check on the fields before it
    rejects the buffer first. *)
Theorem short_header_not_decoded (getsizeof : source -> Z) (buf : bytes) :
  has_magic buf = true -> len buf < 24 ->
  fst (extract_xex_info getsizeof (new_BytesIO buf)) =
    if len buf <? 12 then Raise struct_error
    else if code_offset buf >? getsizeof (of_bytes buf) then Fail CodeOffsetBeyondSize
    else if len buf <? 20 then Raise struct_error
    else if cert_offset buf >? code_offset buf then Fail CertOffsetInvalid
    else Raise struct_error.
Proof.
  intros Hm Hl. pose proof (has_magic_length buf Hm) as H4.
  unfold extract_xex_info, new_BytesIO.
  rewrite run_seek_at by lia. rewrite run_read_at by (simpl; lia).
  rewrite read_at_of_bytes by lia. change (drop (Z.to_nat 0) buf) with buf.
  change (Z.to_nat 4) with 4%nat. unfold has_magic in Hm. rewrite Hm.
  rewrite run_seek_at by lia. rewrite run_read_any by lia.
  destruct (Z.ltb_spec (len buf) 12) as [H12 | H12].
  { rewrite unpack_BE_cut by lia. reflexivity. }
  rewrite unpack_BE_field by lia. rewrite run_lift_Ret.
  unfold bind at 1, sys_getsizeof. cbn [content].
  fold (code_offset buf).
  destruct (code_offset buf >? getsizeof (of_bytes buf)); [reflexivity |].
  rewrite run_seek_at by lia. rewrite run_read_any by lia.
  destruct (Z.ltb_spec (len buf) 20) as [H20 | H20].
  { rewrite unpack_BE_cut by lia. reflexivity. }
  rewrite unpack_BE_field by lia. rewrite run_lift_Ret.
  fold (cert_offset buf).
  destruct (cert_offset buf >? code_offset buf); [reflexivity |].
  rewrite run_seek_at by lia. rewrite run_read_any by lia.
  rewrite unpack_BE_cut by lia. reflexivity.
Qed.

Lemma short_header_not_decoded_witness :
  fst (extract_xex_info (getsizeof_plus 114) (new_BytesIO (take 20 xex_cut_table))) =
    Raise struct_error.
Proof.
  apply (short_header_not_decoded (getsizeof_plus 114) (take 20 xex_cut_table));
    [reflexivity | reflexivity].
Defined.

Lemma ord_cut (buf : bytes) (p : Z) :
  0 <= p -> len buf <= p -> ord (read_at (of_bytes buf) p 1) = Raise TypeError.
Proof. intros Hp Hl. rewrite read_at_past_end by (simpl; lia). reflexivity. Qed.

(** The decoder on a buffer that ends inside the record. *)
Lemma read_execution_info_cut (buf : bytes) (a : Z) (r : list (Z * Z)) :
  0 <= a -> len buf < a + 20 ->
  fst (read_execution_info ∅ (Stream BytesIO (of_bytes buf) a r)) =
    Raise (if len buf <? a + 12 then struct_error else TypeError).
Proof.
  intros Ha Hl. unfold read_execution_info.
  rewrite run_read_any by lia.
  destruct (Z.ltb_spec (len buf) (a + 12)) as [H12 | H12].
  - destruct (Z.lt_ge_cases (len buf) (a + 4)) as [H4 | H4].
    { rewrite run_read_any by lia. rewrite unpack_BE_short; [reflexivity |].
      pose proof (len_read_at_any (of_bytes buf) a 4 ltac:(lia)) as L. cbn [src_size of_bytes] in L.
      apply length_read_at_short; [lia |]. cbn [src_size of_bytes]. lia. }
    rewrite len_read_at by (simpl; lia).
    rewrite run_read_any by lia.
    destruct (Z.lt_ge_cases (len buf) (a + 8)) as [H8 | H8].
    { rewrite unpack_BE_cut by lia. reflexivity. }
    rewrite unpack_BE_field by lia. rewrite run_lift_Ret.
    rewrite len_read_at by (simpl; lia).
    rewrite run_read_any by lia. rewrite unpack_BE_cut by lia. reflexivity.
  - rewrite len_read_at by (simpl; lia).
    rewrite run_read_at by (simpl; lia). rewrite unpack_BE_field by lia. rewrite run_lift_Ret.
    rewrite run_read_at by (simpl; lia). rewrite unpack_BE_field by lia. rewrite run_lift_Ret.
    rewrite run_read_any by lia.
    pose proof (len_read_at_any (of_bytes buf) (a + 4 + 4 + 4) 4 ltac:(lia)) as L.
    cbn [src_size of_bytes] in L.
    set (t := len (read_at (of_bytes buf) (a + 4 + 4 + 4) 4)) in *.
    rewrite run_read_any by lia.
    destruct (Z.le_gt_cases (len buf) (a + 4 + 4 + 4 + t)) as [Hp | Hp].
    { rewrite ord_cut by lia. reflexivity. }
    assert (Ht : t = 4) by lia. rewrite Ht.
    rewrite ord_read_at by lia. rewrite run_lift_Ret.
    rewrite len_read_at by (simpl; lia).
    rewrite run_read_any by lia.
    destruct (Z.le_gt_cases (len buf) (a + 17)) as [H17 | H17].
    { rewrite ord_cut by lia. reflexivity. }
    rewrite ord_read_at by lia. rewrite run_lift_Ret.
    rewrite len_read_at by (simpl; lia).
    rewrite run_read_any by lia.
    destruct (Z.le_gt_cases (len buf) (a + 18)) as [H18 | H18].
    { rewrite ord_cut by lia. reflexivity. }
    rewrite ord_read_at by lia. rewrite run_lift_Ret.
    rewrite len_read_at by (simpl; lia).
    rewrite run_read_any by lia.
    rewrite ord_cut by lia. reflexivity.
Qed.

(** X11: when the buffer ends inside the 20 bytes of the record the scan
    points at, no dictionary is returned: [unpack] raises [struct.error] when
    the end falls in the first 12 bytes, and [ord] raises [TypeError] on an
    empty read when it falls in the last 8. *)
Theorem truncated_record_raises (getsizeof : source -> Z) (buf : bytes) (a : Z) :
  header_valid getsizeof buf -> table_in_buffer buf ->
  last_target (table_entries buf) None = Some a ->
  len buf < a + 20 ->
  fst (extract_xex_info getsizeof (new_BytesIO buf)) =
    Raise (if len buf <? a + 12 then struct_error else TypeError).
Proof.
  intros Hv Ht Hlast Hl. rewrite extract_xex_info_scanned by assumption. rewrite Hlast.
  apply read_execution_info_cut; [| exact Hl].
  apply (last_target_nonneg (table_entries buf) (entries_from_nonneg _ _ _) None a);
    [discriminate | exact Hlast].
Qed.

Lemma truncated_record_raises_witness :
  len xex_cut_record = 0x20 + 14 /\
  fst (extract_xex_info (getsizeof_plus 114) (new_BytesIO xex_cut_record)) = Raise TypeError.
Proof.
  split; [reflexivity |].
  apply (truncated_record_raises (getsizeof_plus 114) xex_cut_record 0x20).
  - repeat split; vm_compute; first [reflexivity | discriminate].
  - vm_compute; discriminate.
  - reflexivity.
  - reflexivity.
Defined.

Lemma table_scan_no_target_witness :
  extract_xex_info (getsizeof_plus 114) (new_BytesIO xex_no_target) =
    (Fail ExecutionInfoNotFound,
     Stream BytesIO (of_bytes xex_no_target) (24 + 8 * header_entry_count xex_no_target)
       (scan_reads xex_no_target)).
Proof.
  apply (table_scan_no_target (getsizeof_plus 114) xex_no_target).
  - repeat split; vm_compute; first [reflexivity | discriminate].
  - vm_compute; discriminate.
  - repeat constructor; vm_compute; discriminate.
Defined.

(** ** What a returned dictionary tells *)

Lemma scan_table_stream (n : nat) :
  forall (acc : option Z) (s : stream) (o : outcome (option Z)) (s' : stream),
    scan_table n acc s = (o, s') -> kind s' = kind s /\ content s' = content s.
Proof.
  induction n as [| n IH]; intros acc s o s' H.
  - injection H as _ <-. split; reflexivity.
  - cbn [scan_table] in H. unfold bind, read, lift in H.
    change (4 <? -1) with false in H. cbn [andb] in H.
    change (unpack_BE execution_info_table_flags) with (@Ret Z target_id) in H.
    destruct (unpack_BE (read_at (content s) (pos s) 4)) as [id | x | x];
      [| injection H as _ <-; split; reflexivity ..].
    destruct (id =? target_id).
    + destruct (unpack_BE _) as [a | x | x]; [| injection H as _ <-; split; reflexivity ..].
      apply IH in H. exact H.
    + apply IH in H. exact H.
Qed.

Lemma unpack_BE_read_inv (buf : bytes) (p v : Z) :
  0 <= p -> unpack_BE (read_at (of_bytes buf) p 4) = Ret v ->
  p + 4 <= len buf /\ v = field_BE buf p.
Proof.
  intros Hp H. destruct (Z.le_gt_cases (p + 4) (len buf)) as [Hle | Hgt].
  - rewrite unpack_BE_field in H by lia. injection H as <-. split; [exact Hle | reflexivity].
  - rewrite unpack_BE_cut in H by lia. discriminate H.
Qed.

(** What a returned dictionary tells about the buffer. *)
Lemma extract_xex_info_returns (getsizeof : source -> Z) (buf : bytes) (d : dict)
    (s' : stream) :
  extract_xex_info getsizeof (new_BytesIO buf) = (Ret d, s') ->
  header_valid getsizeof buf /\
  exists a, 0 <= a /\ a + 20 <= len buf /\ d = execution_info_of buf a.
Proof.
  intros H. unfold extract_xex_info, new_BytesIO in H.
  rewrite run_seek_at in H by lia. rewrite run_read_any in H by lia.
  rewrite read_at_of_bytes in H by lia. change (drop (Z.to_nat 0) buf) with buf in H.
  change (Z.to_nat 4) with 4%nat in H. fold (has_magic buf) in H.
  destruct (has_magic buf) eqn:Hm; [| discriminate H].
  rewrite run_seek_at in H by lia. rewrite run_read_any in H by lia.
  destruct (unpack_BE (read_at (of_bytes buf) 8 4)) as [co | x | x] eqn:Hco;
    [| discriminate H ..].
  apply unpack_BE_read_inv in Hco as [H12 ->]; [| lia].
  rewrite run_lift_Ret in H. unfold bind at 1, sys_getsizeof in H. cbn [content] in H.
  fold (code_offset buf) in H.
  destruct (Z.gtb_spec (code_offset buf) (getsizeof (of_bytes buf))) as [| Hsize];
    [discriminate H |].
  rewrite run_seek_at in H by lia. rewrite run_read_any in H by lia.
  destruct (unpack_BE (read_at (of_bytes buf) 16 4)) as [ce | x | x] eqn:Hce;
    [| discriminate H ..].
  apply unpack_BE_read_inv in Hce as [H20 ->]; [| lia].
  rewrite run_lift_Ret in H. fold (cert_offset buf) in H.
  destruct (Z.gtb_spec (cert_offset buf) (code_offset buf)) as [| Hcert];
    [discriminate H |].
  rewrite run_seek_at in H by lia. rewrite run_read_any in H by lia.
  destruct (unpack_BE (read_at (of_bytes buf) 20 4)) as [cnt | x | x] eqn:Hn;
    [| discriminate H ..].
  apply unpack_BE_read_inv in Hn as [H24 ->]; [| lia].
  rewrite run_lift_Ret in H. fold (header_entry_count buf) in H.
  destruct (Z.gtb_spec (header_entry_count buf * 8 + 24) (code_offset buf)) as [| Htab];
    [discriminate H |].
  split; [unfold header_valid; repeat split; solve [assumption | lia] |].
  unfold bind at 1 in H.
  destruct (scan_table _ None _) as [[[a |] | x | x] s2] eqn:Hscan; try discriminate H.
  apply scan_table_stream in Hscan as [Hk Hc]. cbn [kind content] in Hk, Hc.
  destruct s2 as [k c p r]. cbn [kind content] in Hk, Hc. subst k c.
  unfold bind at 1, seek in H.
  destruct (Z.ltb_spec a 0) as [| Ha]; [discriminate H |].
  change (set_pos (Stream BytesIO (of_bytes buf) p r) a)
    with (Stream BytesIO (of_bytes buf) a r) in H.
  exists a. split; [exact Ha |].
  destruct (Z.le_gt_cases (a + 20) (len buf)) as [Hle | Hgt].
  - rewrite read_execution_info_at in H by assumption. injection H as <- _.
    split; [exact Hle | reflexivity].
  - pose proof (read_execution_info_cut buf a r Ha ltac:(lia)) as Hcut.
    rewrite H in Hcut. discriminate Hcut.
Qed.

(** X12: a dictionary is returned only for a buffer that begins with the
    magic, holds the 24 header bytes and passes the three checks, and it is
    the decoding of 20 bytes that lie inside the buffer. *)
Theorem decoded_only_from_valid_header (getsizeof : source -> Z) (buf : bytes) (d : dict) :
  fst (extract_xex_info getsizeof (new_BytesIO buf)) = Ret d ->
  has_magic buf = true /\ 24 <= len buf /\
  cert_offset buf <= code_offset buf <= getsizeof (of_bytes buf) /\
  header_entry_count buf * 8 + 24 <= code_offset buf /\
  exists a, 0 <= a /\ a + 20 <= len buf /\ d = execution_info_of buf a.
Proof.
  intros H.
  destruct (extract_xex_info getsizeof (new_BytesIO buf)) as [o s'] eqn:Hrun.
  cbn [fst] in H. subst o.
  apply extract_xex_info_returns in Hrun as ((Hm & Hl & Hco & Hce & Hn) & Ha).
  repeat split; assumption.
Qed.

Lemma decoded_only_from_valid_header_witness :
  has_magic xex_scenario = true /\ 24 <= len xex_scenario /\
  cert_offset xex_scenario <= code_offset xex_scenario
    <= getsizeof_plus 114 (of_bytes xex_scenario) /\
  header_entry_count xex_scenario * 8 + 24 <= code_offset xex_scenario /\
  exists a, 0 <= a /\ a + 20 <= len xex_scenario /\
            execution_info_of xex_scenario 0x40 = execution_info_of xex_scenario a.
Proof.
  apply (decoded_only_from_valid_header (getsizeof_plus 114) xex_scenario
           (execution_info_of xex_scenario 0x40)).
  vm_compute. reflexivity.
Defined.

Lemma length_hex_upper (b : bytes) : String.length (hex_upper b) = (2 * length b)%nat.
Proof. induction b as [| x b IH]; [reflexivity |]. cbn [hex_upper String.length length]. lia. Qed.

Lemma is_upper_hex_hex_upper (b : bytes) : is_upper_hex (hex_upper b) = true.
Proof.
  unfold is_upper_hex. induction b as [| x b IH]; [reflexivity |].
  cbn [hex_upper list_ascii_of_string forallb]. rewrite IH.
  destruct x; reflexivity.
Qed.

Lemma be_val_4_bound (b : bytes) : (length b <= 4)%nat -> 0 <= be_val b < 2 ^ 32.
Proof.
  intros H.
  assert (Hb : forall x : byte, 0 <= byte_val x < 256).
  { intros x. unfold byte_val. pose proof (Byte.to_N_bounded x). lia. }
  destruct b as [| b0 b]; [unfold be_val; simpl; lia |]. pose proof (Hb b0).
  destruct b as [| b1 b]; [unfold be_val; cbn [fold_left]; lia |]. pose proof (Hb b1).
  destruct b as [| b2 b]; [unfold be_val; cbn [fold_left]; lia |]. pose proof (Hb b2).
  destruct b as [| b3 b]; [unfold be_val; cbn [fold_left]; lia |]. pose proof (Hb b3).
  destruct b as [| b4 b]; [unfold be_val; cbn [fold_left]; lia |].
  simpl in H. lia.
Qed.

Lemma byte_at_bound (buf : bytes) (a : Z) : 0 <= byte_at buf a < 256.
Proof. unfold byte_at, byte_val. pose proof (Byte.to_N_bounded (nth (Z.to_nat a) buf x00)). lia. Qed.

Lemma hex_at_hex_upper (buf : bytes) (a : Z) :
  hex_at buf a = hex_upper (take 4 (drop (Z.to_nat a) buf)).
Proof. apply upper_hexlify. Qed.

(** X13: a returned dictionary has exactly the eight keys of the record;
    [media_id] and [title_id] are strings of eight characters among
    [0-9A-F], the two versions are 32-bit values and the four remaining
    fields are byte values. *)
Theorem decoded_record_format (getsizeof : source -> Z) (buf : bytes) (d : dict) :
  fst (extract_xex_info getsizeof (new_BytesIO buf)) = Ret d ->
  dom d = list_to_set info_keys /\
  (exists m t,
     d !! "media_id" = Some (VStr m) /\ d !! "title_id" = Some (VStr t) /\
     String.length m = 8%nat /\ String.length t = 8%nat /\
     is_upper_hex m = true /\ is_upper_hex t = true) /\
  (exists v bv,
     d !! "version" = Some (VInt v) /\ d !! "base_version" = Some (VInt bv) /\
     0 <= v < 2 ^ 32 /\ 0 <= bv < 2 ^ 32) /\
  Forall (fun k => exists n, d !! k = Some (VInt n) /\ 0 <= n < 256)
    ["platform"; "executable_type"; "disc_number"; "disc_count"].
Proof.
  intros H.
  destruct (extract_xex_info getsizeof (new_BytesIO buf)) as [o s'] eqn:Hrun.
  cbn [fst] in H. subst o.
  apply extract_xex_info_returns in Hrun as (_ & a & Ha & Hl & ->).
  assert (H4 : forall k, 0 <= k <= 16 ->
            length (take 4 (drop (Z.to_nat (a + k)) buf)) = 4%nat).
  { intros k Hk. rewrite length_take, length_drop. unfold len in Hl. lia. }
  split; [| split; [| split]].
  - unfold execution_info_of, info_keys. rewrite !dom_insert_L, dom_empty_L.
    cbn [list_to_set]. set_solver.
  - exists (hex_at buf a), (hex_at buf (a + 12)).
    split; [reflexivity |]. split; [reflexivity |].
    rewrite !hex_at_hex_upper, !length_hex_upper, !is_upper_hex_hex_upper.
    rewrite (H4 12) by lia. pose proof (H4 0 ltac:(lia)) as H0.
    rewrite Z.add_0_r in H0. rewrite H0. repeat split; reflexivity.
  - exists (field_BE buf (a + 4)), (field_BE buf (a + 8)).
    split; [reflexivity |]. split; [reflexivity |].
    unfold field_BE. split; apply be_val_4_bound; rewrite H4 by lia; lia.
  - repeat constructor; eexists; (split; [reflexivity | apply byte_at_bound]).
Qed.

Lemma decoded_record_format_witness :
  let d := execution_info_of xex_scenario 0x40 in
  dom d = list_to_set info_keys /\
  (exists m t,
     d !! "media_id" = Some (VStr m) /\ d !! "title_id" = Some (VStr t) /\
     String.length m = 8%nat /\ String.length t = 8%nat /\
     is_upper_hex m = true /\ is_upper_hex t = true) /\
  (exists v bv,
     d !! "version" = Some (VInt v) /\ d !! "base_version" = Some (VInt bv) /\
     0 <= v < 2 ^ 32 /\ 0 <= bv < 2 ^ 32) /\
  Forall (fun k => exists n, d !! k = Some (VInt n) /\ 0 <= n < 256)
    ["platform"; "executable_type"; "disc_number"; "disc_count"].
Proof.
  apply (decoded_record_format (getsizeof_plus 114) xex_scenario
           (execution_info_of xex_scenario 0x40)).
  vm_compute. reflexivity.
Defined.

(** ** The lookup table *)

Section GameLookupFacts.

Variables (str_strip str_upper : string -> string).

Lemma add_row_entry (g : gmap string string) (row : list string) :
  add_row str_strip str_upper g row =
    match row_entry str_strip str_upper row with
    | Some (k, v) => <[ k := v ]> g
    | None => g
    end.
Proof.
  unfold add_row, row_entry. destruct row as [| r0 [| r1 rest]]; try reflexivity.
  replace (len (r0 :: r1 :: rest) >? 1) with true; [reflexivity |].
  symmetry. apply Z.gtb_lt. unfold len. simpl length. lia.
Qed.

Lemma fold_add_row_silent (k : string) (post : list (list string)) :
  Forall (silent_on str_strip str_upper k) post ->
  forall g, fold_left (add_row str_strip str_upper) post g !! k = g !! k.
Proof.
  induction 1 as [| row post Hrow Hpost IH]; intros g; [reflexivity |].
  cbn [fold_left]. rewrite IH. rewrite add_row_entry.
  destruct (row_entry str_strip str_upper row) as [[k' v'] |] eqn:He; [| reflexivity].
  apply lookup_insert_ne. intros ->. exact (Hrow v' He).
Qed.

(** X15: the table holds [v] under [k] exactly when some row of two fields
    or more gives [k] as the normalised second field and [v] as the stripped
    first field, and no later row gives [k] again: the last row for an id
    wins. *)
Theorem load_game_lookup_last_row (rows : list (list string)) (k v : string) :
  load_game_lookup str_strip str_upper (Some rows) !! k = Some v <->
  exists pre row post,
    rows = pre ++ row :: post /\
    row_entry str_strip str_upper row = Some (k, v) /\
    Forall (silent_on str_strip str_upper k) post.
Proof.
  unfold load_game_lookup. split.
  - induction rows as [| r rows IH] using rev_ind.
    + cbn. rewrite lookup_empty. discriminate.
    + rewrite fold_left_app. cbn [fold_left]. rewrite add_row_entry.
      destruct (row_entry str_strip str_upper r) as [[k' v'] |] eqn:He.
      * destruct (decide (k' = k)) as [-> | Hne].
        -- rewrite lookup_insert_eq. intros [= ->].
           exists rows, r, []. split; [reflexivity |]. split; [exact He | constructor].
        -- rewrite lookup_insert_ne by exact Hne. intros H.
           destruct (IH H) as (pre & row & post & -> & Hrow & Hpost).
           exists pre, row, (post ++ [r]).
           split; [rewrite <- app_assoc; reflexivity |]. split; [exact Hrow |].
           apply Forall_app. split; [exact Hpost |]. constructor; [| constructor].
           intros v0 Hv0. rewrite He in Hv0. congruence.
      * intros H. destruct (IH H) as (pre & row & post & -> & Hrow & Hpost).
        exists pre, row, (post ++ [r]).
        split; [rewrite <- app_assoc; reflexivity |]. split; [exact Hrow |].
        apply Forall_app. split; [exact Hpost |]. constructor; [| constructor].
        intros v0 Hv0. rewrite He in Hv0. discriminate.
  - intros (pre & row & post & -> & Hrow & Hpost).
    rewrite fold_left_app. cbn [fold_left].
    rewrite fold_add_row_silent by exact Hpost.
    rewrite add_row_entry, Hrow. apply lookup_insert_eq.
Qed.

(** X16: rows of fewer than two fields, the empty row included, are
    skipped: the table is the one built from the other rows. *)
Theorem load_game_lookup_short_rows (rows : list (list string)) :
  load_game_lookup str_strip str_upper (Some rows) =
  load_game_lookup str_strip str_upper
    (Some (List.filter (fun row => 2 <=? len row) rows)).
Proof.
  unfold load_game_lookup. generalize (∅ : gmap string string).
  induction rows as [| r rows IH]; intros g; [reflexivity |].
  cbn [fold_left List.filter].
  destruct (Z.leb_spec 2 (len r)) as [H2 | H2].
  - cbn [fold_left]. apply IH.
  - rewrite <- IH. f_equal. unfold add_row.
    destruct (Z.gtb_spec (len r) 1); [lia | reflexivity].
Qed.

End GameLookupFacts.

(** ** The record of [parse] *)

(** A closed decidable statement, settled by evaluation. *)
Ltac decide_closed :=
  match goal with
  | |- ?P => apply (bool_decide_unpack P); vm_compute; exact I
  end.

(** What a returned record tells about the file. *)
Lemma parse_returns (getsizeof : source -> Z) (game_lookup : gmap string string)
    (fs : gmap string source) (filename : string) (props : dict) :
  parse getsizeof game_lookup fs filename = Some props ->
  exists f base buf a,
    fs !! filename = Some f /\ accepted f base /\ header_present f base /\
    fst (check_iso (open_file f)) = Ret (iso_info_of f base) /\
    header_valid getsizeof buf /\ 0 <= a /\ a + 20 <= len buf /\
    props = <[ "game_name" := VStr (default "Unknown" (game_lookup !! hex_at buf (a + 12))) ]>
              (execution_info_of buf a) ∪ iso_info_of f base.
Proof.
  unfold parse, parse_try. intros H.
  destruct (fs !! filename) as [f |] eqn:Hf; [| discriminate H].
  destruct (check_iso (open_file f)) as [[iso_info | x | x] s1] eqn:Hc; try discriminate H.
  pose proof Hc as Hc'.
  apply check_iso_returns in Hc as (base & Ha & Hp & -> & Hs1).
  assert (Hb0 : 0 <= base).
  { destruct Ha as [_ [[-> _] | (-> & _)]]; unfold GDF, XGD3; lia. }
  pose proof (extract_defaultxex_on_accepted f base s1 Hb0 Hs1) as Hd. cbv zeta in Hd.
  destruct (extract_defaultxex (iso_info_of f base) s1) as [[xex_buffer | x | x] s2];
    try discriminate H.
  cbn [fst] in Hd.
  assert (Hbuf : exists buf, xex_buffer = new_BytesIO buf).
  { destruct (first_entry _ _) as [i |]; [| discriminate Hd].
    destruct (i <? 8); [discriminate Hd |]. injection Hd as ->. eexists. reflexivity. }
  destruct Hbuf as [buf ->].
  destruct (extract_xex_info getsizeof (new_BytesIO buf)) as [[xex_info | x | x] s3] eqn:Hx;
    try discriminate H.
  apply extract_xex_info_returns in Hx as (Hv & a & Ha0 & Hl & ->).
  injection H as <-.
  exists f, base, buf, a.
  split; [reflexivity |]. split; [exact Ha |]. split; [exact Hp |].
  split; [rewrite Hc'; reflexivity |]. split; [exact Hv |]. split; [exact Ha0 |]. split; [exact Hl |].
  reflexivity.
Qed.

(** X14: a record returned by [parse] has exactly the 17 keys of the
    container, of the execution info and [game_name]; every field [check_iso]
    returned is in it unchanged, the update with the execution info
    overwriting none; and [title_id], the key of the lookup, is a string of
    eight characters among [0-9A-F]. *)
Theorem parse_result_fields (getsizeof : source -> Z) (game_lookup : gmap string string)
    (fs : gmap string source) (filename : string) (props : dict) :
  parse getsizeof game_lookup fs filename = Some props ->
  dom props = list_to_set (container_keys ++ info_keys ++ ["game_name"]) /\
  (exists f iso_info,
     fs !! filename = Some f /\ fst (check_iso (open_file f)) = Ret iso_info /\
     iso_info ⊆ props) /\
  (exists t,
     props !! "title_id" = Some (VStr t) /\
     String.length t = 8%nat /\ is_upper_hex t = true).
Proof.
  intros H.
  apply parse_returns in H as (f & base & buf & a & Hf & Ha & Hp & Hc & Hv & Ha0 & Hl & ->).
  split; [| split].
  - rewrite dom_union_L. unfold execution_info_of, iso_info_of. cbv zeta.
    rewrite !dom_insert_L, dom_empty_L, dom_singleton_L.
    decide_closed.
  - exists f, (iso_info_of f base). split; [exact Hf |]. split; [exact Hc |].
    apply map_union_subseteq_r. apply map_disjoint_dom.
    unfold execution_info_of, iso_info_of. cbv zeta.
    rewrite !dom_insert_L, dom_empty_L, dom_singleton_L.
    decide_closed.
  - exists (hex_at buf (a + 12)). split; [reflexivity |].
    rewrite hex_at_hex_upper, length_hex_upper, is_upper_hex_hex_upper.
    split; [| reflexivity].
    rewrite length_take, length_drop. unfold len in Hl. lia.
Qed.

Lemma parse_result_fields_witness :
  let props := example_props "Example Game" in
  dom props = list_to_set (container_keys ++ info_keys ++ ["game_name"]) /\
  (exists f iso_info,
     example_files !! "game.iso" = Some f /\ fst (check_iso (open_file f)) = Ret iso_info /\
     iso_info ⊆ props) /\
  (exists t,
     props !! "title_id" = Some (VStr t) /\
     String.length t = 8%nat /\ is_upper_hex t = true).
Proof.
  apply (parse_result_fields (getsizeof_plus 114) example_lookup example_files "game.iso"
           (example_props "Example Game")).
  vm_compute. reflexivity.
Defined.

Section GameName.

Variables (str_strip str_upper : string -> string).

(** X17: with the table [load_game_lookup] builds, the game name of a
    record is "Unknown" when there is no CSV file or no row gives the title
    id, and otherwise the stripped first field of the last row whose
    normalised second field is the title id. *)
Theorem game_name_from_csv (getsizeof : source -> Z) (csv : option (list (list string)))
    (fs : gmap string source) (filename : string) (props : dict) :
  parse getsizeof (load_game_lookup str_strip str_upper csv) fs filename = Some props ->
  exists t,
    props !! "title_id" = Some (VStr t) /\
    match csv with
    | None => props !! "game_name" = Some (VStr "Unknown")
    | Some rows =>
        (Forall (silent_on str_strip str_upper t) rows ->
         props !! "game_name" = Some (VStr "Unknown")) /\
        (forall pre row post name,
           rows = pre ++ row :: post ->
           row_entry str_strip str_upper row = Some (t, name) ->
           Forall (silent_on str_strip str_upper t) post ->
           props !! "game_name" = Some (VStr name))
    end.
Proof.
  intros H.
  apply parse_returns in H as (f & base & buf & a & Hf & Ha & Hp & Hc & Hv & Ha0 & Hl & ->).
  exists (hex_at buf (a + 12)). split; [reflexivity |].
  assert (Hname : forall g : gmap string string,
            (<[ "game_name" := VStr (default "Unknown" (g !! hex_at buf (a + 12))) ]>
               (execution_info_of buf a) ∪ iso_info_of f base) !! "game_name" =
            Some (VStr (default "Unknown" (g !! hex_at buf (a + 12))))).
  { intros g. apply lookup_union_Some_l. apply lookup_insert_eq. }
  rewrite Hname. destruct csv as [rows |]; [| reflexivity].
  unfold load_game_lookup. split.
  - intros Hsilent. rewrite fold_add_row_silent by exact Hsilent. reflexivity.
  - intros pre row post name -> Hrow Hpost.
    rewrite fold_left_app. cbn [fold_left].
    rewrite fold_add_row_silent by exact Hpost.
    rewrite add_row_entry, Hrow, lookup_insert_eq. reflexivity.
Qed.

End GameName.

Lemma game_name_from_csv_witness :
  exists t,
    example_props "Example Game" !! "title_id" = Some (VStr t) /\
    match example_csv with
    | None => example_props "Example Game" !! "game_name" = Some (VStr "Unknown")
    | Some rows =>
        (Forall (silent_on strip_ascii upper t) rows ->
         example_props "Example Game" !! "game_name" = Some (VStr "Unknown")) /\
        (forall pre row post name,
           rows = pre ++ row :: post ->
           row_entry strip_ascii upper row = Some (t, name) ->
           Forall (silent_on strip_ascii upper t) post ->
           example_props "Example Game" !! "game_name" = Some (VStr name))
    end.
Proof.
  apply (game_name_from_csv strip_ascii upper (getsizeof_plus 114) example_csv example_files
           "game.iso" (example_props "Example Game")).
  vm_compute. reflexivity.
Defined.

(** ** The report of [main] *)

Lemma list_ascii_of_string_app (s1 s2 : string) :
  list_ascii_of_string (s1 +:+ s2) = list_ascii_of_string s1 ++ list_ascii_of_string s2.
Proof.
  induction s1 as [| c s1 IH]; [reflexivity |].
  simpl. f_equal. exact IH.
Qed.

Lemma append_inj_l (s1 s2 t : string) : s1 +:+ t = s2 +:+ t -> s1 = s2.
Proof.
  intros H. apply (f_equal list_ascii_of_string) in H.
  rewrite !list_ascii_of_string_app in H. apply app_inv_tail in H.
  rewrite <- (string_of_list_ascii_of_string s1), <- (string_of_list_ascii_of_string s2).
  rewrite H. reflexivity.
Qed.

Lemma candidate_inj (i j : nat) : candidate i = candidate j -> i = j.
Proof.
  destruct i as [| i], j as [| j]; [reflexivity | discriminate | discriminate |].
  unfold candidate. intros H.
  apply (inj (String.append "GameInfo_")) in H. apply append_inj_l in H.
  apply (inj pretty) in H. lia.
Qed.

Lemma candidate_next (i : nat) :
  "GameInfo_" +:+ pretty (Z.of_nat i + 1) +:+ ".txt" = candidate (S i).
Proof. unfold candidate. do 3 f_equal. lia. Qed.

(** The search stops at the first candidate that is not an existing file,
    when its fuel reaches that far. *)
Lemma free_filename_first (existing : gset string) (fuel : nat) :
  forall i j : nat,
    (i <= j < i + fuel)%nat ->
    (forall m, (i <= m < j)%nat -> candidate m ∈ existing) ->
    candidate j ∉ existing ->
    free_filename fuel existing (candidate i) (Z.of_nat i + 1) = Some (candidate j).
Proof.
  induction fuel as [| fuel IH]; intros i j Hij Hin Hout; [lia |].
  cbn [free_filename].
  destruct (decide (i = j)) as [-> | Hne].
  - rewrite bool_decide_eq_false_2 by exact Hout. reflexivity.
  - rewrite bool_decide_eq_true_2 by (apply Hin; lia).
    rewrite candidate_next.
    replace (Z.of_nat i + 1 + 1) with (Z.of_nat (S i) + 1) by lia.
    apply IH; [lia | intros m Hm; apply Hin; lia | exact Hout].
Qed.

(** Among the first [size existing + 1] candidates one is not an existing
    file. *)
Lemma first_free_candidate (existing : gset string) :
  exists j : nat, (j <= size existing)%nat /\ (candidate j ∉ existing) /\
    forall m, (m < j)%nat -> candidate m ∈ existing.
Proof.
  assert (Hsearch : forall n : nat,
            (forall m, (m < n)%nat -> candidate m ∈ existing) \/
            exists j, (j < n)%nat /\ (candidate j ∉ existing) /\
                      forall m, (m < j)%nat -> candidate m ∈ existing).
  { induction n as [| n [IH | IH]].
    - left. intros m Hm. lia.
    - destruct (decide (candidate n ∈ existing)) as [Hin | Hout].
      + left. intros m Hm. destruct (decide (m = n)) as [-> | Hne]; [exact Hin | apply IH; lia].
      + right. exists n. split; [lia |]. split; [exact Hout | exact IH].
    - right. destruct IH as (j & Hj & Hout & Hin). exists j. split; [lia | auto]. }
  destruct (Hsearch (S (size existing))) as [Hall | (j & Hj & Hout & Hin)].
  - exfalso.
    set (l := map candidate (seq 0 (S (size existing)))).
    assert (Hnd : NoDup l).
    { apply NoDup_fmap_2; [intros x y; apply candidate_inj | apply NoDup_seq]. }
    assert (Hsub : (list_to_set l : gset string) ⊆ existing).
    { intros x Hx. apply elem_of_list_to_set in Hx. unfold l in Hx.
      apply list_elem_of_fmap in Hx as (m & -> & Hm).
      apply elem_of_seq in Hm. apply Hall. lia. }
    apply subseteq_size in Hsub. rewrite size_list_to_set in Hsub by exact Hnd.
    unfold l in Hsub. rewrite length_map, length_seq in Hsub. lia.
  - exists j. split; [lia | auto].
Qed.

(** X18: the search for a report name, given more tests than there are
    existing files, ends with the first of [GameInfo.txt], [GameInfo_1.txt],
    [GameInfo_2.txt], ... that is not an existing file: no existing file is
    chosen, and every name tried before it exists. *)
Theorem report_name_is_free (existing : gset string) (fuel : nat) :
  (size existing < fuel)%nat ->
  exists j : nat,
    free_filename fuel existing "GameInfo.txt" 1 = Some (candidate j) /\
    (candidate j ∉ existing) /\
    forall m, (m < j)%nat -> candidate m ∈ existing.
Proof.
  intros Hfuel. destruct (first_free_candidate existing) as (j & Hj & Hout & Hin).
  exists j. split; [| split; [exact Hout | exact Hin]].
  apply (free_filename_first existing fuel 0 j); [lia | intros m Hm; apply Hin; lia | exact Hout].
Qed.

Lemma report_name_is_free_witness :
  exists j : nat,
    free_filename 5 example_existing "GameInfo.txt" 1 = Some (candidate j) /\
    (candidate j ∉ example_existing) /\
    forall m, (m < j)%nat -> candidate m ∈ example_existing.
Proof. apply (report_name_is_free example_existing 5). vm_compute. lia. Defined.

Section MainFacts.

Variables (str_strip str_upper str_lower : string -> string).
Variable getsizeof : source -> Z.

Lemma parse_not_empty (game_lookup : gmap string string) (fs : gmap string source)
    (iso : string) (info : dict) :
  parse getsizeof game_lookup fs iso = Some info ->
  info <> ∅ /\ info !! "iso_name" = None.
Proof.
  intros H.
  apply parse_returns in H as (f & base & buf & a & _ & _ & _ & _ & _ & _ & _ & ->).
  split.
  - intros He. apply (f_equal (fun m : dict => m !! "game_name")) in He.
    rewrite lookup_empty in He.
    erewrite lookup_union_Some_l in He by apply lookup_insert_eq. discriminate He.
  - apply lookup_union_None. split; reflexivity.
Qed.

Lemma fold_visit (game_lookup : gmap string string) (fs : gmap string source)
    (isos : list string) :
  forall all_info,
    fold_left (visit getsizeof game_lookup fs) isos all_info =
      all_info ++ omap (recorded getsizeof game_lookup fs) isos.
Proof.
  induction isos as [| iso isos IH]; intros all_info.
  - cbn. rewrite app_nil_r. reflexivity.
  - cbn [fold_left]. rewrite IH.
    change (omap (recorded getsizeof game_lookup fs) (iso :: isos))
      with (match recorded getsizeof game_lookup fs iso with
            | Some y => y :: omap (recorded getsizeof game_lookup fs) isos
            | None => omap (recorded getsizeof game_lookup fs) isos
            end).
    unfold visit. unfold recorded at 2.
    destruct (parse getsizeof game_lookup fs iso) as [info |] eqn:Hp;
      cbn [fmap option_fmap option_map]; [| reflexivity].
    destruct (parse_not_empty game_lookup fs iso info Hp) as [Hne _].
    rewrite bool_decide_eq_false_2 by exact Hne.
    rewrite <- app_assoc. reflexivity.
Qed.

(** X19: the loop of [main] keeps one record for every image [parse]
    returns a record for, in the order of the listing, and skips the others:
    the test [if info:] drops no record, since none is empty.  The key
    [iso_name] is new to the record, so adding it changes no field. *)
Theorem every_parsed_image_is_recorded (game_lookup : gmap string string)
    (fs : gmap string source) (isos : list string) :
  fold_left (visit getsizeof game_lookup fs) isos [] =
    omap (recorded getsizeof game_lookup fs) isos /\
  forall iso info,
    parse getsizeof game_lookup fs iso = Some info ->
    info !! "iso_name" = None /\
    recorded getsizeof game_lookup fs iso = Some (<[ "iso_name" := VStr iso ]> info) /\
    info ⊆ <[ "iso_name" := VStr iso ]> info.
Proof.
  split; [apply (fold_visit game_lookup fs isos []) |].
  intros iso info Hp. destruct (parse_not_empty game_lookup fs iso info Hp) as [_ Hnew].
  split; [exact Hnew |]. split.
  - unfold recorded. rewrite Hp. reflexivity.
  - apply insert_subseteq. exact Hnew.
Qed.

(** X20: a run of [main] whose search has more tests than there are
    existing files ends; it collects the records of the images of the listing
    whose name ends in [.iso], letter case apart; it writes no report when
    [parse] returns [None] for all of them, and otherwise writes one under a
    name that is not an existing file. *)
Theorem main_report (fuel : nat) (csv : option (list (list string)))
    (listing : list string) (fs : gmap string source) (existing : gset string) :
  (size existing < fuel)%nat ->
  let game_lookup := load_game_lookup str_strip str_upper csv in
  let all_info := omap (recorded getsizeof game_lookup fs) (iso_files str_lower listing) in
  exists report,
    main str_strip str_upper str_lower getsizeof fuel csv listing fs existing =
      Some (all_info, report) /\
    match report with
    | None => Forall (fun iso => parse getsizeof game_lookup fs iso = None)
                (iso_files str_lower listing)
    | Some filename =>
        Exists (fun iso => parse getsizeof game_lookup fs iso <> None)
          (iso_files str_lower listing) /\
        filename ∉ existing
    end.
Proof.
  intros Hfuel game_lookup all_info. unfold main. fold game_lookup.
  rewrite fold_visit. cbn [app]. fold all_info.
  assert (Hparse : forall iso,
            recorded getsizeof game_lookup fs iso = None <->
            parse getsizeof game_lookup fs iso = None).
  { intros iso. unfold recorded.
    destruct (parse getsizeof game_lookup fs iso); split; intros H; done. }
  destruct all_info as [| info rest] eqn:Hall.
  - exists None. split; [reflexivity |].
    unfold all_info in Hall. clear all_info.
    induction (iso_files str_lower listing) as [| iso isos IH]; [constructor |].
    change (omap (recorded getsizeof game_lookup fs) (iso :: isos))
      with (match recorded getsizeof game_lookup fs iso with
            | Some y => y :: omap (recorded getsizeof game_lookup fs) isos
            | None => omap (recorded getsizeof game_lookup fs) isos
            end) in Hall.
    destruct (recorded getsizeof game_lookup fs iso) eqn:Hr; [discriminate Hall |].
    constructor; [apply Hparse; exact Hr | apply IH; exact Hall].
  - destruct (first_free_candidate existing) as (j & Hj & Hout & Hin).
    exists (Some (candidate j)).
    pose proof (free_filename_first existing fuel 0 j ltac:(lia)
                  (fun m Hm => Hin m (proj2 Hm)) Hout) as Hfree.
    change (free_filename fuel existing "GameInfo.txt" 1 = Some (candidate j)) in Hfree.
    rewrite Hfree.
    split; [reflexivity |]. split; [| exact Hout].
    unfold all_info in Hall. clear all_info.
    induction (iso_files str_lower listing) as [| iso isos IH]; [discriminate Hall |].
    change (omap (recorded getsizeof game_lookup fs) (iso :: isos))
      with (match recorded getsizeof game_lookup fs iso with
            | Some y => y :: omap (recorded getsizeof game_lookup fs) isos
            | None => omap (recorded getsizeof game_lookup fs) isos
            end) in Hall.
    destruct (recorded getsizeof game_lookup fs iso) eqn:Hr.
    + apply Exists_cons_hd. intros Hnone. apply Hparse in Hnone. congruence.
    + apply Exists_cons_tl. apply IH. exact Hall.
Qed.

End MainFacts.

Lemma main_report_witness :
  let game_lookup := load_game_lookup strip_ascii upper example_csv in
  let all_info :=
    omap (recorded (getsizeof_plus 114) game_lookup example_files)
      (iso_files lower ["notes.txt"; "game.iso"; "missing.ISO"]) in
  exists report,
    main strip_ascii upper lower (getsizeof_plus 114) 5 example_csv
      ["notes.txt"; "game.iso"; "missing.ISO"] example_files example_existing =
      Some (all_info, report) /\
    match report with
    | None => Forall (fun iso => parse (getsizeof_plus 114) game_lookup example_files iso = None)
                (iso_files lower ["notes.txt"; "game.iso"; "missing.ISO"])
    | Some filename =>
        Exists (fun iso => parse (getsizeof_plus 114) game_lookup example_files iso <> None)
          (iso_files lower ["notes.txt"; "game.iso"; "missing.ISO"]) /\
        filename ∉ example_existing
    end.
Proof.
  apply (main_report strip_ascii upper lower (getsizeof_plus 114) 5 example_csv
           ["notes.txt"; "game.iso"; "missing.ISO"] example_files example_existing).
  vm_compute. lia.
Defined.

(** The run of the example: one record, for [game.iso], named after the last
    row of the table for its title id, and the report goes to the first name
    not in use. *)
Lemma main_example :
  main strip_ascii upper lower (getsizeof_plus 114) 5 example_csv
    ["notes.txt"; "game.iso"; "missing.ISO"] example_files example_existing =
    Some ([<[ "iso_name" := VStr "game.iso" ]> (example_props "Example Game")],
          Some "GameInfo_2.txt").
Proof. vm_compute. reflexivity. Qed.

(** ** The lines of the report *)

Section ReportFacts.

Variable str_float : Q -> string.

(** X21: for a record [parse] returned, to which [main] added the file
    name, the six lines of the report show the file name, the game name of the
    lookup (or "Unknown"), the two identifiers as decoded, and the disc number
    and count in decimal; none of the defaults of [info.get] is written, since
    the record holds every key the report asks for. *)
Theorem report_lines_of_record (getsizeof : source -> Z) (game_lookup : gmap string string)
    (fs : gmap string source) (iso : string) (info : dict) :
  parse getsizeof game_lookup fs iso = Some info ->
  exists m t dn dc,
    info !! "media_id" = Some (VStr m) /\ info !! "title_id" = Some (VStr t) /\
    info !! "disc_number" = Some (VInt dn) /\ info !! "disc_count" = Some (VInt dc) /\
    0 <= dn < 256 /\ 0 <= dc < 256 /\
    report_lines str_float (<[ "iso_name" := VStr iso ]> info) =
      [ "-> " +:+ iso;
        "Game Name: " +:+ default "Unknown" (game_lookup !! t);
        "Media ID: " +:+ m;
        "Title ID: " +:+ t;
        "Disc Number: " +:+ pretty dn +:+ " of " +:+ pretty dc;
        "----------------------------------------" ].
Proof.
  intros H.
  apply parse_returns in H as (f & base & buf & a & _ & _ & _ & _ & _ & _ & _ & ->).
  exists (hex_at buf a), (hex_at buf (a + 12)), (byte_at buf (a + 18)), (byte_at buf (a + 19)).
  split; [reflexivity |]. split; [reflexivity |]. split; [reflexivity |].
  split; [reflexivity |]. split; [apply byte_at_bound |]. split; [apply byte_at_bound |].
  reflexivity.
Qed.

End ReportFacts.

Lemma report_lines_of_record_witness :
  exists m t dn dc,
    example_props "Example Game" !! "media_id" = Some (VStr m) /\
    example_props "Example Game" !! "title_id" = Some (VStr t) /\
    example_props "Example Game" !! "disc_number" = Some (VInt dn) /\
    example_props "Example Game" !! "disc_count" = Some (VInt dc) /\
    0 <= dn < 256 /\ 0 <= dc < 256 /\
    report_lines (fun _ => "") (<[ "iso_name" := VStr "game.iso" ]> (example_props "Example Game")) =
      [ "-> " +:+ "game.iso";
        "Game Name: " +:+ default "Unknown" (example_lookup !! t);
        "Media ID: " +:+ m;
        "Title ID: " +:+ t;
        "Disc Number: " +:+ pretty dn +:+ " of " +:+ pretty dc;
        "----------------------------------------" ].
Proof.
  apply (report_lines_of_record (fun _ => "") (getsizeof_plus 114) example_lookup example_files
           "game.iso" (example_props "Example Game")).
  vm_compute. reflexivity.
Defined.
